(** * The Adwaita theme generator of fyne-x, embedded and verified

    The generator (theme/adwaita_theme_generator.go, and its older form
    theme/adwaita_colors_generator.go) downloads the libadwaita colour
    page and the Adwaita icon archive, picks colours and icons through
    hand-maintained tables and writes two Go source files.

    The embedding follows the Go source function by function.  Go values
    are represented as follows:
    - a Go [string] is a [string] of bytes, a [uint8] is a [Z];
    - a Go [map] that the program only ranges over is the list of its
      literal entries, and the order in which [range] visits it is an
      explicit argument (a permutation of that list);
    - a Go [map] that the program fills is a [gmap];
    - a function returning [(v, error)] returns a [result]; a run-time
      panic is the third outcome of [result];
    - the network, the file system, the log and the sub-processes are an
      environment record and a state threaded through the run. *)

From Stdlib Require Import ZArith Ascii String List Permutation Lia.
From stdpp Require Import base option list sorting gmap strings.

Local Open Scope Z_scope.
Local Open Scope list_scope.
Local Open Scope stdpp_scope.

(** ** Characters and small string helpers *)

Definition nl : string := String (ascii_of_nat 10) EmptyString.
Definition tab : string := String (ascii_of_nat 9) EmptyString.
Definition dq : string := String (ascii_of_nat 34) EmptyString.

(** [unlines] joins the lines of a raw string literal. *)
Definition unlines (ls : list string) : string := String.concat nl ls.

(** ** Package strings *)

Module strings.

(** [strings.CutPrefix]: the rest of [s] after [prefix], when [s]
    starts with it. *)
Fixpoint CutPrefix (s prefix : string) {struct prefix} : option string :=
  match prefix, s with
  | EmptyString, _ => Some s
  | String a p, String b s' =>
      if Ascii.eqb a b then CutPrefix s' p else None
  | String _ _, EmptyString => None
  end.

Definition HasPrefix (s prefix : string) : bool :=
  match CutPrefix s prefix with Some _ => true | None => false end.

(** [strings.Cut]: [s] around the first instance of [sep]. *)
Fixpoint Cut (s sep : string) : option (string * string) :=
  match CutPrefix s sep with
  | Some after => Some (EmptyString, after)
  | None =>
      match s with
      | EmptyString => None
      | String c s' =>
          match Cut s' sep with
          | Some (before, after) => Some (String c before, after)
          | None => None
          end
      end
  end.

(** [strings.Contains]: [substr] occurs somewhere in [s]. *)
Fixpoint Contains (s substr : string) : bool :=
  if HasPrefix s substr then true
  else match s with
       | EmptyString => false
       | String _ s' => Contains s' substr
       end.

(** [strings.HasSuffix] and [strings.TrimSuffix]. *)
Fixpoint CutSuffix (s suffix : string) : option string :=
  if String.eqb s suffix then Some EmptyString
  else match s with
       | EmptyString => None
       | String c s' =>
           match CutSuffix s' suffix with
           | Some before => Some (String c before)
           | None => None
           end
       end.

Definition TrimSuffix (s suffix : string) : string :=
  match CutSuffix s suffix with Some before => before | None => s end.

(** [strings.Split] for a non-empty separator: the pieces of [s]
    between the non-overlapping instances of [sep], leftmost first.
    [skip] counts the bytes of a separator still to be passed. *)
Fixpoint SplitFrom (skip : nat) (s sep : string) : list string :=
  match s with
  | EmptyString => [EmptyString]
  | String c s' =>
      match skip with
      | S k => SplitFrom k s' sep
      | O =>
          if HasPrefix s sep
          then EmptyString :: SplitFrom (String.length sep - 1) s' sep
          else match SplitFrom O s' sep with
               | piece :: rest => String c piece :: rest
               | [] => [String c EmptyString]
               end
      end
  end.

Definition Split (s sep : string) : list string := SplitFrom O s sep.

End strings.

Example Contains_ex1 :
  strings.Contains "<td>&#64;window_bg_color</td>" ("&#64;" +:+ "window_bg_color") = true.
Proof. reflexivity. Qed.

Example Contains_ex2 : strings.Contains "abc" "bd" = false.
Proof. reflexivity. Qed.

Example Split_ex1 : strings.Split "red_3,red_4" "," = ["red_3"; "red_4"].
Proof. reflexivity. Qed.

Example Split_ex2 : strings.Split "orange_3" "," = ["orange_3"].
Proof. reflexivity. Qed.

Example Split_ex3 : strings.Split "a,,b," "," = ["a"; EmptyString; "b"; EmptyString].
Proof. reflexivity. Qed.

Example TrimSuffix_ex1 : strings.TrimSuffix "x/audio.svg" ".svg" = "x/audio".
Proof. reflexivity. Qed.

Example TrimSuffix_ex2 : strings.TrimSuffix "x/audio.png" ".svg" = "x/audio.png".
Proof. reflexivity. Qed.

(** ** Package regexp: the two patterns of the generator

    A match of a pattern with one capture group is the two-element
    [[]string] that [FindAllStringSubmatch] returns: element 0 is the
    whole match and element 1 the group. *)

Record submatch := Submatch { m0 : string; m1 : string }.

Module regexp.

(** [(?s)<tr>(.*?)</tr>]: a match starts at the leftmost ["<tr>"] and,
    the group being lazy, ends at the first ["</tr>"] after it; the
    search for the next match resumes behind it.  Every match consumes
    at least one byte, so [String.length s] rounds suffice. *)
Fixpoint tableRowMatches (fuel : nat) (s : string) : list submatch :=
  match fuel with
  | O => []
  | S fuel' =>
      match strings.Cut s "<tr>" with
      | None => []
      | Some (_, inner) =>
          match strings.Cut inner "</tr>" with
          | None => []
          | Some (group, rest) =>
              Submatch ("<tr>" +:+ group +:+ "</tr>") group
                :: tableRowMatches fuel' rest
          end
      end
  end.

Definition tableRowMatcher_FindAllStringSubmatch (s : string) : list submatch :=
  tableRowMatches (String.length s) s.

(** The leftmost place where ["<tt>"] is followed by one of the two
    alternatives [rgba] and [#]: the alternative and the text behind
    it. *)
Fixpoint cellOpen (s : string) : option (string * string) :=
  match strings.CutPrefix s "<tt>rgba" with
  | Some rest => Some ("rgba", rest)
  | None =>
      match strings.CutPrefix s "<tt>#" with
      | Some rest => Some ("#", rest)
      | None =>
          match s with
          | EmptyString => None
          | String _ s' => cellOpen s'
          end
      end
  end.

(** [(?s)<tt>((?:rgba|#).*?)</tt>] *)
Fixpoint tableColorCellMatches (fuel : nat) (s : string) : list submatch :=
  match fuel with
  | O => []
  | S fuel' =>
      match cellOpen s with
      | None => []
      | Some (alt, inner) =>
          match strings.Cut inner "</tt>" with
          | None => []
          | Some (body, rest) =>
              Submatch ("<tt>" +:+ alt +:+ body +:+ "</tt>") (alt +:+ body)
                :: tableColorCellMatches fuel' rest
          end
      end
  end.

Definition tableColorCellMatcher_FindAllStringSubmatch (s : string) : list submatch :=
  tableColorCellMatches (String.length s) s.

End regexp.

Definition sample_row : string :=
  "<tr><td><tt>&#64;window_bg_color</tt></td><td><tt>#fafafa</tt></td><td><tt>rgba(36, 36, 36, 1)</tt></td></tr>".

Example tableRowMatcher_ex :
  regexp.tableRowMatcher_FindAllStringSubmatch ("<table>" +:+ sample_row +:+ "<tr>x</tr></table><tr>") =
  [Submatch sample_row
     "<td><tt>&#64;window_bg_color</tt></td><td><tt>#fafafa</tt></td><td><tt>rgba(36, 36, 36, 1)</tt></td>";
   Submatch "<tr>x</tr>" "x"].
Proof. reflexivity. Qed.

Example tableColorCellMatcher_ex :
  regexp.tableColorCellMatcher_FindAllStringSubmatch sample_row =
  [Submatch "<tt>#fafafa</tt>" "#fafafa";
   Submatch "<tt>rgba(36, 36, 36, 1)</tt>" "rgba(36, 36, 36, 1)"].
Proof. reflexivity. Qed.

(** ** Package path/filepath

    [Clean] is the lexical processing of the Go function on a system
    whose separator is the slash: empty elements and [.] elements are
    dropped, a [..] element removes the element before it (at the start
    of a rooted path it is dropped, at the start of a relative path it
    is kept), and the empty result is [.].  [Join] joins the elements
    from the first one that is not empty and cleans the result. *)

Module filepath.

Definition nonempty (s : string) : bool :=
  match s with EmptyString => false | _ => true end.

(** The elements of a path, the texts between its separators. *)
Fixpoint elements (s : string) : list string :=
  match s with
  | EmptyString => [EmptyString]
  | String c s' =>
      if Ascii.eqb c "/" then EmptyString :: elements s'
      else match elements s' with
           | e :: rest => String c e :: rest
           | [] => [String c EmptyString]
           end
  end.

(** One round of the loop of [Clean]; [out] holds the elements written
    so far, the last one first. *)
Definition cleanStep (rooted : bool) (out : list string) (elem : string) : list string :=
  if String.eqb elem EmptyString || String.eqb elem "." then out
  else if String.eqb elem ".." then
    match out with
    | top :: rest => if String.eqb top ".." then ".." :: out else rest
    | [] => if rooted then [] else [".."]
    end
  else elem :: out.

Definition cleaned (rooted : bool) (path : string) : list string :=
  fold_left (cleanStep rooted) (elements path) [].

Definition Clean (path : string) : string :=
  match path with
  | EmptyString => "."
  | String c _ =>
      let rooted := Ascii.eqb c "/" in
      let out := String.concat "/" (rev (cleaned rooted path)) in
      if rooted then "/" +:+ out
      else match out with
           | EmptyString => "."
           | _ => out
           end
  end.

Fixpoint Join (elem : list string) : string :=
  match elem with
  | [] => EmptyString
  | e :: rest =>
      if nonempty e then Clean (String.concat "/" elem) else Join rest
  end.

(** The text behind the last separator, and whether one was seen. *)
Fixpoint lastElem (s : string) : string * bool :=
  match s with
  | EmptyString => (EmptyString, false)
  | String c s' =>
      match lastElem s' with
      | (e, true) => (e, true)
      | (e, false) =>
          if Ascii.eqb c "/" then (e, true) else (String c e, false)
      end
  end.

Fixpoint trimSlashes (s : string) : string :=
  match s with
  | EmptyString => EmptyString
  | String c s' =>
      match trimSlashes s' with
      | EmptyString => if Ascii.eqb c "/" then EmptyString else String c EmptyString
      | t => String c t
      end
  end.

(** [filepath.Base]: the last element of the path, trailing separators
    removed; ["."] for the empty path and ["/"] for a path of
    separators only. *)
Definition Base (path : string) : string :=
  match path with
  | EmptyString => "."
  | _ =>
      match trimSlashes path with
      | EmptyString => "/"
      | p => fst (lastElem p)
      end
  end.

(** The text before the last separator. *)
Fixpoint dirPart (s : string) : option string :=
  match s with
  | EmptyString => None
  | String c s' =>
      match dirPart s' with
      | Some d => Some (String c d)
      | None => if Ascii.eqb c "/" then Some EmptyString else None
      end
  end.

(** [filepath.Dir] of a path that [Join] has cleaned. *)
Definition Dir (path : string) : string :=
  match dirPart path with
  | None => "."
  | Some EmptyString => "/"
  | Some d => d
  end.

End filepath.

Example Join_ex :
  filepath.Join ["/tmp/adwaita1"; "adwaita-icon-theme-master-Adwaita"; "Adwaita"; "scalable/places/folder.svg"]
  = "/tmp/adwaita1/adwaita-icon-theme-master-Adwaita/Adwaita/scalable/places/folder.svg".
Proof. reflexivity. Qed.

Example Clean_ex :
  filepath.Clean "a//b/./c/.." = "a/b" /\ filepath.Clean "/../a/" = "/a" /\
  filepath.Clean "../../a" = "../../a" /\ filepath.Clean "a/../.." = ".." /\
  filepath.Clean "a/.." = "." /\ filepath.Clean "//" = "/" /\
  filepath.Join ["/tmp/x"; "../y"] = "/tmp/y" /\
  filepath.Join ["/tmp/x"; "./a//b.svg"] = "/tmp/x/a/b.svg" /\
  filepath.Join [EmptyString; "a"; EmptyString; "b"] = "a/b" /\
  filepath.Join [EmptyString; EmptyString] = EmptyString.
Proof. repeat split; reflexivity. Qed.

Example Base_ex1 : filepath.Base "/tmp/a/scalable/places/folder.svg" = "folder.svg".
Proof. reflexivity. Qed.

Example Base_ex2 : filepath.Base "folder.svg//" = "folder.svg".
Proof. reflexivity. Qed.

Example Base_ex3 : filepath.Base EmptyString = "." /\ filepath.Base "//" = "/".
Proof. split; reflexivity. Qed.

Example Dir_ex : filepath.Dir "/tmp/a/b.svg" = "/tmp/a" /\ filepath.Dir "b.svg" = ".".
Proof. split; reflexivity. Qed.

(** ** Errors, results and colours *)

(** A Go [error] is the text of its [Error()] method. *)
Definition error : Type := string.

(** The outcome of a call that returns [(v, error)]: it returns [v] with
    a nil error, returns a non-nil error, or panics. *)
Inductive result (T : Type) : Type :=
| Ok (v : T)
| Err (e : error)
| Panic (msg : string).
Arguments Ok {T} v.
Arguments Err {T} e.
Arguments Panic {T} msg.

Definition is_Ok {T} (r : result T) : bool :=
  match r with Ok _ => true | _ => false end.

(** [fmt.Errorf(msg + ": %w", err)] on the error of [r], when it has one. *)
Definition wrap {T} (msg : string) (r : result T) : result T :=
  match r with
  | Err e => Err (msg +:+ ": " +:+ e)
  | other => other
  end.

(** [image/color.RGBA], four [uint8] channels. *)
Module color.
Record RGBA := mkRGBA { R : Z; G : Z; B : Z; A : Z }.
Definition zero : RGBA := mkRGBA 0 0 0 0.
Definition withA (a : Z) (c : RGBA) : RGBA := mkRGBA (R c) (G c) (B c) a.
End color.

(** The fields of a [tar.Header] that the generator reads. *)
Record tarHeader := TarHeader { Typeflag : Z; Name : string }.

(** The body of an HTTP response: the bytes a reader obtains from it and
    the error that interrupts the reading, if any. *)
Record Response := mkResponse { Body : string; ReadErr : option error }.

(** One member of the archive: its header, the bytes [io.Copy] moves to
    the file, and the error of that copy, if any. *)
Record tarMember := TarMember {
  Header : tarHeader;
  Data : string;
  CopyErr : option error
}.

(** [tar.TypeReg] is the byte ['0']. *)
Definition tar_TypeReg : Z := 48.

(** The functions of the Go standard library that the generator calls
    and whose results the embedding does not compute: the three
    [fmt.Sscanf] calls of [stringToColor] (each receives the colour whose
    fields it may assign and returns it with the error), the conversion
    [uint8(a * 255)] of the scanned [float32], [go/format.Source],
    [strconv.Quote] behind the [%q] verb, and the [archive/tar] reader. *)
Record GoLib := {
  float32 : Type;
  float32_zero : float32;
  Sscanf_hex3 : string -> color.RGBA -> color.RGBA * option error;
  Sscanf_hex4 : string -> color.RGBA -> color.RGBA * option error;
  Sscanf_rgba : string -> color.RGBA -> float32 -> color.RGBA * float32 * option error;
  uint8_times255 : float32 -> Z;
  format_Source : string -> result string;
  strconv_Quote : string -> string;
  (** the members [tarReader.Next] yields, and the error that ends the
      stream ([None] for [io.EOF]) *)
  tar_members : Response -> list tarMember * option error
}.

Section StringToColor.
Context (lib : GoLib).

(** [stringToColor] (lines 721-736, and 174-188 of the older file). *)
Definition stringToColor (s : string) : result color.RGBA :=
  let c := color.withA 255 color.zero in
  let '(c, err) :=
    match String.length s with
    | 7%nat => Sscanf_hex3 lib s c
    | 9%nat => Sscanf_hex4 lib s c
    | _ =>
        let '(c, a, err) := Sscanf_rgba lib s c (float32_zero lib) in
        (color.withA (uint8_times255 lib a) c, err)
    end in
  match err with
  | None => Ok c
  | Some e => Err e
  end.
End StringToColor.

(** ** The constants and tables of the generator (lines 228-449) *)

Definition adwaitaColorPage : string :=
  "https://gnome.pages.gitlab.gnome.org/libadwaita/doc/1.0/named-colors.html".
Definition adwaitaIconsPage : string :=
  "https://gitlab.gnome.org/GNOME/adwaita-icon-theme/-/archive/master/adwaita-icon-theme-master.tar?path=Adwaita".
Definition colorSchemeOutput : string := "adwaita_colors.go".
Definition iconsOutput : string := "adwaita_icons.go".

(** Fyne colour name, Adwaita colour name. *)
Definition colorToGet : list (string * string) := [
  ("theme.ColorNameBackground", "window_bg_color");
  ("theme.ColorNameForeground", "window_fg_color");
  ("theme.ColorNameMenuBackground", "popover_bg_color");
  ("theme.ColorNameSelection", "headerbar_bg_color");
  ("theme.ColorNameOverlayBackground", "view_bg_color");
  ("theme.ColorNamePrimary", "accent_bg_color");
  ("theme.ColorNameInputBackground", "view_bg_color");
  ("theme.ColorNameButton", "headerbar_bg_color");
  ("theme.ColorNameShadow", "shade_color");
  ("theme.ColorNameSuccess", "success_bg_color");
  ("theme.ColorNameWarning", "warning_bg_color");
  ("theme.ColorNameError", "error_bg_color")
].

(** With two names in the value, the first is the light colour and the
    second the dark one. *)
Definition standardColorToGet : list (string * string) := [
  ("theme.ColorRed", "red_3,red_4");
  ("theme.ColorOrange", "orange_3");
  ("theme.ColorYellow", "yellow_3");
  ("theme.ColorGreen", "green_4,green_5");
  ("theme.ColorBlue", "blue_3");
  ("theme.ColorPurple", "purple_3");
  ("theme.ColorBrown", "brown_3");
  ("theme.ColorGray", "dark_2");
  ("theme.ColorNameScrollBar", "dark_5,light_1")
].

(** Fyne icon name, file of the Adwaita icon theme; an empty file name
    marks an icon that is not chosen yet. *)
Definition iconsToGet : list (string * string) := [
    ("IconNameCancel", "symbolic/ui/window-close-symbolic.svg");
    ("IconNameConfirm", "symbolic/actions/object-select-symbolic.svg");
    ("IconNameDelete", "symbolic/actions/edit-delete-symbolic.svg");
    ("IconNameSearch", "symbolic/actions/edit-find-symbolic.svg");
    ("IconNameSearchReplace", "symbolic/actions/edit-find-replace-symbolic.svg");
    ("IconNameMenu", "symbolic/actions/open-menu-symbolic.svg");
    ("IconNameMenuExpand", "symbolic/ui/pan-end-symbolic.svg");
    ("IconNameCheckButton", "symbolic/ui/checkbox-symbolic.svg");
    ("IconNameCheckButtonChecked", "symbolic/ui/checkbox-checked-symbolic.svg");
    ("IconNameRadioButton", "symbolic/ui/radio-symbolic.svg");
    ("IconNameRadioButtonChecked", "symbolic/ui/radio-checked-symbolic.svg");
    ("IconNameContentAdd", "symbolic/actions/list-add-symbolic.svg");
    ("IconNameContentClear", "symbolic/actions/edit-clear-symbolic.svg");
    ("IconNameContentRemove", "symbolic/actions/list-remove-symbolic.svg");
    ("IconNameContentCut", "symbolic/actions/edit-cut-symbolic.svg");
    ("IconNameContentCopy", "symbolic/actions/edit-copy-symbolic.svg");
    ("IconNameContentPaste", "symbolic/actions/edit-paste-symbolic.svg");
    ("IconNameContentRedo", "symbolic/actions/edit-redo-symbolic.svg");
    ("IconNameContentUndo", "symbolic/actions/edit-undo-symbolic.svg");
    ("IconNameColorAchromatic", EmptyString);
    ("IconNameColorChromatic", EmptyString);
    ("IconNameColorPalette", "symbolic/categories/applications-graphics-symbolic.svg");
    ("IconNameDocument", "symbolic/mimetypes/text-x-generic-symbolic.svg");
    ("IconNameDocumentCreate", "symbolic/actions/document-new-symbolic.svg");
    ("IconNameDocumentPrint", "symbolic/actions/document-print-symbolic.svg");
    ("IconNameDocumentSave", "symbolic/actions/document-save-symbolic.svg");
    ("IconNameMoreHorizontal", "symbolic/actions/view-more-horizontal-symbolic.svg");
    ("IconNameMoreVertical", "symbolic/actions/view-more-symbolic.svg");
    ("IconNameInfo", "symbolic/status/dialog-information-symbolic.svg");
    ("IconNameQuestion", "symbolic/status/dialog-question-symbolic.svg");
    ("IconNameWarning", "symbolic/status/dialog-warning-symbolic.svg");
    ("IconNameError", "symbolic/status/dialog-error-symbolic.svg");
    ("IconNameMailAttachment", "symbolic/status/mail-attachment-symbolic.svg");
    ("IconNameMailCompose", "symbolic/actions/mail-message-new-symbolic.svg");
    ("IconNameMailForward", "symbolic/actions/mail-forward-symbolic.svg");
    ("IconNameMailReply", "symbolic/actions/mail-reply-sender-symbolic.svg");
    ("IconNameMailReplyAll", "symbolic/actions/mail-reply-all-symbolic.svg");
    ("IconNameMailSend", "symbolic/actions/mail-send-symbolic.svg");
    ("IconNameMediaMusic", "symbolic/mimetypes/audio-x-generic-symbolic.svg");
    ("IconNameMediaPhoto", "symbolic/mimetypes/image-x-generic-symbolic.svg");
    ("IconNameMediaVideo", "symbolic/mimetypes/video-x-generic-symbolic.svg");
    ("IconNameMediaFastForward", "symbolic/actions/media-seek-forward-symbolic.svg");
    ("IconNameMediaFastRewind", "symbolic/actions/media-seek-backward-symbolic.svg");
    ("IconNameMediaPause", "symbolic/actions/media-playback-pause-symbolic.svg");
    ("IconNameMediaPlay", "symbolic/actions/media-playback-start-symbolic.svg");
    ("IconNameMediaRecord", "symbolic/actions/media-record-symbolic.svg");
    ("IconNameMediaReplay", "symbolic/actions/media-seek-backward-symbolic.svg");
    ("IconNameMediaSkipNext", "symbolic/actions/media-skip-forward-symbolic.svg");
    ("IconNameMediaSkipPrevious", "symbolic/actions/media-skip-backward-symbolic.svg");
    ("IconNameMediaStop", "symbolic/actions/media-playback-stop-symbolic.svg");
    ("IconNameNavigateBack", "symbolic/actions/go-previous-symbolic.svg");
    ("IconNameMoveDown", "symbolic/actions/go-down-symbolic.svg");
    ("IconNameNavigateNext", "symbolic/actions/go-next-symbolic.svg");
    ("IconNameMoveUp", "symbolic/actions/go-up-symbolic.svg");
    ("IconNameArrowDropDown", "symbolic/actions/go-down-symbolic.svg");
    ("IconNameArrowDropUp", "symbolic/actions/go-up-symbolic.svg");
    ("IconNameFile", "scalable/mimetypes/application-x-generic.svg");
    ("IconNameFileApplication", "scalable/mimetypes/application-x-executable.svg");
    ("IconNameFileAudio", "scalable/mimetypes/audio-x-generic.svg");
    ("IconNameFileImage", "scalable/mimetypes/image-x-generic.svg");
    ("IconNameFileText", "scalable/mimetypes/text-x-generic.svg");
    ("IconNameFileVideo", "scalable/mimetypes/video-x-generic.svg");
    ("IconNameFolder", "scalable/places/folder.svg");
    ("IconNameFolderNew", "symbolic/actions/folder-new-symbolic.svg");
    ("IconNameFolderOpen", "symbolic/status/folder-open-symbolic.svg");
    ("IconNameHelp", "symbolic/actions/help-about-symbolic.svg");
    ("IconNameHistory", EmptyString);
    ("IconNameHome", "symbolic/places/user-home-symbolic.svg");
    ("IconNameSettings", "symbolic/categories/applications-system-symbolic.svg");
    ("IconNameViewFullScreen", "symbolic/actions/view-fullscreen-symbolic.svg");
    ("IconNameViewRefresh", "symbolic/actions/view-refresh-symbolic.svg");
    ("IconNameViewRestore", "symbolic/actions/view-restore-symbolic.svg");
    ("IconNameViewZoomFit", "symbolic/actions/zoom-fit-best-symbolic.svg");
    ("IconNameViewZoomIn", "symbolic/actions/zoom-in-symbolic.svg");
    ("IconNameViewZoomOut", "symbolic/actions/zoom-out-symbolic.svg");
    ("IconNameVisibility", "symbolic/actions/view-reveal-symbolic.svg");
    ("IconNameVisibilityOff", "symbolic/actions/view-conceal-symbolic.svg");
    ("IconNameVolumeDown", "symbolic/status/audio-volume-low-symbolic.svg");
    ("IconNameVolumeMute", "symbolic/status/audio-volume-muted-symbolic.svg");
    ("IconNameVolumeUp", "symbolic/status/audio-volume-high-symbolic.svg");
    ("IconNameDownload", "symbolic/places/folder-download-symbolic.svg");
    ("IconNameComputer", "symbolic/devices/computer-symbolic.svg");
    ("IconNameStorage", "symbolic/devices/drive-harddisk-symbolic.svg");
    ("IconNameUpload", "symbolic/actions/send-to-symbolic.svg");
    ("IconNameAccount", "symbolic/status/avatar-default-symbolic.svg");
    ("IconNameLogin", EmptyString);
    ("IconNameLogout", "symbolic/actions/system-log-out-symbolic.svg");
    ("IconNameList", "symbolic/actions/view-list-symbolic.svg");
    ("IconNameGrid", "symbolic/actions/view-grid-symbolic.svg")
].

Definition forcePNG : list (string * bool) := [
  ("IconNameFileAudio", true);
  ("IconNameFileApplication", true)
].

(** Reading a map literal: [m[key]] with its presence flag. *)
Fixpoint mapIndex {V} (m : list (string * V)) (key : string) : option V :=
  match m with
  | [] => None
  | (k, v) :: rest => if String.eqb k key then Some v else mapIndex rest key
  end.

(** The keys of a Go map literal are pairwise different (the compiler
    rejects a duplicate), which is what lets a list stand for it. *)
Definition keys {V} (m : list (string * V)) : list string := map fst m.

Lemma colorToGet_keys_NoDup : NoDup (keys colorToGet).
Proof. apply (bool_decide_unpack _). vm_compute. exact I. Qed.

Lemma standardColorToGet_keys_NoDup : NoDup (keys standardColorToGet).
Proof. apply (bool_decide_unpack _). vm_compute. exact I. Qed.

Lemma color_tables_keys_NoDup : NoDup (keys colorToGet ++ keys standardColorToGet).
Proof. apply (bool_decide_unpack _). vm_compute. exact I. Qed.

Lemma iconsToGet_keys_NoDup : NoDup (keys iconsToGet).
Proof. apply (bool_decide_unpack _). vm_compute. exact I. Qed.

(** ** The environment and the state of a run *)

(** What the run does to the outside world, in the order it happens. *)
Inductive event : Type :=
| HttpGet (url : string)                 (* http.Get *)
| LogPrintln (msg : string)              (* log.Println *)
| LogFatal (msg : string)                (* log.Fatal: the message, then exit status 1 *)
| MkdirTemp (dir : string)               (* os.MkdirTemp *)
| CreateFile (name : string)             (* os.Create *)
| WriteFile (name data : string)         (* os.WriteFile, and Write on a created file *)
| RemoveAll (dir : string)               (* os.RemoveAll *)
| ExecRun (argv : list string)           (* exec.Command(...).Run *)
| LoadResource (path : string).          (* fyne.LoadResourceFromPath *)

(** The answers of the outside world.  The file system itself is part of
    the state; [os_MkdirAll], [os_Create] and [os_WriteFile] say which of
    these calls the system refuses. *)
Record Env := {
  http_Get : string -> result Response;
  os_MkdirTemp : result string;
  os_MkdirAll : string -> option error;
  os_Create : string -> option error;
  os_WriteFile : string -> option error;
  (** what a failing write of [data] to [name] leaves in the file:
      [None] when the file could not be opened, so that it is as it was,
      and the bytes that reached the file when the error came after the
      file was opened and truncated *)
  os_WriteFile_partial : string -> string -> option string;
  (** [exec.LookPath("inkscape")], the empty string when it is not found *)
  inkscape : string;
  (** what the converter makes of the content of an SVG file, [None]
      when it fails *)
  inkscape_export : string -> option string;
  (** the errors of [Parse] and [Execute] on the template of that name *)
  template_Parse : string -> option error;
  template_Execute : string -> option error
}.

Record State := mkState {
  fs : gmap string string;     (* path of a regular file, content *)
  trace : list event
}.

Definition emitted (ev : event) (st : State) : State :=
  mkState (fs st) (trace st ++ [ev]).

Definition stored (name data : string) (st : State) : State :=
  mkState (<[name := data]> (fs st)) (trace st).

(** A computation reads and changes the state and ends in a [result];
    what it did before an error or a panic stays done. *)
Definition M (T : Type) : Type := State -> result T * State.

Definition ret {T} (v : T) : M T := fun st => (Ok v, st).

Definition bind {T U} (m : M T) (k : T -> M U) : M U :=
  fun st =>
    match m st with
    | (Ok v, st') => k v st'
    | (Err e, st') => (Err e, st')
    | (Panic msg, st') => (Panic msg, st')
    end.

Definition lift {T} (r : result T) : M T := fun st => (r, st).

Definition emit (ev : event) : M unit := fun st => (Ok tt, emitted ev st).

Definition wrapM {T} (msg : string) (m : M T) : M T :=
  fun st => let '(r, st') := m st in (wrap msg r, st').

(** [if err != nil { return err }] for a call that only returns an error. *)
Definition check (err : option error) : result unit :=
  match err with None => Ok tt | Some e => Err e end.

Declare Scope go_scope.
Delimit Scope go_scope with go.
Notation "x <- m ;; k" := (bind m (fun x => k))
  (at level 100, m at next level, right associativity) : go_scope.
Notation "m ;;; k" := (bind m (fun _ => k))
  (at level 100, right associativity) : go_scope.

(** [range] over a list in the given order, with early exit on an error
    or a panic of the body. *)
Fixpoint rangeR {T S} (body : S -> T -> result S) (order : list T) (s : S) : result S :=
  match order with
  | [] => Ok s
  | x :: rest =>
      match body s x with
      | Ok s' => rangeR body rest s'
      | Err e => Err e
      | Panic msg => Panic msg
      end
  end.

(** ** Colour extraction (lines 475-576) *)

Record colorInfo := mkColorInfo {
  Col : color.RGBA;      (* the colour *)
  AdwName : string       (* Adwaita colour name, without the "@" *)
}.

(** The light and the dark scheme. *)
Definition schemes : Type := gmap string colorInfo * gmap string colorInfo.

(** The test both lookups apply to a row: it names the colour, with the
    "@" as it is or HTML-encoded. *)
Definition rowMentions (row : submatch) (name : string) : bool :=
  strings.Contains (m0 row) ("&#64;" +:+ name) || strings.Contains (m0 row) ("@" +:+ name).

Definition colorCells (row : submatch) : list submatch :=
  regexp.tableColorCellMatcher_FindAllStringSubmatch (m0 row).

(** [c[i][1]]: indexing a slice out of its range panics. *)
Definition cellAt (c : list submatch) (i : nat) : result string :=
  match c !! i with
  | Some cell => Ok (m1 cell)
  | None => Panic "runtime error: index out of range"
  end.

Section Colors.
Context (lib : GoLib).

(** The closure [getWidgetColorFor] (lines 494-510). *)
Fixpoint getWidgetColorFor (rows : list submatch) (name variant : string)
  : result color.RGBA :=
  match rows with
  | [] => Ok color.zero
  | row :: rest =>
      if rowMentions row name then
        let c := colorCells row in
        if String.eqb variant "light" then
          match cellAt c 0 with
          | Ok s => stringToColor lib s
          | Err e => Err e
          | Panic msg => Panic msg
          end
        else if String.eqb variant "dark" then
          match cellAt c 1 with
          | Ok s => stringToColor lib s
          | Err e => Err e
          | Panic msg => Panic msg
          end
        else Ok color.zero
      else getWidgetColorFor rest name variant
  end.

(** The closure [getStandardColorFor] (lines 512-523). *)
Fixpoint getStandardColorFor (rows : list submatch) (name : string)
  : result color.RGBA :=
  match rows with
  | [] => Ok color.zero
  | row :: rest =>
      if rowMentions row name then
        match cellAt (colorCells row) 0 with
        | Ok s => stringToColor lib s
        | Err e => Err e
        | Panic msg => Panic msg
        end
      else getStandardColorFor rest name
  end.

(** The body of the first loop (lines 525-542). *)
Definition widgetBody (rows : list submatch) (acc : schemes)
  (entry : string * string) : result schemes :=
  let '(lightScheme, darkScheme) := acc in
  let '(colname, color) := entry in
  match wrap ("failed to get light color for " +:+ color)
             (getWidgetColorFor rows color "light") with
  | Ok lcol =>
      match wrap ("failed to get dark color for " +:+ color)
                 (getWidgetColorFor rows color "dark") with
      | Ok dcol =>
          Ok (<[colname := mkColorInfo lcol color]> lightScheme,
              <[colname := mkColorInfo dcol color]> darkScheme)
      | Err e => Err e
      | Panic msg => Panic msg
      end
  | Err e => Err e
  | Panic msg => Panic msg
  end.

(** The names looked up for a standard colour (lines 545-551). *)
Definition standardNames (color : string) : string * string :=
  match strings.Split color "," with
  | [first; second] => (first, second)
  | _ => (color, color)
  end.

(** The body of the second loop (lines 544-576). *)
Definition standardBody (rows : list submatch) (acc : schemes)
  (entry : string * string) : result schemes :=
  let '(lightScheme, darkScheme) := acc in
  let '(colname, color) := entry in
  let '(lightColorName, darkColorName) := standardNames color in
  match wrap ("failed to get light color for " +:+ lightColorName)
             (getStandardColorFor rows lightColorName) with
  | Ok lcol =>
      match wrap ("failed to get dark color for " +:+ darkColorName)
                 (getStandardColorFor rows darkColorName) with
      | Ok dcol =>
          let '(lcol, dcol) :=
            if String.eqb colname "theme.ColorNameScrollBar"
            then (color.withA 91 lcol, color.withA 91 dcol)
            else (lcol, dcol) in
          Ok (<[colname := mkColorInfo lcol lightColorName]> lightScheme,
              <[colname := mkColorInfo dcol darkColorName]> darkScheme)
      | Err e => Err e
      | Panic msg => Panic msg
      end
  | Err e => Err e
  | Panic msg => Panic msg
  end.

(** Both loops; [widgetOrder] and [standardOrder] are the orders in
    which the two [range] statements visit their maps. *)
Definition collectSchemes (rows : list submatch)
  (widgetOrder standardOrder : list (string * string)) : result schemes :=
  match rangeR (widgetBody rows) widgetOrder (∅, ∅) with
  | Ok acc => rangeR (standardBody rows) standardOrder acc
  | Err e => Err e
  | Panic msg => Panic msg
  end.
End Colors.

(** ** The templates and their execution

    [text/template] visits a map in the sorted order of its keys; a Go
    string is ordered byte by byte. *)

Definition keyLe {V} (a b : string * V) : Prop := String.le a.1 b.1.

#[local] Instance keyLe_dec {V} : RelDecision (@keyLe V).
Proof. intros a b. unfold keyLe. apply _. Defined.

(** [{{range $key, $value := m}}]: the entries of [m], keys ascending. *)
Definition templateRange {V} (m : gmap string V) : list (string * V) :=
  merge_sort keyLe (map_to_list m).

(** [%02x] and [%02X] of a [uint8]. *)
Definition hexDigit (upper : bool) (d : Z) : ascii :=
  if d <? 10 then ascii_of_nat (48 + Z.to_nat d)
  else ascii_of_nat ((if upper then 55 else 87) + Z.to_nat d).

Definition hex02 (upper : bool) (v : Z) : string :=
  String (hexDigit upper (v / 16)) (String (hexDigit upper (v mod 16)) EmptyString).

Example hex02_ex : hex02 false 250 = "fa" /\ hex02 true 250 = "FA" /\ hex02 false 7 = "07".
Proof. repeat split; reflexivity. Qed.

Definition quoted (s : string) : string := dq +:+ s +:+ dq.

(** [colorSourceTpl] (lines 235-260).  The text up to the first
    [range]; [{{-] removes the line break before it. *)
Definition colorSourceHead : string := unlines [
  "package theme";
  EmptyString;
  "// This file is generated by adwaita_theme_generator.go";
  "// Please do not edit manually, use:";
  "// go generate ./theme/...";
  "//";
  "// The colors are taken from: https://gnome.pages.gitlab.gnome.org/libadwaita/doc/1.0/named-colors.html";
  EmptyString;
  "import (";
  tab +:+ quoted "image/color";
  EmptyString;
  tab +:+ quoted "fyne.io/fyne/v2";
  tab +:+ quoted "fyne.io/fyne/v2/theme";
  ")";
  EmptyString;
  "var adwaitaDarkScheme = map[fyne.ThemeColorName]color.Color{"
].

(** The [printf] of one entry; the light scheme prints the green channel
    with [%02X]. *)
Definition printfNRGBA (upperG : bool) (c : color.RGBA) : string :=
  "color.NRGBA{R: 0x" +:+ hex02 false (color.R c) +:+
  ", G: 0x" +:+ hex02 upperG (color.G c) +:+
  ", B: 0x" +:+ hex02 false (color.B c) +:+
  ", A: 0x" +:+ hex02 false (color.A c) +:+ "}".

Definition colorLine (upperG : bool) (entry : string * colorInfo) : string :=
  nl +:+ "    " +:+ entry.1 +:+ ": " +:+ printfNRGBA upperG (Col entry.2) +:+
  ", // Adwaita color name @" +:+ AdwName entry.2.

Definition colorLines (upperG : bool) (m : gmap string colorInfo) : string :=
  String.concat EmptyString (map (colorLine upperG) (templateRange m)).

(** Executing [colorSourceTpl] on the two schemes. *)
Definition renderColors (data : schemes) : string :=
  let '(lightScheme, darkScheme) := data in
  colorSourceHead +:+ colorLines false darkScheme +:+
  nl +:+ "}" +:+ nl +:+ nl +:+
  "var adwaitaLightScheme = map[fyne.ThemeColorName]color.Color{" +:+
  colorLines true lightScheme +:+ nl +:+ "}".

Record iconInfo := mkIconInfo {
  StaticName : string;    (* the theme name of the icon for Fyne *)
  Content : string        (* the content of the icon *)
}.

(** [iconSourceTpl] (lines 262-293). *)
Definition iconSourceHead : string := unlines [
  "package theme";
  EmptyString;
  "// This file is generated by adwaita_theme_generator.go";
  "// Please do not edit manually, use:";
  "// go generate ./theme/...";
  "//";
  "// This icons come from " +:+ quoted "GNOME Project";
  "// Repository: https://gitlab.gnome.org/GNOME/adwaita-icon-theme";
  "// Licence: CC-BY-SA 3.0";
  "// See: https://gitlab.gnome.org/GNOME/adwaita-icon-theme/-/blob/master/COPYING_CCBYSA3";
  EmptyString;
  "import (";
  "    " +:+ quoted "fyne.io/fyne/v2";
  "    " +:+ quoted "fyne.io/fyne/v2/theme";
  ")";
  EmptyString;
  "var adwaitaIcons = map[fyne.ThemeIconName]fyne.Resource{";
  EmptyString
].

Section IconTemplate.
Context (lib : GoLib).

Definition iconFields (icon : iconInfo) : string :=
  "        StaticName: " +:+ quoted (StaticName icon) +:+ "," +:+ nl +:+
  "        StaticContent: []byte(" +:+ strconv_Quote lib (Content icon) +:+ ")," +:+ nl.

(** The body of the [range]: a line break, one of the two branches of
    the [if], a line break. *)
Definition iconBlock (entry : string * iconInfo) : string :=
  let '(name, icon) := entry in
  nl +:+
  (if strings.Contains (StaticName icon) "symbolic"
   then nl +:+ "    theme." +:+ name +:+ ": theme.NewThemedResource(&fyne.StaticResource{" +:+ nl +:+
        iconFields icon +:+ "    })," +:+ nl
   else nl +:+ "    theme." +:+ name +:+ ": &fyne.StaticResource{" +:+ nl +:+
        iconFields icon +:+ "    }," +:+ nl) +:+
  nl.

Definition renderIcons (icons : gmap string iconInfo) : string :=
  iconSourceHead +:+ String.concat EmptyString (map iconBlock (templateRange icons)) +:+
  nl +:+ "}" +:+ nl.
End IconTemplate.

(** ** The generator (lines 460-719) *)

Local Open Scope go_scope.

(** A [fyne.Resource]: what its methods [Name] and [Content] return. *)
Record Resource := mkResource { ResName : string; ResContent : string }.

(** How the program ends. *)
Inductive ending : Type :=
| Returned                    (* main returns: exit status 0 *)
| Exited (status : Z)         (* os.Exit, here through log.Fatal *)
| Panicked (msg : string).    (* an unrecovered panic *)

Section Generator.
Context (lib : GoLib) (env : Env).

Definition http_get (url : string) : M Response :=
  emit (HttpGet url) ;;; lift (http_Get env url).

(** [io.ReadAll] on the body of a response. *)
Definition io_ReadAll (resp : Response) : result string :=
  match ReadErr resp with
  | None => Ok (Body resp)
  | Some e => Err e
  end.

(** [defer cleanup]: [cleanup] runs when the function ends, whatever
    its outcome; the deferred calls of a function run in the reverse
    order of their [defer] statements. *)
Definition deferred {T} (cleanup : State -> State) (body : M T) : M T :=
  fun st => let '(r, st') := body st in (r, cleanup st').

(** [resp.Body.Close()]: it touches no file and is not one of the
    recorded events. *)
Definition Body_Close (resp : Response) (st : State) : State := st.

(** What a failed write leaves behind. *)
Definition failedWrite (name data : string) (st : State) : State :=
  match os_WriteFile_partial env name data with
  | Some written => stored name written st
  | None => st
  end.

(** [os.WriteFile] opens the file with [O_TRUNC] and writes [data]: the
    file holds [data] afterwards, unless the call fails; a call that
    fails after the opening leaves the file truncated. *)
Definition os_writeFile (name data : string) : M unit :=
  emit (WriteFile name data) ;;;
  match os_WriteFile env name with
  | Some e => fun st => (Err e, failedWrite name data st)
  | None => fun st => (Ok tt, stored name data st)
  end.

Definition executeColors (data : schemes) : result string :=
  match template_Execute env "AdwaitaColorScheme" with
  | Some e => Err e
  | None => Ok (renderColors data)
  end.

(** [generateColorScheme] (lines 475-602). *)
Definition generateColorScheme (widgetOrder standardOrder : list (string * string))
  : M unit :=
  reps <- wrapM "failed to get page" (http_get adwaitaColorPage) ;;
  deferred (Body_Close reps)
    (htpage <- lift (wrap "failed to read body" (io_ReadAll reps)) ;;
     let rows := regexp.tableRowMatcher_FindAllStringSubmatch htpage in
     data <- lift (collectSchemes lib rows widgetOrder standardOrder) ;;
     lift (wrap "failed to parse template"
             (check (template_Parse env "AdwaitaColorScheme"))) ;;;
     buffer <- lift (wrap "failed to execute template" (executeColors data)) ;;
     formatted <- lift (wrap "failed to format source" (format_Source lib buffer)) ;;
     os_writeFile colorSchemeOutput formatted).

(** [os.MkdirTemp] in the default directory, with the pattern [adwaita] *)
Definition os_mkdirTemp : M string :=
  tmpDir <- lift (os_MkdirTemp env) ;;
  emit (MkdirTemp tmpDir) ;;; ret tmpDir.

(** The path is the directory or lies below it; file names are compared
    as [filepath.Join] produces them, so the directory is cleaned
    first. *)
Definition under (dir path : string) : bool :=
  String.eqb path (filepath.Clean dir) ||
  strings.HasPrefix path (filepath.Clean dir +:+ "/").

(** [os.RemoveAll]: the directory and everything below it are gone. *)
Definition os_removeAll (dir : string) (st : State) : State :=
  emitted (RemoveAll dir)
    (mkState (filter (fun kv => under dir kv.1 = false) (fs st)) (trace st)).

(** [os.Create]: the file exists and is empty afterwards. *)
Definition os_create (name : string) : M unit :=
  emit (CreateFile name) ;;;
  match os_Create env name with
  | Some e => lift (Err e)
  | None => fun st => (Ok tt, stored name EmptyString st)
  end.

(** [io.Copy(file, tarReader)] for the current member. *)
Definition io_copy (target : string) (member : tarMember) : M unit :=
  fun st => (check (CopyErr member), stored target (Data member) st).

(** The extraction loop (lines 625-648); [ending] is the error that
    [tarReader.Next] returns after the last member, [None] for
    [io.EOF]. *)
Fixpoint extract (tmpDir : string) (members : list tarMember)
  (ending : option error) : M unit :=
  match members with
  | [] => lift (check ending)
  | member :: rest =>
      (if Typeflag (Header member) =? tar_TypeReg then
         let target := filepath.Join [tmpDir; Name (Header member)] in
         lift (check (os_MkdirAll env (filepath.Dir target))) ;;;
         os_create target ;;;
         io_copy target member
       else ret tt) ;;;
      extract tmpDir rest ending
  end.

(** The run of the converter: it writes the PNG next to the SVG it was
    given, under the same name with the extension replaced. *)
Definition inkscape_run (filename : string) : M unit :=
  emit (ExecRun [inkscape env; "--export-type=png"; "--export-area-drawing";
                 "--vacuum-defs"; filename]) ;;;
  fun st =>
    match fs st !! filename with
    | None => (Err "exit status 1", st)
    | Some svg =>
        match inkscape_export env svg with
        | Some png =>
            (Ok tt, stored (strings.TrimSuffix filename ".svg" +:+ ".png") png st)
        | None => (Err "exit status 1", st)
        end
    end.

(** [svgToPng] (lines 706-719). *)
Definition svgToPng (filename : string) : M unit :=
  if String.eqb (inkscape env) EmptyString then lift (Err "inkscape not found")
  else
    emit (LogPrintln ("Converting " +:+ filename +:+ " to PNG")) ;;;
    inkscape_run filename.

(** A call whose returned error is dropped. *)
Definition discard (m : M unit) : M unit :=
  fun st =>
    match m st with
    | (Err _, st') => (Ok tt, st')
    | other => other
    end.

(** [fyne.LoadResourceFromPath]: the file read into a resource named
    after its base name. *)
Definition fyne_LoadResourceFromPath (path : string) : M Resource :=
  emit (LoadResource path) ;;;
  fun st =>
    match fs st !! path with
    | Some content => (Ok (mkResource (filepath.Base path) content), st)
    | None => (Err ("open " +:+ path +:+ ": no such file or directory"), st)
    end.

(** The path that is bundled for an icon (lines 657-661): the PNG the
    converter is asked for when the icon is in [forcePNG]. *)
Definition iconPathOf (tmpDir iconfile : string) : string :=
  filepath.Join [tmpDir; "adwaita-icon-theme-master-Adwaita"; "Adwaita"; iconfile].

(** The body of the icon loop (lines 652-675). *)
Definition iconBody (tmpDir : string) (icons : gmap string iconInfo)
  (entry : string * string) : M (gmap string iconInfo) :=
  let '(name, iconfile) := entry in
  if String.eqb iconfile EmptyString then ret icons
  else
    let iconPath := iconPathOf tmpDir iconfile in
    iconPath <- match mapIndex forcePNG name with
                | Some _ =>
                    discard (svgToPng iconPath) ;;;
                    ret (strings.TrimSuffix iconPath ".svg" +:+ ".png")
                | None => ret iconPath
                end ;;
    fun st =>
      match fyne_LoadResourceFromPath iconPath st with
      | (Ok res, st') =>
          let filecontent := ResContent res in
          (Ok (<[name := mkIconInfo (filepath.Base iconPath) filecontent]> icons), st')
      | (Err err, st') =>
          (Ok icons,
           emitted (LogPrintln ("Error bundeling " +:+ name +:+ " from " +:+ iconPath
                                +:+ " : " +:+ err)) st')
      | (Panic msg, st') => (Panic msg, st')
      end.

(** [range] with a body that acts on the state. *)
Fixpoint rangeM {T S} (body : S -> T -> M S) (order : list T) (s : S) : M S :=
  match order with
  | [] => ret s
  | x :: rest => s' <- body s x ;; rangeM body rest s'
  end.

Definition collectIcons (tmpDir : string) (iconOrder : list (string * string))
  : M (gmap string iconInfo) :=
  rangeM (iconBody tmpDir) iconOrder ∅.

Definition executeIcons (icons : gmap string iconInfo) : result string :=
  match template_Execute env "AdwaitaIcons" with
  | Some e => Err e
  | None => Ok (renderIcons lib icons)
  end.

(** [generateIcons] (lines 607-701).  The closing of the response body
    is deferred first (line 614) and the removal of the temporary
    directory after it (line 622), so the removal runs first. *)
Definition generateIcons (iconOrder : list (string * string)) : M unit :=
  resp <- http_get adwaitaIconsPage ;;
  deferred (Body_Close resp)
    (let '(members, ending) := tar_members lib resp in
     tmpDir <- os_mkdirTemp ;;
     deferred (os_removeAll tmpDir)
       (extract tmpDir members ending ;;;
        icons <- collectIcons tmpDir iconOrder ;;
        lift (wrap "Error parsing template" (check (template_Parse env "AdwaitaIcons"))) ;;;
        buffer <- lift (wrap "Error executing template" (executeIcons icons)) ;;
        formatted <- lift (wrap "error formatting source" (format_Source lib buffer)) ;;
        os_writeFile iconsOutput formatted)).

(** The three iteration orders of one run. *)
Record Orders := mkOrders {
  widgetOrder : list (string * string);
  standardOrder : list (string * string);
  iconOrder : list (string * string)
}.

(** [log.Fatal(err)] *)
Definition log_Fatal (err : error) (st : State) : ending * State :=
  (Exited 1, emitted (LogFatal err) st).

(** [main] (lines 460-470). *)
Definition main (o : Orders) (st : State) : ending * State :=
  match generateColorScheme (widgetOrder o) (standardOrder o) st with
  | (Err err, st1) => log_Fatal err st1
  | (Panic msg, st1) => (Panicked msg, st1)
  | (Ok _, st1) =>
      match generateIcons (iconOrder o) st1 with
      | (Err err, st2) => log_Fatal err st2
      | (Panic msg, st2) => (Panicked msg, st2)
      | (Ok _, st2) => (Returned, st2)
      end
  end.
End Generator.

(** The orders a run can take: [range] visits every entry of the map
    once. *)
Definition validOrders (o : Orders) : Prop :=
  Permutation (widgetOrder o) colorToGet /\
  Permutation (standardOrder o) standardColorToGet /\
  Permutation (iconOrder o) iconsToGet.

Definition sourceOrders : Orders := mkOrders colorToGet standardColorToGet iconsToGet.

(** ** The older generator (theme/adwaita_colors_generator.go, lines 1-188)

    It generates the colours only; every error goes to [log.Fatal] where
    it arises.  In the embedding the body of [main] ends in [Err] at such
    a place and [main] logs the error and exits. *)

Module Legacy.

Definition output : string := "adwaita_colors.go".

Definition colorToGet : list (string * string) := [
  ("theme.ColorNameBackground", "window_bg_color");
  ("theme.ColorNameForeground", "window_fg_color");
  ("theme.ColorNameOverlayBackground", "popover_bg_color");
  ("theme.ColorNamePrimary", "accent_bg_color");
  ("theme.ColorNameInputBackground", "view_bg_color");
  ("theme.ColorNameButton", "headerbar_bg_color");
  ("theme.ColorNameShadow", "shade_color");
  ("theme.ColorNameSuccess", "success_color");
  ("theme.ColorNameWarning", "warning_color");
  ("theme.ColorNameError", "destructive_color")
].

Record colorInfo := mkColorInfo {
  Col : string;        (* go formated color *)
  AdwName : string     (* Adwaita color name, without the "@" *)
}.

Definition schemes : Type := gmap string colorInfo * gmap string colorInfo.

Definition sourceHead : string := unlines [
  "package theme";
  EmptyString;
  "// This file is generated by adwaita_colors_generator.go";
  "// Please do not edit manually, use:";
  "// go generate ./theme/...";
  "//";
  "// The colors are taken from: https://gnome.pages.gitlab.gnome.org/libadwaita/doc/1.0/named-colors.html";
  EmptyString;
  "import (";
  tab +:+ quoted "image/color";
  EmptyString;
  tab +:+ quoted "fyne.io/fyne/v2";
  tab +:+ quoted "fyne.io/fyne/v2/theme";
  ")";
  EmptyString;
  "var adwaitaDarkScheme = map[fyne.ThemeColorName]color.Color{"
].

Definition colorLine (entry : string * colorInfo) : string :=
  nl +:+ "    " +:+ entry.1 +:+ ": " +:+ Col entry.2 +:+
  ", // Adwaita color name @" +:+ AdwName entry.2.

Definition colorLines (m : gmap string colorInfo) : string :=
  String.concat EmptyString (map colorLine (templateRange m)).

(** Executing [sourceTpl] (lines 29-54). *)
Definition render (data : schemes) : string :=
  let '(lightScheme, darkScheme) := data in
  sourceHead +:+ colorLines darkScheme +:+
  nl +:+ "}" +:+ nl +:+ nl +:+
  "var adwaitaLightScheme = map[fyne.ThemeColorName]color.Color{" +:+
  colorLines lightScheme +:+ nl +:+ "}".

(** [fmt.Sprintf("color.RGBA{0x%02x, 0x%02x, 0x%02x, 0x%02x}", ...)] *)
Definition sprintfRGBA (c : color.RGBA) : string :=
  "color.RGBA{0x" +:+ hex02 false (color.R c) +:+
  ", 0x" +:+ hex02 false (color.G c) +:+
  ", 0x" +:+ hex02 false (color.B c) +:+
  ", 0x" +:+ hex02 false (color.A c) +:+ "}".

Section Main.
Context (lib : GoLib) (env : Env).

(** The closure [getColorFor] (lines 104-120). *)
Fixpoint getColorFor (rows : list submatch) (name variant : string)
  : result color.RGBA :=
  match rows with
  | [] => Ok color.zero
  | row :: rest =>
      if rowMentions row name then
        let c := colorCells row in
        if String.eqb variant "light" then
          match cellAt c 0 with
          | Ok s => stringToColor lib s
          | Err e => Err e
          | Panic msg => Panic msg
          end
        else if String.eqb variant "dark" then
          match cellAt c 1 with
          | Ok s => stringToColor lib s
          | Err e => Err e
          | Panic msg => Panic msg
          end
        else Ok color.zero
      else getColorFor rest name variant
  end.

(** The body of the loop (lines 122-139). *)
Definition colorBody (rows : list submatch) (acc : schemes)
  (entry : string * string) : result schemes :=
  let '(lightScheme, darkScheme) := acc in
  let '(colname, color) := entry in
  match getColorFor rows color "light" with
  | Ok lcol =>
      match getColorFor rows color "dark" with
      | Ok dcol =>
          Ok (<[colname := mkColorInfo (sprintfRGBA lcol) color]> lightScheme,
              <[colname := mkColorInfo (sprintfRGBA dcol) color]> darkScheme)
      | Err e => Err e
      | Panic msg => Panic msg
      end
  | Err e => Err e
  | Panic msg => Panic msg
  end.

Definition execute (data : schemes) : result string :=
  match template_Execute env "source" with
  | Some e => Err e
  | None => Ok (render data)
  end.

(** [out.Write(formatted)] on the file that [os.Create] has opened and
    truncated; its error is not looked at. *)
Definition file_Write (name data : string) : M unit :=
  emit (WriteFile name data) ;;;
  fun st =>
    (Ok tt,
     match os_WriteFile env name with
     | None => stored name data st
     | Some _ => failedWrite env name data st
     end).

(** The statements of [main] up to the creation of the output file
    (lines 85-146): the fetch, the lookups, then [os.Create(output)]. *)
Definition untilCreate (order : list (string * string)) : M schemes :=
  reps <- http_get env adwaitaColorPage ;;
  htpage <- lift (io_ReadAll reps) ;;
  let rows := regexp.tableRowMatcher_FindAllStringSubmatch htpage in
  data <- lift (rangeR (colorBody rows) order (∅, ∅)) ;;
  os_create env output ;;;
  ret data.

(** The statements of [main] behind the creation of the output file
    (lines 147-171): the template is parsed and executed, the source
    formatted and written. *)
Definition renderAndWrite (data : schemes) : M unit :=
  lift (check (template_Parse env "source")) ;;;
  buffer <- lift (execute data) ;;
  formatted <- lift (format_Source lib buffer) ;;
  file_Write output formatted.

(** The statements of [main] (lines 85-172). *)
Definition mainBody (order : list (string * string)) : M unit :=
  data <- untilCreate order ;;
  renderAndWrite data.

(** [log.Fatal] ends the program at once; the deferred closing of the
    response body and of the output file runs on a normal return only,
    and neither touches the content of a file. *)
Definition main (order : list (string * string)) (st : State) : ending * State :=
  match mainBody order st with
  | (Err err, st') => log_Fatal err st'
  | (Panic msg, st') => (Panicked msg, st')
  | (Ok _, st') => (Returned, st')
  end.
End Main.

End Legacy.

(** ** A small world to run the generator in

    A library instance that scans the [#RRGGBB] and [#RRGGBBAA] forms, a
    page with three rows, and an archive with three files. *)

Module Sample.

Definition hexVal (c : ascii) : option Z :=
  let n := Z.of_nat (nat_of_ascii c) in
  if (48 <=? n) && (n <=? 57) then Some (n - 48)
  else if (97 <=? n) && (n <=? 102) then Some (n - 87)
  else if (65 <=? n) && (n <=? 70) then Some (n - 55)
  else None.

Fixpoint hexBytes (s : string) : option (list Z) :=
  match s with
  | EmptyString => Some []
  | String a (String b rest) =>
      match hexVal a, hexVal b, hexBytes rest with
      | Some x, Some y, Some l => Some (16 * x + y :: l)
      | _, _, _ => None
      end
  | String _ EmptyString => None
  end.

Definition scanHex (fields : nat) (s : string) (c : color.RGBA)
  : color.RGBA * option error :=
  match s with
  | String "#" rest =>
      match hexBytes rest, fields with
      | Some [r; g; b], 3%nat => (color.mkRGBA r g b (color.A c), None)
      | Some [r; g; b; a], 4%nat => (color.mkRGBA r g b a, None)
      | _, _ => (c, Some "expected integer")
      end
  | _ => (c, Some "input does not match format")
  end.

Definition members : list tarMember := [
  TarMember (TarHeader 53 "adwaita-icon-theme-master-Adwaita/Adwaita/scalable") EmptyString None;
  TarMember (TarHeader tar_TypeReg
               "adwaita-icon-theme-master-Adwaita/Adwaita/scalable/places/folder.svg")
            "<svg>folder</svg>" None;
  TarMember (TarHeader tar_TypeReg
               "adwaita-icon-theme-master-Adwaita/Adwaita/scalable/mimetypes/audio-x-generic.svg")
            "<svg>audio</svg>" None;
  TarMember (TarHeader tar_TypeReg
               "adwaita-icon-theme-master-Adwaita/Adwaita/symbolic/ui/window-close-symbolic.svg")
            "<svg>close</svg>" None
].

Definition lib : GoLib := {|
  float32 := Z;
  float32_zero := 0;
  Sscanf_hex3 := scanHex 3;
  Sscanf_hex4 := scanHex 4;
  Sscanf_rgba := fun _ c a => (c, a, Some "input does not match format");
  uint8_times255 := fun a => (a * 255) mod 256;
  format_Source := fun src => Ok src;
  strconv_Quote := quoted;
  tar_members := fun _ => (members, None)
|}.

Definition row (name light dark : string) : string :=
  "<tr><td><tt>&#64;" +:+ name +:+ "</tt></td><td><tt>" +:+ light +:+
  "</tt></td><td><tt>" +:+ dark +:+ "</tt></td></tr>".

Definition page : string :=
  "<table>" +:+ row "window_bg_color" "#fafafa" "#242424" +:+
  row "red_3" "#e01b24" "#e01b24" +:+
  row "red_4" "#c01c28" "#c01c28" +:+ "</table>".

Definition rows : list submatch := regexp.tableRowMatcher_FindAllStringSubmatch page.

(** A page whose row for [shade_color] has a single colour cell, and a
    page whose row for it has none. *)
Definition oneCellRows : list submatch :=
  regexp.tableRowMatcher_FindAllStringSubmatch
    "<tr><td><tt>&#64;shade_color</tt></td><td><tt>#000000</tt></td></tr>".

Definition noCellRows : list submatch :=
  regexp.tableRowMatcher_FindAllStringSubmatch
    "<tr><td><tt>@shade_color</tt></td><td>see above</td></tr>".

Definition env : Env := {|
  http_Get := fun url => Ok (mkResponse (if String.eqb url adwaitaColorPage then page else EmptyString) None);
  os_MkdirTemp := Ok "/tmp/adwaita1";
  os_MkdirAll := fun _ => None;
  os_Create := fun _ => None;
  os_WriteFile := fun _ => None;
  os_WriteFile_partial := fun _ _ => None;
  inkscape := "/usr/bin/inkscape";
  inkscape_export := fun svg => Some ("PNG of " +:+ svg);
  template_Parse := fun _ => None;
  template_Execute := fun _ => None
|}.

(** The colour page cannot be fetched. *)
Definition offlineEnv : Env := {|
  http_Get := fun _ => Err "dial tcp: connection refused";
  os_MkdirTemp := Ok "/tmp/adwaita1";
  os_MkdirAll := fun _ => None;
  os_Create := fun _ => None;
  os_WriteFile := fun _ => None;
  os_WriteFile_partial := fun _ _ => None;
  inkscape := "/usr/bin/inkscape";
  inkscape_export := fun svg => Some ("PNG of " +:+ svg);
  template_Parse := fun _ => None;
  template_Execute := fun _ => None
|}.

(** Nothing on disk yet, nothing done yet. *)
Definition start : State := mkState ∅ [].

(** The output of an earlier run is on disk. *)
Definition rerun : State := mkState {[ Legacy.output := "package theme" ]} [].

End Sample.

Example stringToColor_ex :
  stringToColor Sample.lib "#fafafa" = Ok (color.mkRGBA 250 250 250 255) /\
  stringToColor Sample.lib "#00000080" = Ok (color.mkRGBA 0 0 0 128) /\
  stringToColor Sample.lib "#zzzzzz" = Err "expected integer".
Proof. repeat split; reflexivity. Qed.

Example getWidgetColorFor_ex :
  getWidgetColorFor Sample.lib Sample.rows "window_bg_color" "light" = Ok (color.mkRGBA 250 250 250 255) /\
  getWidgetColorFor Sample.lib Sample.rows "window_bg_color" "dark" = Ok (color.mkRGBA 36 36 36 255) /\
  getWidgetColorFor Sample.lib Sample.rows "shade_color" "dark" = Ok color.zero.
Proof. repeat split; vm_compute; reflexivity. Qed.

(** * Properties *)

(** ** The two matchers have fuel to spare *)

Lemma CutPrefix_length s prefix rest :
  strings.CutPrefix s prefix = Some rest ->
  String.length s = (String.length prefix + String.length rest)%nat.
Proof.
  revert s. induction prefix as [|a p IH]; intros s; cbn [strings.CutPrefix].
  - intros [= ->]. reflexivity.
  - destruct s as [|b s]; [discriminate|].
    destruct (Ascii.eqb a b); [|discriminate].
    intros H. apply IH in H. cbn [String.length]. lia.
Qed.

Lemma Cut_length s sep before after :
  strings.Cut s sep = Some (before, after) ->
  String.length s = (String.length before + String.length sep + String.length after)%nat.
Proof.
  revert before. induction s as [|c s IH]; intros before; cbn [strings.Cut].
  - destruct (strings.CutPrefix EmptyString sep) as [rest|] eqn:Hpre; [|discriminate].
    intros [= <- <-]. apply CutPrefix_length in Hpre. cbn [String.length] in *. lia.
  - destruct (strings.CutPrefix (String c s) sep) as [rest|] eqn:Hpre.
    + intros [= <- <-]. apply CutPrefix_length in Hpre. cbn [String.length] in *. lia.
    + destruct (strings.Cut s sep) as [[b a]|]; [|discriminate].
      intros [= <- <-]. specialize (IH b eq_refl). cbn [String.length]. lia.
Qed.

Lemma tableRowMatches_fuel n m s :
  (String.length s <= n)%nat -> (String.length s <= m)%nat ->
  regexp.tableRowMatches n s = regexp.tableRowMatches m s.
Proof.
  revert m s. induction n as [|n IH]; intros m s Hn Hm.
  - destruct s; [|cbn [String.length] in Hn; lia]. destruct m; reflexivity.
  - destruct m as [|m].
    { destruct s; [|cbn [String.length] in Hm; lia]. reflexivity. }
    cbn [regexp.tableRowMatches].
    destruct (strings.Cut s "<tr>") as [[before inner]|] eqn:Hopen; [|reflexivity].
    destruct (strings.Cut inner "</tr>") as [[group rest]|] eqn:Hclose; [|reflexivity].
    apply Cut_length in Hopen, Hclose. cbn [String.length] in Hopen, Hclose.
    f_equal. apply IH; lia.
Qed.

Lemma cellOpen_length s alt rest :
  regexp.cellOpen s = Some (alt, rest) -> (String.length rest < String.length s)%nat.
Proof.
  induction s as [|c s IH]; cbn [regexp.cellOpen].
  - destruct (strings.CutPrefix EmptyString "<tt>rgba") eqn:H1; [discriminate H1|].
    destruct (strings.CutPrefix EmptyString "<tt>#") eqn:H2; [discriminate H2|]. discriminate.
  - destruct (strings.CutPrefix (String c s) "<tt>rgba") as [r|] eqn:H1.
    { intros [= <- <-]. apply CutPrefix_length in H1. cbn [String.length] in *. lia. }
    destruct (strings.CutPrefix (String c s) "<tt>#") as [r|] eqn:H2.
    { intros [= <- <-]. apply CutPrefix_length in H2. cbn [String.length] in *. lia. }
    intros H. apply IH in H. cbn [String.length]. lia.
Qed.

Lemma tableColorCellMatches_fuel n m s :
  (String.length s <= n)%nat -> (String.length s <= m)%nat ->
  regexp.tableColorCellMatches n s = regexp.tableColorCellMatches m s.
Proof.
  revert m s. induction n as [|n IH]; intros m s Hn Hm.
  - destruct s; [|cbn [String.length] in Hn; lia]. destruct m; reflexivity.
  - destruct m as [|m].
    { destruct s; [|cbn [String.length] in Hm; lia]. reflexivity. }
    cbn [regexp.tableColorCellMatches].
    destruct (regexp.cellOpen s) as [[alt inner]|] eqn:Hopen; [|reflexivity].
    destruct (strings.Cut inner "</tt>") as [[body rest]|] eqn:Hclose; [|reflexivity].
    apply cellOpen_length in Hopen. apply Cut_length in Hclose.
    cbn [String.length] in Hclose.
    f_equal. apply IH; lia.
Qed.

(** ** The row a lookup stops at *)

(** The first row that names the colour: the row at which the loops of
    [getWidgetColorFor], [getStandardColorFor] and [getColorFor] return. *)
Definition firstRowFor (rows : list submatch) (name : string) : option submatch :=
  List.find (fun row => rowMentions row name) rows.

Lemma firstRowFor_None rows name :
  firstRowFor rows name = None <-> Forall (fun row => rowMentions row name = false) rows.
Proof.
  unfold firstRowFor. induction rows as [|row rows IH]; simpl.
  - split; [constructor | reflexivity].
  - destruct (rowMentions row name) eqn:Hrow.
    + split; [discriminate | intros H; inversion H; congruence].
    + rewrite IH. split; [intros H; constructor; assumption | intros H; inversion H; assumption].
Qed.



Section LookupFacts.
Context (lib : GoLib).

(** What a lookup returns once the row is known. *)
Definition fromCell (c : list submatch) (i : nat) : result color.RGBA :=
  match cellAt c i with
  | Ok s => stringToColor lib s
  | Err e => Err e
  | Panic msg => Panic msg
  end.

Lemma getWidgetColorFor_light rows name :
  getWidgetColorFor lib rows name "light" =
  match firstRowFor rows name with
  | Some row => fromCell (colorCells row) 0
  | None => Ok color.zero
  end.
Proof.
  unfold firstRowFor. induction rows as [|row rows IH]; simpl; [reflexivity|].
  destruct (rowMentions row name); [reflexivity | exact IH].
Qed.

Lemma getWidgetColorFor_dark rows name :
  getWidgetColorFor lib rows name "dark" =
  match firstRowFor rows name with
  | Some row => fromCell (colorCells row) 1
  | None => Ok color.zero
  end.
Proof.
  unfold firstRowFor. induction rows as [|row rows IH]; simpl; [reflexivity|].
  destruct (rowMentions row name); [reflexivity | exact IH].
Qed.

Lemma getWidgetColorFor_absent rows name variant :
  firstRowFor rows name = None ->
  getWidgetColorFor lib rows name variant = Ok color.zero.
Proof.
  unfold firstRowFor. induction rows as [|row rows IH]; simpl; [reflexivity|].
  destruct (rowMentions row name); [discriminate | exact IH].
Qed.

Lemma getStandardColorFor_find rows name :
  getStandardColorFor lib rows name =
  match firstRowFor rows name with
  | Some row => fromCell (colorCells row) 0
  | None => Ok color.zero
  end.
Proof.
  unfold firstRowFor. induction rows as [|row rows IH]; simpl; [reflexivity|].
  destruct (rowMentions row name); [reflexivity | exact IH].
Qed.

Lemma getColorFor_same rows name variant :
  Legacy.getColorFor lib rows name variant = getWidgetColorFor lib rows name variant.
Proof.
  induction rows as [|row rows IH]; simpl; [reflexivity|].
  destruct (rowMentions row name); [reflexivity | exact IH].
Qed.

Lemma fromCell_short c i :
  (length c <= i)%nat -> fromCell c i = Panic "runtime error: index out of range".
Proof.
  intros Hlen. unfold fromCell, cellAt.
  rewrite (proj2 (lookup_ge_None c i)); [reflexivity | exact Hlen].
Qed.

End LookupFacts.

(** ** Loops that store one entry per key *)

Lemma rangeR_app {T S} (body : S -> T -> result S) l1 l2 s :
  rangeR body (l1 ++ l2) s =
  match rangeR body l1 s with
  | Ok s' => rangeR body l2 s'
  | Err e => Err e
  | Panic msg => Panic msg
  end.
Proof.
  revert s. induction l1 as [|x l1 IH]; intros s; simpl; [reflexivity|].
  destruct (body s x); [apply IH | reflexivity | reflexivity].
Qed.

Section RangeInsert.
Context {V : Type} (f : string * string -> result (V * V)).

(** A loop body that computes a pair from the entry and stores its
    halves under the key of the entry. *)
Definition insertBody (acc : gmap string V * gmap string V) (e : string * string)
  : result (gmap string V * gmap string V) :=
  match f e with
  | Ok (a, b) => Ok (<[e.1 := a]> acc.1, <[e.1 := b]> acc.2)
  | Err x => Err x
  | Panic msg => Panic msg
  end.

Definition store (acc : gmap string V * gmap string V) (e : string * string)
  : gmap string V * gmap string V :=
  match f e with
  | Ok (a, b) => (<[e.1 := a]> acc.1, <[e.1 := b]> acc.2)
  | _ => acc
  end.

Definition entryOk (e : string * string) : bool := is_Ok (f e).

Lemma insertBody_store acc e :
  insertBody acc e =
  match f e with
  | Ok _ => Ok (store acc e)
  | Err x => Err x
  | Panic msg => Panic msg
  end.
Proof. unfold insertBody, store. destruct (f e) as [[a b]| |]; reflexivity. Qed.

Lemma rangeR_insert_Ok order acc acc' :
  rangeR insertBody order acc = Ok acc' ->
  forallb entryOk order = true /\ acc' = foldl store acc order.
Proof.
  revert acc. induction order as [|e order IH]; intros acc; simpl.
  - intros [= <-]. split; reflexivity.
  - rewrite insertBody_store. unfold entryOk at 1.
    destruct (f e) as [v| |]; simpl; try discriminate.
    intros H. apply IH in H. exact H.
Qed.

Lemma rangeR_insert_all order acc :
  forallb entryOk order = true ->
  rangeR insertBody order acc = Ok (foldl store acc order).
Proof.
  revert acc. induction order as [|e order IH]; intros acc; simpl; [reflexivity|].
  rewrite insertBody_store. unfold entryOk at 1.
  destruct (f e) as [v| |]; simpl; try discriminate.
  intros H. apply IH. exact H.
Qed.

Lemma rangeR_insert_fail order acc :
  forallb entryOk order = false -> is_Ok (rangeR insertBody order acc) = false.
Proof.
  revert acc. induction order as [|e order IH]; intros acc; simpl; [discriminate|].
  rewrite insertBody_store. unfold entryOk at 1.
  destruct (f e) as [v| |]; simpl; try reflexivity.
  intros H. apply IH. exact H.
Qed.

Lemma store_other order acc k :
  k ∉ keys order ->
  (foldl store acc order).1 !! k = acc.1 !! k /\
  (foldl store acc order).2 !! k = acc.2 !! k.
Proof.
  revert acc. induction order as [|e order IH]; intros acc Hk; simpl; [split; reflexivity|].
  simpl in Hk. apply not_elem_of_cons in Hk as [Hne Hk].
  destruct (IH (store acc e) Hk) as [H1 H2]. rewrite H1, H2.
  unfold store. destruct (f e) as [[a b]| |]; simpl; try (split; reflexivity).
  split; apply lookup_insert_ne; congruence.
Qed.

Lemma store_entry order acc e a b :
  NoDup (keys order) -> e ∈ order -> f e = Ok (a, b) ->
  (foldl store acc order).1 !! e.1 = Some a /\
  (foldl store acc order).2 !! e.1 = Some b.
Proof.
  revert acc. induction order as [|x order IH]; intros acc Hnd Hin Hf; simpl.
  - inversion Hin.
  - simpl in Hnd. apply NoDup_cons in Hnd as [Hx Hnd].
    apply elem_of_cons in Hin as [->|Hin].
    + destruct (store_other order (store acc x) x.1 Hx) as [H1 H2].
      rewrite H1, H2. unfold store. rewrite Hf. simpl.
      split; apply lookup_insert_eq.
    + apply IH; assumption.
Qed.

Lemma store_swap acc x y :
  x.1 <> y.1 -> store (store acc x) y = store (store acc y) x.
Proof.
  intros Hne. unfold store.
  destruct (f x) as [[a b]| |], (f y) as [[c d]| |]; simpl; try reflexivity.
  f_equal; apply insert_insert_ne; congruence.
Qed.

Lemma store_permutation order order' :
  Permutation order order' ->
  forall acc, NoDup (keys order) -> foldl store acc order = foldl store acc order'.
Proof.
  induction 1 as [|x l l' Hp IH|x y l|l l' l'' Hp1 IH1 Hp2 IH2]; intros acc Hnd; simpl.
  - reflexivity.
  - simpl in Hnd. apply NoDup_cons in Hnd as [_ Hnd]. apply IH. exact Hnd.
  - rewrite store_swap; [reflexivity|].
    simpl in Hnd. apply NoDup_cons in Hnd as [Hy _].
    intros Heq. apply Hy. rewrite Heq. apply elem_of_cons. left. reflexivity.
  - rewrite IH1 by exact Hnd. apply IH2.
    unfold keys in *. rewrite <- Hp1. exact Hnd.
Qed.
End RangeInsert.

(** ** The two colour loops as stores *)

Lemma wrap_Ok {T} msg (r : result T) v : wrap msg r = Ok v <-> r = Ok v.
Proof. destruct r; simpl; split; congruence. Qed.

Lemma wrap_is_Ok {T} msg (r : result T) : is_Ok (wrap msg r) = is_Ok r.
Proof. destruct r; reflexivity. Qed.

Section SchemeFacts.
Context (lib : GoLib).

(** What the first loop computes for one entry. *)
Definition widgetPair (rows : list submatch) (e : string * string)
  : result (colorInfo * colorInfo) :=
  match wrap ("failed to get light color for " +:+ e.2)
             (getWidgetColorFor lib rows e.2 "light") with
  | Ok lcol =>
      match wrap ("failed to get dark color for " +:+ e.2)
                 (getWidgetColorFor lib rows e.2 "dark") with
      | Ok dcol => Ok (mkColorInfo lcol e.2, mkColorInfo dcol e.2)
      | Err x => Err x
      | Panic msg => Panic msg
      end
  | Err x => Err x
  | Panic msg => Panic msg
  end.

(** The alpha channel the second loop forces on the scroll bar. *)
Definition scrollBarAlpha (colname : string) (c : color.RGBA) : color.RGBA :=
  if String.eqb colname "theme.ColorNameScrollBar" then color.withA 91 c else c.

(** What the second loop computes for one entry. *)
Definition standardPair (rows : list submatch) (e : string * string)
  : result (colorInfo * colorInfo) :=
  match wrap ("failed to get light color for " +:+ (standardNames e.2).1)
             (getStandardColorFor lib rows (standardNames e.2).1) with
  | Ok lcol =>
      match wrap ("failed to get dark color for " +:+ (standardNames e.2).2)
                 (getStandardColorFor lib rows (standardNames e.2).2) with
      | Ok dcol =>
          Ok (mkColorInfo (scrollBarAlpha e.1 lcol) (standardNames e.2).1,
              mkColorInfo (scrollBarAlpha e.1 dcol) (standardNames e.2).2)
      | Err x => Err x
      | Panic msg => Panic msg
      end
  | Err x => Err x
  | Panic msg => Panic msg
  end.

Lemma widgetBody_insert rows acc e :
  widgetBody lib rows acc e = insertBody (widgetPair rows) acc e.
Proof.
  destruct acc as [l d], e as [colname color].
  unfold widgetBody, insertBody, widgetPair; simpl.
  destruct (wrap _ (getWidgetColorFor lib rows color "light")); try reflexivity.
  destruct (wrap _ (getWidgetColorFor lib rows color "dark")); reflexivity.
Qed.

Lemma standardBody_insert rows acc e :
  standardBody lib rows acc e = insertBody (standardPair rows) acc e.
Proof.
  destruct acc as [l d], e as [colname color].
  unfold standardBody, insertBody, standardPair, scrollBarAlpha; simpl.
  destruct (standardNames color) as [ln dn]; simpl.
  destruct (wrap _ (getStandardColorFor lib rows ln)); try reflexivity.
  destruct (wrap _ (getStandardColorFor lib rows dn)); try reflexivity.
  destruct (String.eqb colname "theme.ColorNameScrollBar"); reflexivity.
Qed.

Lemma rangeR_ext {T S} (body body' : S -> T -> result S) order s :
  (forall s x, body s x = body' s x) -> rangeR body order s = rangeR body' order s.
Proof.
  intros Hext. revert s. induction order as [|x order IH]; intros s; simpl; [reflexivity|].
  rewrite Hext. destruct (body' s x); [apply IH | reflexivity | reflexivity].
Qed.

(** The schemes a run without failure ends with. *)
Definition storedSchemes (rows : list submatch) (wo so : list (string * string)) : schemes :=
  foldl (store (standardPair rows)) (foldl (store (widgetPair rows)) (∅, ∅) wo) so.

Definition allOk (rows : list submatch) (wo so : list (string * string)) : bool :=
  forallb (entryOk (widgetPair rows)) wo && forallb (entryOk (standardPair rows)) so.

Lemma collectSchemes_Ok rows wo so data :
  collectSchemes lib rows wo so = Ok data ->
  allOk rows wo so = true /\ data = storedSchemes rows wo so.
Proof.
  unfold collectSchemes, allOk, storedSchemes.
  rewrite (rangeR_ext _ _ wo _ (widgetBody_insert rows)).
  destruct (rangeR _ wo _) as [acc| |] eqn:Hw; try discriminate.
  apply rangeR_insert_Ok in Hw as [Hw ->].
  rewrite (rangeR_ext _ _ so _ (standardBody_insert rows)).
  intros Hs. apply rangeR_insert_Ok in Hs as [Hs ->].
  rewrite Hw, Hs. split; reflexivity.
Qed.

Lemma collectSchemes_is_Ok rows wo so :
  is_Ok (collectSchemes lib rows wo so) = allOk rows wo so.
Proof.
  unfold collectSchemes, allOk.
  rewrite (rangeR_ext _ _ wo _ (widgetBody_insert rows)).
  destruct (forallb (entryOk (widgetPair rows)) wo) eqn:Hw.
  - rewrite (rangeR_insert_all _ _ _ Hw). cbv iota beta.
    rewrite (rangeR_ext _ _ so _ (standardBody_insert rows)).
    destruct (forallb (entryOk (standardPair rows)) so) eqn:Hs.
    + rewrite (rangeR_insert_all _ _ _ Hs). reflexivity.
    + apply rangeR_insert_fail. exact Hs.
  - apply (rangeR_insert_fail _ _ (∅, ∅)) in Hw.
    destruct (rangeR _ wo _); [discriminate | reflexivity | reflexivity].
Qed.

Lemma collectSchemes_all rows wo so :
  allOk rows wo so = true ->
  collectSchemes lib rows wo so = Ok (storedSchemes rows wo so).
Proof.
  intros Hall. pose proof (collectSchemes_is_Ok rows wo so) as Hok.
  rewrite Hall in Hok.
  destruct (collectSchemes lib rows wo so) as [data| |] eqn:Hc; try discriminate.
  apply collectSchemes_Ok in Hc as [_ ->]. reflexivity.
Qed.
End SchemeFacts.

(** ** Splitting the value of a standard colour *)

Definition noComma (s : string) : Prop := strings.Contains s "," = false.

Lemma Contains_cons_false c s sub :
  strings.Contains (String c s) sub = false ->
  strings.HasPrefix (String c s) sub = false /\ strings.Contains s sub = false.
Proof.
  simpl. destruct (strings.HasPrefix (String c s) sub); [discriminate|].
  intros H. split; [reflexivity | exact H].
Qed.

Lemma HasPrefix_comma c s :
  strings.HasPrefix (String c s) "," = Ascii.eqb "," c.
Proof.
  unfold strings.HasPrefix. cbn [strings.CutPrefix].
  destruct (Ascii.eqb "," c); reflexivity.
Qed.

Lemma Split_noComma s : noComma s -> strings.Split s "," = [s].
Proof.
  unfold noComma, strings.Split. induction s as [|c s IH]; intros Hs; [reflexivity|].
  apply Contains_cons_false in Hs as [Hpre Hs].
  cbn [strings.SplitFrom]. rewrite Hpre, (IH Hs). reflexivity.
Qed.

Lemma Split_pair a b :
  noComma a -> noComma b -> strings.Split (a +:+ "," +:+ b) "," = [a; b].
Proof.
  unfold strings.Split. intros Ha Hb. induction a as [|c a IH].
  - pose proof (Split_noComma b Hb) as Hsplit. unfold strings.Split in Hsplit.
    change (strings.SplitFrom 0 (EmptyString +:+ "," +:+ b) ",")
      with (EmptyString :: strings.SplitFrom 0 b ",").
    rewrite Hsplit. reflexivity.
  - apply Contains_cons_false in Ha as [Hpre Ha].
    change (String c a +:+ "," +:+ b) with (String c (a +:+ "," +:+ b)).
    cbn [strings.SplitFrom].
    rewrite HasPrefix_comma in Hpre |- *. rewrite Hpre, (IH Ha). reflexivity.
Qed.

Lemma standardNames_single s : noComma s -> standardNames s = (s, s).
Proof. intros Hs. unfold standardNames. rewrite (Split_noComma s Hs). reflexivity. Qed.

Lemma standardNames_pair a b :
  noComma a -> noComma b -> standardNames (a +:+ "," +:+ b) = (a, b).
Proof. intros Ha Hb. unfold standardNames. rewrite (Split_pair a b Ha Hb). reflexivity. Qed.

Example standardNames_ex :
  standardNames "dark_5,light_1" = ("dark_5", "light_1") /\
  standardNames "blue_3" = ("blue_3", "blue_3").
Proof. split; reflexivity. Qed.

(** ** Keys of the two colour tables *)

Lemma keys_Permutation {V} (l l' : list (string * V)) :
  Permutation l l' -> Permutation (keys l) (keys l').
Proof. intros H. unfold keys. rewrite H. reflexivity. Qed.

Lemma in_keys {V} (l : list (string * V)) k v : (k, v) ∈ l -> k ∈ keys l.
Proof. intros H. unfold keys. apply list_elem_of_fmap. exists (k, v). split; [reflexivity | exact H]. Qed.

Lemma widget_key_not_standard k :
  k ∈ keys colorToGet -> k ∉ keys standardColorToGet.
Proof.
  intros Hk Hs. pose proof color_tables_keys_NoDup as Hnd.
  apply NoDup_app in Hnd as (_ & Hdisj & _). exact (Hdisj k Hk Hs).
Qed.

(** ** What the schemes hold after a run without failure *)

Section StoredFacts.
Context (lib : GoLib) (rows : list submatch) (wo so : list (string * string)).
Hypothesis Hwo : Permutation wo colorToGet.
Hypothesis Hso : Permutation so standardColorToGet.

Lemma wo_keys_NoDup : NoDup (keys wo).
Proof. rewrite (keys_Permutation _ _ Hwo). exact colorToGet_keys_NoDup. Qed.

Lemma so_keys_NoDup : NoDup (keys so).
Proof. rewrite (keys_Permutation _ _ Hso). exact standardColorToGet_keys_NoDup. Qed.

(** An entry of the first table: both schemes hold what [widgetPair]
    computed for it. *)
Lemma stored_widget e li di :
  e ∈ colorToGet -> widgetPair lib rows e = Ok (li, di) ->
  (storedSchemes lib rows wo so).1 !! e.1 = Some li /\
  (storedSchemes lib rows wo so).2 !! e.1 = Some di.
Proof.
  intros Hin Hpair. unfold storedSchemes.
  assert (e.1 ∉ keys so) as Hnot.
  { rewrite (keys_Permutation _ _ Hso). apply widget_key_not_standard.
    destruct e as [k v]. exact (in_keys _ _ _ Hin). }
  destruct (store_other (standardPair lib rows) so
              (foldl (store (widgetPair lib rows)) (∅, ∅) wo) e.1 Hnot) as [H1 H2].
  rewrite H1, H2. apply store_entry; [exact wo_keys_NoDup | | exact Hpair].
  rewrite Hwo. exact Hin.
Qed.

(** An entry of the second table. *)
Lemma stored_standard e li di :
  e ∈ standardColorToGet -> standardPair lib rows e = Ok (li, di) ->
  (storedSchemes lib rows wo so).1 !! e.1 = Some li /\
  (storedSchemes lib rows wo so).2 !! e.1 = Some di.
Proof.
  intros Hin Hpair. unfold storedSchemes.
  apply store_entry; [exact so_keys_NoDup | | exact Hpair].
  rewrite Hso. exact Hin.
Qed.

(** No key outside the two tables. *)
Lemma stored_other k :
  k ∉ keys colorToGet ++ keys standardColorToGet ->
  (storedSchemes lib rows wo so).1 !! k = None /\
  (storedSchemes lib rows wo so).2 !! k = None.
Proof.
  intros Hk. apply not_elem_of_app in Hk as [Hk1 Hk2]. unfold storedSchemes.
  rewrite <- (keys_Permutation _ _ Hwo) in Hk1.
  rewrite <- (keys_Permutation _ _ Hso) in Hk2.
  destruct (store_other (standardPair lib rows) so
              (foldl (store (widgetPair lib rows)) (∅, ∅) wo) k Hk2) as [H1 H2].
  destruct (store_other (widgetPair lib rows) wo (∅, ∅) k Hk1) as [H3 H4].
  rewrite H1, H2, H3, H4. simpl. split; apply lookup_empty.
Qed.

Lemma allOk_widget e :
  allOk lib rows wo so = true -> e ∈ colorToGet ->
  exists li di, widgetPair lib rows e = Ok (li, di).
Proof.
  unfold allOk. intros Hall Hin. apply andb_prop in Hall as [Hw _].
  rewrite forallb_forall in Hw.
  assert (In e wo) as Hin'. { apply list_elem_of_In. rewrite Hwo. exact Hin. }
  specialize (Hw e Hin'). unfold entryOk in Hw.
  destruct (widgetPair lib rows e) as [[li di]| |]; try discriminate. eauto.
Qed.

Lemma allOk_standard e :
  allOk lib rows wo so = true -> e ∈ standardColorToGet ->
  exists li di, standardPair lib rows e = Ok (li, di).
Proof.
  unfold allOk. intros Hall Hin. apply andb_prop in Hall as [_ Hs].
  rewrite forallb_forall in Hs.
  assert (In e so) as Hin'. { apply list_elem_of_In. rewrite Hso. exact Hin. }
  specialize (Hs e Hin'). unfold entryOk in Hs.
  destruct (standardPair lib rows e) as [[li di]| |]; try discriminate. eauto.
Qed.
End StoredFacts.

Lemma widgetPair_Ok lib rows e li di :
  widgetPair lib rows e = Ok (li, di) ->
  exists lcol dcol,
    getWidgetColorFor lib rows e.2 "light" = Ok lcol /\
    getWidgetColorFor lib rows e.2 "dark" = Ok dcol /\
    li = mkColorInfo lcol e.2 /\ di = mkColorInfo dcol e.2.
Proof.
  unfold widgetPair.
  destruct (wrap _ (getWidgetColorFor lib rows e.2 "light")) as [lcol| |] eqn:Hl;
    try discriminate.
  destruct (wrap _ (getWidgetColorFor lib rows e.2 "dark")) as [dcol| |] eqn:Hd;
    try discriminate.
  intros [= <- <-]. apply wrap_Ok in Hl, Hd. exists lcol, dcol. auto.
Qed.

Lemma standardPair_Ok lib rows e li di :
  standardPair lib rows e = Ok (li, di) ->
  exists lcol dcol,
    getStandardColorFor lib rows (standardNames e.2).1 = Ok lcol /\
    getStandardColorFor lib rows (standardNames e.2).2 = Ok dcol /\
    li = mkColorInfo (scrollBarAlpha e.1 lcol) (standardNames e.2).1 /\
    di = mkColorInfo (scrollBarAlpha e.1 dcol) (standardNames e.2).2.
Proof.
  unfold standardPair.
  destruct (wrap _ (getStandardColorFor lib rows (standardNames e.2).1)) as [lcol| |] eqn:Hl;
    try discriminate.
  destruct (wrap _ (getStandardColorFor lib rows (standardNames e.2).2)) as [dcol| |] eqn:Hd;
    try discriminate.
  intros [= <- <-]. apply wrap_Ok in Hl, Hd. exists lcol, dcol. auto.
Qed.

(** ** Claims about the colour schemes *)







Lemma sample_collect :
  collectSchemes Sample.lib Sample.rows colorToGet standardColorToGet =
  Ok ((storedSchemes Sample.lib Sample.rows colorToGet standardColorToGet).1,
      (storedSchemes Sample.lib Sample.rows colorToGet standardColorToGet).2).
Proof.
  rewrite collectSchemes_all; [|vm_compute; reflexivity].
  destruct (storedSchemes _ _ _ _); reflexivity.
Defined.


(** The keys a template visits are the keys of the map, each once. *)
Lemma templateRange_keys {V} (m : gmap string V) (ks : list string) :
  NoDup ks ->
  (forall k, is_Some (m !! k) <-> k ∈ ks) ->
  Permutation (keys (templateRange m)) ks.
Proof.
  intros Hnd Hdom. unfold templateRange, keys.
  rewrite merge_sort_Permutation.
  apply NoDup_Permutation; [apply NoDup_fst_map_to_list | exact Hnd |].
  intros k. rewrite <- Hdom. split.
  - intros Hk. apply list_elem_of_fmap in Hk as ([k' v] & -> & Hkv).
    apply elem_of_map_to_list in Hkv. simpl. eauto.
  - intros [v Hv]. apply list_elem_of_fmap. exists (k, v).
    split; [reflexivity | apply elem_of_map_to_list; exact Hv].
Qed.

Definition colorKeys : list string := keys colorToGet ++ keys standardColorToGet.

(** C5.  On a run whose colour extraction does not fail, the light and
    the dark scheme have an entry exactly for the keys of [colorToGet]
    and [standardColorToGet], the template prints one entry per key, an
    entry of [colorToGet] carries the Adwaita name of the table in both
    schemes, and an entry of [standardColorToGet] carries the table's
    name in both schemes when it is a single name and the first name in
    the light scheme and the second in the dark scheme when the table
    has two names separated by a comma. *)
Theorem schemes_follow_tables
  (lib : GoLib) (rows : list submatch) (wo so : list (string * string))
  (lightScheme darkScheme : gmap string colorInfo) :
  Permutation wo colorToGet ->
  Permutation so standardColorToGet ->
  collectSchemes lib rows wo so = Ok (lightScheme, darkScheme) ->
  (forall k, is_Some (lightScheme !! k) <-> k ∈ colorKeys) /\
  (forall k, is_Some (darkScheme !! k) <-> k ∈ colorKeys) /\
  Permutation (keys (templateRange lightScheme)) colorKeys /\
  Permutation (keys (templateRange darkScheme)) colorKeys /\
  (forall fyne adw, (fyne, adw) ∈ colorToGet ->
     exists li di, lightScheme !! fyne = Some li /\ darkScheme !! fyne = Some di /\
                   AdwName li = adw /\ AdwName di = adw) /\
  (forall fyne names, (fyne, names) ∈ standardColorToGet ->
     exists li di, lightScheme !! fyne = Some li /\ darkScheme !! fyne = Some di /\
       (noComma names -> AdwName li = names /\ AdwName di = names) /\
       (forall first second, names = first +:+ "," +:+ second ->
          noComma first -> noComma second ->
          AdwName li = first /\ AdwName di = second)).
Proof.
  intros Hwo Hso Hrun.
  apply collectSchemes_Ok in Hrun as [Hall Hdata].
  assert (Hwidget : forall fyne adw, (fyne, adw) ∈ colorToGet ->
     exists li di, lightScheme !! fyne = Some li /\ darkScheme !! fyne = Some di /\
                   AdwName li = adw /\ AdwName di = adw).
  { intros fyne adw Hin.
    destruct (allOk_widget lib rows wo so Hwo _ Hall Hin) as (li & di & Hpair).
    destruct (stored_widget lib rows wo so Hwo Hso _ li di Hin Hpair) as [Hl Hd].
    rewrite <- Hdata in Hl, Hd.
    apply widgetPair_Ok in Hpair as (lcol & dcol & _ & _ & -> & ->).
    exists (mkColorInfo lcol adw), (mkColorInfo dcol adw). auto. }
  assert (Hstandard : forall fyne names, (fyne, names) ∈ standardColorToGet ->
     exists li di, lightScheme !! fyne = Some li /\ darkScheme !! fyne = Some di /\
       AdwName li = (standardNames names).1 /\ AdwName di = (standardNames names).2).
  { intros fyne names Hin.
    destruct (allOk_standard lib rows wo so Hso _ Hall Hin) as (li & di & Hpair).
    destruct (stored_standard lib rows wo so Hso _ li di Hin Hpair) as [Hl Hd].
    rewrite <- Hdata in Hl, Hd.
    apply standardPair_Ok in Hpair as (lcol & dcol & _ & _ & -> & ->).
    eexists _, _. split; [exact Hl|]. split; [exact Hd|]. split; reflexivity. }
  assert (Hdom : (forall k, is_Some (lightScheme !! k) <-> k ∈ colorKeys) /\
                 (forall k, is_Some (darkScheme !! k) <-> k ∈ colorKeys)).
  { assert (forall k, k ∈ colorKeys ->
              is_Some (lightScheme !! k) /\ is_Some (darkScheme !! k)) as Hin.
    { intros k Hk. unfold colorKeys in Hk. apply elem_of_app in Hk as [Hk|Hk];
        apply list_elem_of_fmap in Hk as ([k' v] & -> & Hkv).
      - destruct (Hwidget _ _ Hkv) as (li & di & Hl & Hd & _). simpl. rewrite Hl, Hd. eauto.
      - destruct (Hstandard _ _ Hkv) as (li & di & Hl & Hd & _). simpl. rewrite Hl, Hd. eauto. }
    assert (forall k, k ∉ colorKeys ->
              lightScheme !! k = None /\ darkScheme !! k = None) as Hout.
    { intros k Hk. destruct (stored_other lib rows wo so Hwo Hso k Hk) as [Hl Hd].
      rewrite <- Hdata in Hl, Hd. auto. }
    split; intros k; (split; [|intros Hk; apply (Hin k Hk)]);
      intros Hsome; destruct (decide (k ∈ colorKeys)) as [Hk|Hk]; try exact Hk;
      destruct (Hout k Hk) as [Hl Hd]; rewrite ?Hl, ?Hd in Hsome;
      destruct Hsome; discriminate. }
  destruct Hdom as [Hdl Hdd].
  split; [exact Hdl|]. split; [exact Hdd|].
  split; [apply templateRange_keys; [exact color_tables_keys_NoDup | exact Hdl]|].
  split; [apply templateRange_keys; [exact color_tables_keys_NoDup | exact Hdd]|].
  split; [exact Hwidget|].
  intros fyne names Hin.
  destruct (Hstandard fyne names Hin) as (li & di & Hl & Hd & Hal & Had).
  exists li, di. split; [exact Hl|]. split; [exact Hd|]. split.
  - intros Hn. rewrite Hal, Had, (standardNames_single names Hn). auto.
  - intros first second -> Hf Hs.
    rewrite Hal, Had, (standardNames_pair first second Hf Hs). auto.
Qed.

Lemma schemes_follow_tables_witness :
  let lightScheme := (storedSchemes Sample.lib Sample.rows colorToGet standardColorToGet).1 in
  let darkScheme := (storedSchemes Sample.lib Sample.rows colorToGet standardColorToGet).2 in
  (forall k, is_Some (lightScheme !! k) <-> k ∈ colorKeys) /\
  (forall k, is_Some (darkScheme !! k) <-> k ∈ colorKeys) /\
  Permutation (keys (templateRange lightScheme)) colorKeys /\
  Permutation (keys (templateRange darkScheme)) colorKeys /\
  (forall fyne adw, (fyne, adw) ∈ colorToGet ->
     exists li di, lightScheme !! fyne = Some li /\ darkScheme !! fyne = Some di /\
                   AdwName li = adw /\ AdwName di = adw) /\
  (forall fyne names, (fyne, names) ∈ standardColorToGet ->
     exists li di, lightScheme !! fyne = Some li /\ darkScheme !! fyne = Some di /\
       (noComma names -> AdwName li = names /\ AdwName di = names) /\
       (forall first second, names = first +:+ "," +:+ second ->
          noComma first -> noComma second ->
          AdwName li = first /\ AdwName di = second)).
Proof.
  exact (schemes_follow_tables Sample.lib Sample.rows colorToGet standardColorToGet
           _ _ (Permutation_refl _) (Permutation_refl _) sample_collect).
Defined.

(** C10.  When the first row naming the colour has fewer than two colour
    cells, the dark lookup of [getWidgetColorFor] (and of the older
    [getColorFor]) panics on [c[1]]; when it has none, the light lookup
    and [getStandardColorFor] panic on [c[0]].  A panic is not a returned
    error. *)
Theorem lookup_panics_on_short_row
  (lib : GoLib) (rows : list submatch) (name : string) (row : submatch) :
  firstRowFor rows name = Some row ->
  ((length (colorCells row) < 2)%nat ->
     getWidgetColorFor lib rows name "dark" = Panic "runtime error: index out of range" /\
     Legacy.getColorFor lib rows name "dark" = Panic "runtime error: index out of range") /\
  ((length (colorCells row) < 1)%nat ->
     getWidgetColorFor lib rows name "light" = Panic "runtime error: index out of range" /\
     Legacy.getColorFor lib rows name "light" = Panic "runtime error: index out of range" /\
     getStandardColorFor lib rows name = Panic "runtime error: index out of range").
Proof.
  intros Hrow. split; intros Hlen.
  - assert (getWidgetColorFor lib rows name "dark"
            = Panic "runtime error: index out of range") as Hdark.
    { rewrite getWidgetColorFor_dark, Hrow. apply fromCell_short. lia. }
    split; [exact Hdark|].
    exact (eq_trans (getColorFor_same lib rows name "dark") Hdark).
  - assert (getWidgetColorFor lib rows name "light"
            = Panic "runtime error: index out of range") as Hlight.
    { rewrite getWidgetColorFor_light, Hrow. apply fromCell_short. lia. }
    split; [exact Hlight|]. split.
    + exact (eq_trans (getColorFor_same lib rows name "light") Hlight).
    + rewrite getStandardColorFor_find, Hrow. apply fromCell_short. lia.
Qed.

Lemma lookup_panics_on_short_row_witness :
  (getWidgetColorFor Sample.lib Sample.oneCellRows "shade_color" "dark"
     = Panic "runtime error: index out of range" /\
   Legacy.getColorFor Sample.lib Sample.oneCellRows "shade_color" "dark"
     = Panic "runtime error: index out of range") /\
  (getWidgetColorFor Sample.lib Sample.noCellRows "shade_color" "light"
     = Panic "runtime error: index out of range" /\
   Legacy.getColorFor Sample.lib Sample.noCellRows "shade_color" "light"
     = Panic "runtime error: index out of range" /\
   getStandardColorFor Sample.lib Sample.noCellRows "shade_color"
     = Panic "runtime error: index out of range").
Proof.
  split.
  - refine (proj1 (lookup_panics_on_short_row Sample.lib Sample.oneCellRows "shade_color"
                     (Submatch _ _) _) _).
    + vm_compute. reflexivity.
    + vm_compute. lia.
  - refine (proj2 (lookup_panics_on_short_row Sample.lib Sample.noCellRows "shade_color"
                     (Submatch _ _) _) _).
    + vm_compute. reflexivity.
    + vm_compute. lia.
Defined.

(** ** A colour the page does not name *)

Definition absent (rows : list submatch) (name : string) : Prop :=
  Forall (fun row => rowMentions row name = false) rows.

(** C9 as the specification words it: whenever the name an entry was
    looked up under occurs in no row, the entry emitted into the scheme
    is the zero colour. *)
Definition missing_color_emitted_as_zero : Prop :=
  forall (lib : GoLib) (rows : list submatch) (wo so : list (string * string))
         (lightScheme darkScheme : gmap string colorInfo),
    Permutation wo colorToGet ->
    Permutation so standardColorToGet ->
    collectSchemes lib rows wo so = Ok (lightScheme, darkScheme) ->
    forall fyne info,
      lightScheme !! fyne = Some info ->
      absent rows (AdwName info) ->
      Col info = color.zero.

(** Against C9 as stated: on a page without any row every lookup
    returns the zero colour and a nil error, and the scroll bar is
    emitted with alpha [0x5b]. *)
Lemma missing_scrollbar_not_transparent : ~ missing_color_emitted_as_zero.
Proof.
  intros Hclaim.
  assert (collectSchemes Sample.lib [] colorToGet standardColorToGet =
          Ok ((storedSchemes Sample.lib [] colorToGet standardColorToGet).1,
              (storedSchemes Sample.lib [] colorToGet standardColorToGet).2)) as Hrun.
  { rewrite collectSchemes_all; [|vm_compute; reflexivity].
    destruct (storedSchemes _ _ _ _); reflexivity. }
  specialize (Hclaim Sample.lib [] colorToGet standardColorToGet _ _
                (Permutation_refl _) (Permutation_refl _) Hrun
                "theme.ColorNameScrollBar"
                (mkColorInfo (color.mkRGBA 0 0 0 91) "dark_5")).
  assert (color.mkRGBA 0 0 0 91 = color.zero) as Habs.
  { apply Hclaim; [vm_compute; reflexivity | constructor]. }
  discriminate Habs.
Qed.

(** C9, amended.  When the requested name occurs in no row of the page,
    both lookups return the zero colour and a nil error; and on a run
    whose colour extraction does not fail, the entry of such a colour is
    the zero colour, except that the entry of
    [theme.ColorNameScrollBar] has its alpha channel set to [0x5b]. *)
Theorem missing_color_is_zero (lib : GoLib) (rows : list submatch) :
  (forall name variant, absent rows name ->
     getWidgetColorFor lib rows name variant = Ok color.zero /\
     getStandardColorFor lib rows name = Ok color.zero) /\
  (forall wo so lightScheme darkScheme,
     Permutation wo colorToGet ->
     Permutation so standardColorToGet ->
     collectSchemes lib rows wo so = Ok (lightScheme, darkScheme) ->
     (forall fyne adw, (fyne, adw) ∈ colorToGet -> absent rows adw ->
        lightScheme !! fyne = Some (mkColorInfo color.zero adw) /\
        darkScheme !! fyne = Some (mkColorInfo color.zero adw)) /\
     (forall fyne names, (fyne, names) ∈ standardColorToGet ->
        let emitted := if String.eqb fyne "theme.ColorNameScrollBar"
                       then color.mkRGBA 0 0 0 91 else color.zero in
        (absent rows (standardNames names).1 ->
           lightScheme !! fyne = Some (mkColorInfo emitted (standardNames names).1)) /\
        (absent rows (standardNames names).2 ->
           darkScheme !! fyne = Some (mkColorInfo emitted (standardNames names).2)))).
Proof.
  split.
  - intros name variant Habs. apply firstRowFor_None in Habs. split.
    + apply getWidgetColorFor_absent. exact Habs.
    + rewrite getStandardColorFor_find, Habs. reflexivity.
  - intros wo so lightScheme darkScheme Hwo Hso Hrun.
    apply collectSchemes_Ok in Hrun as [Hall Hdata]. split.
    + intros fyne adw Hin Habs. apply firstRowFor_None in Habs.
      destruct (allOk_widget lib rows wo so Hwo _ Hall Hin) as (li & di & Hpair).
      destruct (stored_widget lib rows wo so Hwo Hso _ li di Hin Hpair) as [Hl Hd].
      rewrite <- Hdata in Hl, Hd. simpl in Hl, Hd.
      apply widgetPair_Ok in Hpair as (lcol & dcol & Hlight & Hdark & -> & ->).
      simpl in Hlight, Hdark.
      rewrite (getWidgetColorFor_absent lib rows adw _ Habs) in Hlight.
      rewrite (getWidgetColorFor_absent lib rows adw _ Habs) in Hdark.
      injection Hlight as <-. injection Hdark as <-. auto.
    + intros fyne names Hin emitted.
      destruct (allOk_standard lib rows wo so Hso _ Hall Hin) as (li & di & Hpair).
      destruct (stored_standard lib rows wo so Hso _ li di Hin Hpair) as [Hl Hd].
      rewrite <- Hdata in Hl, Hd. simpl in Hl, Hd.
      apply standardPair_Ok in Hpair as (lcol & dcol & Hlight & Hdark & -> & ->).
      simpl in Hlight, Hdark.
      assert (scrollBarAlpha fyne color.zero = emitted) as Hem.
      { unfold scrollBarAlpha, emitted.
        destruct (String.eqb fyne "theme.ColorNameScrollBar"); reflexivity. }
      split; intros Habs; apply firstRowFor_None in Habs.
      * rewrite getStandardColorFor_find, Habs in Hlight. injection Hlight as <-.
        rewrite <- Hem. exact Hl.
      * rewrite getStandardColorFor_find, Habs in Hdark. injection Hdark as <-.
        rewrite <- Hem. exact Hd.
Qed.

Lemma missing_color_is_zero_witness :
  (getWidgetColorFor Sample.lib Sample.rows "shade_color" "dark" = Ok color.zero /\
   getStandardColorFor Sample.lib Sample.rows "shade_color" = Ok color.zero) /\
  (storedSchemes Sample.lib Sample.rows colorToGet standardColorToGet).1
    !! "theme.ColorNameShadow" = Some (mkColorInfo color.zero "shade_color") /\
  (storedSchemes Sample.lib Sample.rows colorToGet standardColorToGet).2
    !! "theme.ColorNameScrollBar" = Some (mkColorInfo (color.mkRGBA 0 0 0 91) "light_1").
Proof.
  pose proof (missing_color_is_zero Sample.lib Sample.rows) as [Hlookup Hrun].
  specialize (Hrun colorToGet standardColorToGet _ _
                (Permutation_refl _) (Permutation_refl _) sample_collect)
    as [Hwidget Hstandard].
  split; [|split].
  - apply Hlookup. apply (bool_decide_unpack _). vm_compute. exact I.
  - apply (Hwidget "theme.ColorNameShadow" "shade_color");
      apply (bool_decide_unpack _); vm_compute; exact I.
  - refine (proj2 (Hstandard "theme.ColorNameScrollBar" "dark_5,light_1" _) _);
      apply (bool_decide_unpack _); vm_compute; exact I.
Defined.

(** ** The icon loop, step by step *)

(** [name] is a key of [forcePNG]. *)
Definition forced (name : string) : bool :=
  match mapIndex forcePNG name with Some _ => true | None => false end.

(** The [.svg] suffix replaced by [.png] (line 660). *)
Definition pngOf (path : string) : string :=
  strings.TrimSuffix path ".svg" +:+ ".png".

Section IconLoop.
Context (env : Env) (tmpDir : string).

(** The path handed to [fyne.LoadResourceFromPath] and to
    [filepath.Base] for an entry of [iconsToGet]. *)
Definition bundledPath (e : string * string) : string :=
  if forced e.1 then pngOf (iconPathOf tmpDir e.2) else iconPathOf tmpDir e.2.

Definition inkscapeArgs (filename : string) : list string :=
  [inkscape env; "--export-type=png"; "--export-area-drawing"; "--vacuum-defs"; filename].

(** What [svgToPng] leaves on disk, and what it does on the way. *)
Definition convFs (filename : string) (files : gmap string string) : gmap string string :=
  if String.eqb (inkscape env) EmptyString then files
  else match files !! filename with
       | Some svg =>
           match inkscape_export env svg with
           | Some png => <[pngOf filename := png]> files
           | None => files
           end
       | None => files
       end.

Definition convEvents (filename : string) : list event :=
  if String.eqb (inkscape env) EmptyString then []
  else [LogPrintln ("Converting " +:+ filename +:+ " to PNG"); ExecRun (inkscapeArgs filename)].

(** One iteration: the files after it, the icons after it, its events. *)
Definition stepFs (e : string * string) (files : gmap string string) : gmap string string :=
  if String.eqb e.2 EmptyString then files
  else if forced e.1 then convFs (iconPathOf tmpDir e.2) files else files.

Definition stepIcons (e : string * string) (files : gmap string string)
  (icons : gmap string iconInfo) : gmap string iconInfo :=
  if String.eqb e.2 EmptyString then icons
  else match stepFs e files !! bundledPath e with
       | Some content =>
           <[e.1 := mkIconInfo (filepath.Base (bundledPath e)) content]> icons
       | None => icons
       end.

Definition stepEvents (e : string * string) (files : gmap string string) : list event :=
  if String.eqb e.2 EmptyString then []
  else (if forced e.1 then convEvents (iconPathOf tmpDir e.2) else []) ++
       LoadResource (bundledPath e) ::
       match stepFs e files !! bundledPath e with
       | Some _ => []
       | None =>
           [LogPrintln ("Error bundeling " +:+ e.1 +:+ " from " +:+ bundledPath e +:+ " : " +:+
                        ("open " +:+ bundledPath e +:+ ": no such file or directory"))]
       end.

Fixpoint runIcons (order : list (string * string)) (icons : gmap string iconInfo)
  (files : gmap string string)
  : gmap string iconInfo * gmap string string * list event :=
  match order with
  | [] => (icons, files, [])
  | e :: rest =>
      let '(icons', files', evs) :=
        runIcons rest (stepIcons e files icons) (stepFs e files) in
      (icons', files', stepEvents e files ++ evs)
  end.

Lemma state_eta st : mkState (fs st) (trace st) = st.
Proof. destruct st; reflexivity. Qed.

Lemma discard_svgToPng filename st :
  discard (svgToPng env filename) st =
  (Ok tt, mkState (convFs filename (fs st)) (trace st ++ convEvents filename)).
Proof.
  unfold discard, svgToPng, convFs, convEvents.
  destruct (String.eqb (inkscape env) EmptyString).
  - unfold lift. rewrite app_nil_r, state_eta. reflexivity.
  - destruct st as [files tr].
    unfold inkscape_run, bind, emit, emitted, stored, pngOf, inkscapeArgs; simpl.
    rewrite <- app_assoc; simpl.
    destruct (files !! filename) as [svg|]; [|reflexivity].
    destruct (inkscape_export env svg); reflexivity.
Qed.

Lemma iconBody_step icons e st :
  iconBody env tmpDir icons e st =
  (Ok (stepIcons e (fs st) icons),
   mkState (stepFs e (fs st)) (trace st ++ stepEvents e (fs st))).
Proof.
  destruct e as [name iconfile].
  unfold iconBody, stepIcons, stepEvents, stepFs, bundledPath, forced, pngOf; cbn [fst snd].
  destruct (String.eqb iconfile EmptyString).
  { unfold ret. rewrite app_nil_r, state_eta. reflexivity. }
  destruct (mapIndex forcePNG name) as [b|].
  - unfold bind at 1. unfold bind at 1. rewrite discard_svgToPng. unfold ret.
    unfold fyne_LoadResourceFromPath, bind, emit, emitted; cbn [fs trace].
    destruct (convFs _ _ !! _);
      cbn [ResContent fs trace]; rewrite <- !app_assoc; reflexivity.
  - unfold bind at 1. unfold ret.
    unfold fyne_LoadResourceFromPath, bind, emit, emitted; cbn [fs trace].
    destruct (fs st !! iconPathOf tmpDir iconfile);
      cbn [ResContent fs trace app]; rewrite <- ?app_assoc; reflexivity.
Qed.

Lemma collectIcons_run order icons st :
  rangeM (iconBody env tmpDir) order icons st =
  (Ok (runIcons order icons (fs st)).1.1,
   mkState (runIcons order icons (fs st)).1.2
           (trace st ++ (runIcons order icons (fs st)).2)).
Proof.
  revert icons st. induction order as [|e rest IH]; intros icons st; simpl.
  - unfold ret. rewrite app_nil_r, state_eta. reflexivity.
  - unfold bind. rewrite iconBody_step, IH. simpl.
    destruct (runIcons rest _ _) as [[icons' files'] evs]. simpl.
    rewrite <- app_assoc. reflexivity.
Qed.
End IconLoop.

(** ** Loops that store at most one value per entry *)

Section FoldPut.
Context {E V : Type} (key : E -> string) (val : E -> option V).

Definition put (m : gmap string V) (e : E) : gmap string V :=
  match val e with
  | Some v => <[key e := v]> m
  | None => m
  end.

(** Entries that store something store it under different keys. *)
Definition separate (l : list E) : Prop :=
  NoDup l /\
  forall x y, x ∈ l -> y ∈ l -> is_Some (val x) -> is_Some (val y) ->
              key x = key y -> x = y.

Lemma separate_cons x l : separate (x :: l) -> separate l.
Proof.
  intros [Hnd Hsep]. apply NoDup_cons in Hnd as [_ Hnd]. split; [exact Hnd|].
  intros a b Ha Hb. apply Hsep; apply elem_of_cons; right; assumption.
Qed.

Lemma separate_Permutation l l' : Permutation l l' -> separate l -> separate l'.
Proof.
  intros Hp [Hnd Hsep]. split; [rewrite <- Hp; exact Hnd|].
  intros a b Ha Hb. rewrite <- Hp in Ha, Hb. apply Hsep; assumption.
Qed.

Lemma put_other l m k :
  (forall e, e ∈ l -> is_Some (val e) -> key e <> k) ->
  foldl put m l !! k = m !! k.
Proof.
  revert m. induction l as [|e l IH]; intros m Hk; simpl; [reflexivity|].
  rewrite IH.
  - unfold put. destruct (val e) as [v|] eqn:Hv; [|reflexivity].
    apply lookup_insert_ne. apply Hk; [apply elem_of_cons; left; reflexivity|].
    rewrite Hv. eauto.
  - intros e' He'. apply Hk. apply elem_of_cons. right. exact He'.
Qed.

Lemma put_entry l m e v :
  separate l -> e ∈ l -> val e = Some v -> foldl put m l !! key e = Some v.
Proof.
  revert m. induction l as [|x l IH]; intros m Hsep Hin Hv; simpl.
  - inversion Hin.
  - apply elem_of_cons in Hin as [->|Hin].
    + rewrite put_other.
      * unfold put. rewrite Hv. apply lookup_insert_eq.
      * intros e' He' Hsome Hkey. destruct Hsep as [Hnd Hsep].
        apply NoDup_cons in Hnd as [Hx _]. apply Hx.
        rewrite <- (Hsep e' x); [exact He' | | | exact Hsome | | exact Hkey].
        -- apply elem_of_cons. right. exact He'.
        -- apply elem_of_cons. left. reflexivity.
        -- rewrite Hv. eauto.
    + apply IH; [exact (separate_cons _ _ Hsep) | exact Hin | exact Hv].
Qed.

Lemma put_found l m k v :
  foldl put m l !! k = Some v ->
  m !! k = Some v \/ exists e, e ∈ l /\ key e = k /\ val e = Some v.
Proof.
  revert m. induction l as [|x l IH]; intros m; simpl; [auto|].
  intros H. apply IH in H as [H|(e & He & Hk & Hv)].
  - unfold put in H. destruct (val x) as [w|] eqn:Hw; [|auto].
    destruct (decide (key x = k)) as [Heq|Hne].
    + rewrite Heq, lookup_insert_eq in H. injection H as <-.
      right. exists x. split; [apply elem_of_cons; left; reflexivity | auto].
    + rewrite lookup_insert_ne in H by exact Hne. auto.
  - right. exists e. split; [apply elem_of_cons; right; exact He | auto].
Qed.

Lemma put_swap m x y :
  (is_Some (val x) -> is_Some (val y) -> key x <> key y) ->
  put (put m x) y = put (put m y) x.
Proof.
  intros Hne. unfold put.
  destruct (val x) as [v|], (val y) as [w|]; try reflexivity.
  apply insert_insert_ne. intros Heq. apply Hne; eauto.
Qed.

Lemma put_permutation l l' :
  Permutation l l' -> forall m, separate l -> foldl put m l = foldl put m l'.
Proof.
  induction 1 as [|x l l' Hp IH|x y l|l l' l'' Hp1 IH1 Hp2 IH2]; intros m Hsep; simpl.
  - reflexivity.
  - apply IH. exact (separate_cons _ _ Hsep).
  - rewrite put_swap; [reflexivity|].
    intros Hy Hx Hkey. destruct Hsep as [Hnd Hsep].
    apply NoDup_cons in Hnd as [Hnot _]. apply Hnot.
    rewrite (Hsep y x); [apply elem_of_cons; left; reflexivity | | | exact Hy | exact Hx | exact Hkey].
    + apply elem_of_cons. left. reflexivity.
    + apply elem_of_cons. right. apply elem_of_cons. left. reflexivity.
  - rewrite IH1 by exact Hsep. apply IH2. exact (separate_Permutation _ _ Hp1 Hsep).
Qed.
End FoldPut.

(** ** Paths of the icon files *)

Lemma append_assoc_s (a b c : string) : (a +:+ b) +:+ c = a +:+ (b +:+ c).
Proof.
  induction a as [|x a IH]; [reflexivity|].
  change (String x ((a +:+ b) +:+ c) = String x (a +:+ (b +:+ c))).
  rewrite IH. reflexivity.
Qed.

Lemma length_append_s (a b : string) :
  String.length (a +:+ b) = (String.length a + String.length b)%nat.
Proof.
  induction a as [|x a IH]; [reflexivity|].
  change (S (String.length (a +:+ b)) = S (String.length a + String.length b)).
  rewrite IH. reflexivity.
Qed.

Lemma CutSuffix_unfold s suffix :
  strings.CutSuffix s suffix =
  if String.eqb s suffix then Some EmptyString
  else match s with
       | EmptyString => None
       | String c s' =>
           match strings.CutSuffix s' suffix with
           | Some before => Some (String c before)
           | None => None
           end
       end.
Proof. destruct s; reflexivity. Qed.

Lemma CutSuffix_append a suffix : strings.CutSuffix (a +:+ suffix) suffix = Some a.
Proof.
  induction a as [|x a IH].
  - change (EmptyString +:+ suffix) with suffix.
    rewrite CutSuffix_unfold, String.eqb_refl. reflexivity.
  - change (String x a +:+ suffix) with (String x (a +:+ suffix)).
    rewrite CutSuffix_unfold, IH.
    destruct (String.eqb_spec (String x (a +:+ suffix)) suffix) as [Heq|_]; [|reflexivity].
    apply (f_equal String.length) in Heq.
    change (S (String.length (a +:+ suffix)) = String.length suffix) in Heq.
    rewrite length_append_s in Heq. lia.
Qed.

Lemma pngOf_svg stem : pngOf (stem +:+ ".svg") = stem +:+ ".png".
Proof. unfold pngOf, strings.TrimSuffix. rewrite CutSuffix_append. reflexivity. Qed.

(** *** Cleaning a path that ends in plain elements *)

(** An element that [Clean] copies as it is. *)
Definition plainElem (e : string) : bool :=
  negb (String.eqb e EmptyString || String.eqb e "." || String.eqb e "..").

(** A relative path that is clean and does not start with [..]. *)
Definition plainPath (s : string) : bool := forallb plainElem (filepath.elements s).

Lemma append_nonempty (pre rel : string) : rel <> EmptyString -> pre +:+ rel <> EmptyString.
Proof.
  intros Hne. destruct pre as [|c pre]; [exact Hne|].
  change (String c pre +:+ rel) with (String c (pre +:+ rel)). discriminate.
Qed.

Lemma elements_nonempty (s : string) : filepath.elements s <> [].
Proof.
  destruct s as [|c s]; cbn [filepath.elements]; [discriminate|].
  destruct (Ascii.eqb c "/"); [discriminate|].
  destruct (filepath.elements s); discriminate.
Qed.

Lemma elements_append (x y : string) :
  filepath.elements (x +:+ "/" +:+ y) = filepath.elements x ++ filepath.elements y.
Proof.
  induction x as [|c x IH].
  - reflexivity.
  - change (String c x +:+ "/" +:+ y) with (String c (x +:+ "/" +:+ y)).
    cbn [filepath.elements]. rewrite IH.
    destruct (Ascii.eqb c "/"); [reflexivity|].
    pose proof (elements_nonempty x) as Hx.
    destruct (filepath.elements x) as [|e rest]; [congruence | reflexivity].
Qed.

Lemma concat_elements (s : string) : String.concat "/" (filepath.elements s) = s.
Proof.
  induction s as [|c s IH]; [reflexivity|].
  cbn [filepath.elements]. pose proof (elements_nonempty s) as Hs.
  destruct (Ascii.eqb_spec c "/") as [->|_].
  - destruct (filepath.elements s) as [|e rest]; [congruence|].
    change (String.concat "/" (EmptyString :: e :: rest))
      with (String "/" (String.concat "/" (e :: rest))).
    rewrite IH. reflexivity.
  - destruct (filepath.elements s) as [|e rest]; [congruence|].
    destruct rest as [|e' rest].
    + change (String c e = String c s). change (e = s) in IH. rewrite IH. reflexivity.
    + change (String.concat "/" (String c e :: e' :: rest))
        with (String c (String.concat "/" (e :: e' :: rest))).
      rewrite IH. reflexivity.
Qed.

Lemma concat_app_s (sep : string) (l l' : list string) :
  l <> [] -> l' <> [] ->
  String.concat sep (l ++ l') = String.concat sep l +:+ sep +:+ String.concat sep l'.
Proof.
  intros Hl Hl'. induction l as [|x l IH]; [congruence|].
  destruct l as [|y l].
  - destruct l' as [|z l']; [congruence | reflexivity].
  - change (String.concat sep ((x :: y :: l) ++ l')) with
      (x +:+ sep +:+ String.concat sep ((y :: l) ++ l')).
    rewrite IH by discriminate.
    change (String.concat sep (x :: y :: l)) with (x +:+ sep +:+ String.concat sep (y :: l)).
    rewrite !append_assoc_s. reflexivity.
Qed.

Lemma cleanStep_plain (rooted : bool) (elems out : list string) :
  forallb plainElem elems = true ->
  fold_left (filepath.cleanStep rooted) elems out = rev elems ++ out.
Proof.
  revert out. induction elems as [|e elems IH]; intros out Hplain; [reflexivity|].
  cbn [forallb] in Hplain. apply andb_prop in Hplain as [He Hrest].
  cbn [fold_left rev]. rewrite (IH _ Hrest), <- app_assoc.
  unfold filepath.cleanStep, plainElem in *.
  destruct (String.eqb e EmptyString); [discriminate He|].
  destruct (String.eqb e "."); [discriminate He|].
  destruct (String.eqb e ".."); [discriminate He|]. reflexivity.
Qed.

Lemma plainPath_nonempty (rel : string) : plainPath rel = true -> rel <> EmptyString.
Proof. intros Hplain ->. discriminate Hplain. Qed.

(** What [Clean] makes of a directory, followed by a separator when an
    element is left. *)
Definition cleanPrefix (dir : string) : string :=
  match dir with
  | EmptyString => EmptyString
  | String c _ =>
      let rooted := Ascii.eqb c "/" in
      (if rooted then "/" else EmptyString) +:+
      match filepath.cleaned rooted dir with
      | [] => EmptyString
      | _ => String.concat "/" (rev (filepath.cleaned rooted dir)) +:+ "/"
      end
  end.

(** [Clean] leaves the plain elements at the end of a path as they
    are, whatever stands before them. *)
Lemma Clean_plain (dir rel : string) :
  dir <> EmptyString -> plainPath rel = true ->
  filepath.Clean (dir +:+ "/" +:+ rel) = cleanPrefix dir +:+ rel.
Proof.
  intros Hdir Hplain. destruct dir as [|c dir]; [congruence|].
  pose proof (plainPath_nonempty rel Hplain) as Hrel.
  change (String c dir +:+ "/" +:+ rel) with (String c (dir +:+ "/" +:+ rel)).
  unfold filepath.Clean, cleanPrefix, filepath.cleaned.
  change (String c (dir +:+ "/" +:+ rel)) with (String c dir +:+ "/" +:+ rel).
  rewrite elements_append, fold_left_app, (cleanStep_plain _ _ _ Hplain), rev_app_distr,
    rev_involutive.
  set (out := fold_left (filepath.cleanStep (Ascii.eqb c "/")) (filepath.elements (String c dir)) []).
  assert (String.concat "/" (rev out ++ filepath.elements rel) =
          match out with
          | [] => EmptyString
          | _ => String.concat "/" (rev out) +:+ "/"
          end +:+ rel) as ->.
  { destruct out as [|top out'].
    - cbn [rev app]. apply concat_elements.
    - rewrite concat_app_s, concat_elements, append_assoc_s.
      + reflexivity.
      + cbn [rev]. destruct (rev out'); discriminate.
      + apply elements_nonempty. }
  destruct (Ascii.eqb c "/").
  - rewrite append_assoc_s. reflexivity.
  - change (EmptyString +:+ ?x) with x.
    pose proof (append_nonempty
                  match out with [] => EmptyString | _ => String.concat "/" (rev out) +:+ "/" end
                  rel Hrel) as Hout.
    destruct (_ +:+ rel); [congruence | reflexivity].
Qed.

(** What [filepath.Join] puts before the file name of an icon. *)
Definition iconPrefix (tmpDir : string) : string :=
  cleanPrefix tmpDir +:+ "adwaita-icon-theme-master-Adwaita/Adwaita/".

Lemma iconPathOf_prefix tmpDir file :
  plainPath file = true -> iconPathOf tmpDir file = iconPrefix tmpDir +:+ file.
Proof.
  intros Hplain. unfold iconPathOf, iconPrefix.
  assert (plainPath ("Adwaita" +:+ "/" +:+ file) = true) as Hrel.
  { unfold plainPath. rewrite elements_append, forallb_app. exact Hplain. }
  destruct tmpDir as [|d tmpDir].
  - cbn [filepath.Join filepath.nonempty].
    change (String.concat "/" ["adwaita-icon-theme-master-Adwaita"; "Adwaita"; file])
      with ("adwaita-icon-theme-master-Adwaita" +:+ "/" +:+ ("Adwaita" +:+ "/" +:+ file)).
    rewrite (Clean_plain "adwaita-icon-theme-master-Adwaita" _ ltac:(discriminate) Hrel).
    reflexivity.
  - cbn [filepath.Join filepath.nonempty].
    change (String.concat "/" [String d tmpDir; "adwaita-icon-theme-master-Adwaita"; "Adwaita"; file])
      with (String d tmpDir +:+ "/" +:+
            ("adwaita-icon-theme-master-Adwaita" +:+ "/" +:+ ("Adwaita" +:+ "/" +:+ file))).
    assert (plainPath ("adwaita-icon-theme-master-Adwaita" +:+ "/" +:+ ("Adwaita" +:+ "/" +:+ file))
            = true) as Hrel'.
    { unfold plainPath. rewrite elements_append, forallb_app. exact Hrel. }
    rewrite (Clean_plain (String d tmpDir) _ ltac:(discriminate) Hrel'), append_assoc_s.
    reflexivity.
Qed.

(** Facts about the table, by evaluation. *)
Definition tableChecks : bool :=
  forallb (fun e =>
    (String.eqb e.2 EmptyString || String.eqb e.2 (strings.TrimSuffix e.2 ".svg" +:+ ".svg")) &&
    forallb (fun e' =>
      negb (String.eqb e.2 (pngOf e'.2)) &&
      implb (forced e.1 && forced e'.1 && String.eqb (pngOf e.2) (pngOf e'.2))
            (String.eqb e.1 e'.1)) iconsToGet) iconsToGet.

Lemma tableChecks_true : tableChecks = true.
Proof. vm_compute. reflexivity. Qed.

Lemma table_entry e :
  e ∈ iconsToGet ->
  (e.2 <> EmptyString -> e.2 = strings.TrimSuffix e.2 ".svg" +:+ ".svg") /\
  (forall e', e' ∈ iconsToGet ->
     e.2 <> pngOf e'.2 /\
     (forced e.1 = true -> forced e'.1 = true -> pngOf e.2 = pngOf e'.2 -> e.1 = e'.1)).
Proof.
  intros He. pose proof tableChecks_true as Hall. unfold tableChecks in Hall.
  rewrite forallb_forall in Hall. apply list_elem_of_In, Hall in He.
  apply andb_prop in He as [Hsvg Hpairs]. split.
  - intros Hne. apply orb_prop in Hsvg as [H|H]; apply String.eqb_eq in H; congruence.
  - intros e' He'. rewrite forallb_forall in Hpairs.
    apply list_elem_of_In, Hpairs in He'. apply andb_prop in He' as [Hneq Himp]. split.
    + apply negb_true_iff, String.eqb_neq in Hneq. exact Hneq.
    + intros Hf Hf' Heq. rewrite Hf, Hf' in Himp. apply String.eqb_eq in Heq.
      rewrite Heq in Himp. apply String.eqb_eq. exact Himp.
Qed.

(** The file names of the table are clean relative paths. *)
Definition plainChecks : bool :=
  forallb (fun e => String.eqb e.2 EmptyString || plainPath e.2) iconsToGet.

Lemma plainChecks_true : plainChecks = true.
Proof. vm_compute. reflexivity. Qed.

Lemma table_plain e : e ∈ iconsToGet -> e.2 <> EmptyString -> plainPath e.2 = true.
Proof.
  intros He Hne. pose proof plainChecks_true as Hall. unfold plainChecks in Hall.
  rewrite forallb_forall in Hall. apply list_elem_of_In, Hall in He.
  apply orb_prop in He as [H|H]; [apply String.eqb_eq in H; congruence | exact H].
Qed.

Lemma iconPathOf_table tmpDir e :
  e ∈ iconsToGet -> e.2 <> EmptyString ->
  iconPathOf tmpDir e.2 = iconPrefix tmpDir +:+ e.2.
Proof. intros He Hne. exact (iconPathOf_prefix tmpDir e.2 (table_plain e He Hne)). Qed.

Section IconPaths.
Context (tmpDir : string).

Lemma pngOf_path e :
  e ∈ iconsToGet -> e.2 <> EmptyString ->
  pngOf (iconPathOf tmpDir e.2) = iconPrefix tmpDir +:+ pngOf e.2.
Proof.
  intros He Hne. destruct (table_entry e He) as [Hsvg _].
  specialize (Hsvg Hne). pose proof (iconPathOf_table tmpDir e He Hne) as Hpath.
  destruct e as [name file]. cbn [fst snd] in *.
  rewrite Hpath.
  remember (strings.TrimSuffix file ".svg") as stem eqn:Hstem. clear Hstem.
  subst file. rewrite <- append_assoc_s, !pngOf_svg, append_assoc_s. reflexivity.
Qed.

(** The file of one icon is not the PNG of another. *)
Lemma svg_not_png e e' :
  e ∈ iconsToGet -> e' ∈ iconsToGet -> e.2 <> EmptyString -> e'.2 <> EmptyString ->
  iconPathOf tmpDir e.2 <> pngOf (iconPathOf tmpDir e'.2).
Proof.
  intros He He' Hne Hne' Heq.
  rewrite (pngOf_path e' He' Hne'), (iconPathOf_table _ e He Hne) in Heq.
  apply (inj (String.app _)) in Heq.
  destruct (table_entry e He) as [_ Hpairs]. destruct (Hpairs e' He') as [Hneq _].
  exact (Hneq Heq).
Qed.

(** Two forced icons have different PNGs. *)
Lemma png_inj e e' :
  e ∈ iconsToGet -> e' ∈ iconsToGet -> e.2 <> EmptyString -> e'.2 <> EmptyString ->
  forced e.1 = true -> forced e'.1 = true ->
  pngOf (iconPathOf tmpDir e.2) = pngOf (iconPathOf tmpDir e'.2) -> e.1 = e'.1.
Proof.
  intros He He' Hne Hne' Hf Hf' Heq.
  rewrite (pngOf_path e He Hne), (pngOf_path e' He' Hne') in Heq.
  apply (inj (String.app _)) in Heq.
  destruct (table_entry e He) as [_ Hpairs]. destruct (Hpairs e' He') as [_ Hinj].
  exact (Hinj Hf Hf' Heq).
Qed.
End IconPaths.

(** ** The icon loop in terms of the files it starts from *)

Section IconClosed.
Context (env : Env) (tmpDir : string) (files0 : gmap string string).

(** The entry has a file and its name is in [forcePNG]. *)
Definition converted (e : string * string) : bool :=
  negb (String.eqb e.2 EmptyString) && forced e.1.

(** The PNG the converter produces from the SVG of the entry. *)
Definition conv (e : string * string) : option string :=
  if String.eqb (inkscape env) EmptyString then None
  else match files0 !! iconPathOf tmpDir e.2 with
       | Some svg => inkscape_export env svg
       | None => None
       end.

(** What the loop writes, and where. *)
Definition writeOf (e : string * string) : option string :=
  if converted e then conv e else None.

Definition writeKey (e : string * string) : string := pngOf (iconPathOf tmpDir e.2).

(** The content the loop loads for the entry. *)
Definition contentOf (e : string * string) : option string :=
  if String.eqb e.2 EmptyString then None
  else if forced e.1 then
         match conv e with
         | Some png => Some png
         | None => files0 !! bundledPath tmpDir e
         end
       else files0 !! bundledPath tmpDir e.

Definition iconOf (e : string * string) : option iconInfo :=
  match contentOf e with
  | Some content => Some (mkIconInfo (filepath.Base (bundledPath tmpDir e)) content)
  | None => None
  end.

(** The files agree with the initial ones wherever the rest of the loop
    reads. *)
Definition untouched (order : list (string * string)) (files : gmap string string) : Prop :=
  (forall e, e ∈ iconsToGet -> e.2 <> EmptyString ->
     files !! iconPathOf tmpDir e.2 = files0 !! iconPathOf tmpDir e.2) /\
  (forall e, e ∈ order -> converted e = true ->
     files !! writeKey e = files0 !! writeKey e).

Lemma converted_inv e : converted e = true -> e.2 <> EmptyString /\ forced e.1 = true.
Proof.
  unfold converted. intros H. apply andb_prop in H as [Hne Hf].
  apply negb_true_iff, String.eqb_neq in Hne. auto.
Qed.

Lemma stepFs_put order e files :
  e ∈ iconsToGet -> untouched (e :: order) files ->
  stepFs env tmpDir e files = put writeKey writeOf files e.
Proof.
  intros He [Hsvg _]. unfold stepFs, put, writeOf, converted, writeKey.
  destruct (String.eqb_spec e.2 EmptyString) as [Hempty|Hne]; [reflexivity|]. cbn [negb andb].
  destruct (forced e.1); [|reflexivity].
  unfold convFs, conv. destruct (String.eqb (inkscape env) EmptyString); [reflexivity|].
  rewrite (Hsvg e He Hne).
  destruct (files0 !! iconPathOf tmpDir e.2) as [svg|]; [|reflexivity].
  destruct (inkscape_export env svg); reflexivity.
Qed.

Lemma stepFs_lookup order e files :
  e ∈ iconsToGet -> untouched (e :: order) files -> e.2 <> EmptyString ->
  stepFs env tmpDir e files !! bundledPath tmpDir e = contentOf e.
Proof.
  intros He Hun Hne. rewrite (stepFs_put order e files He Hun).
  destruct Hun as [Hsvg Hpng].
  unfold put, writeOf, contentOf, converted, bundledPath, writeKey.
  apply String.eqb_neq in Hne as Hneb. rewrite Hneb. cbn [negb andb].
  destruct (forced e.1) eqn:Hf.
  - destruct (conv e) as [png|] eqn:Hconv.
    + apply lookup_insert_eq.
    + apply (Hpng e); [apply elem_of_cons; left; reflexivity|].
      unfold converted. rewrite Hneb, Hf. reflexivity.
  - apply Hsvg; assumption.
Qed.

Lemma stepIcons_put order e files icons :
  e ∈ iconsToGet -> untouched (e :: order) files ->
  stepIcons env tmpDir e files icons = put fst iconOf icons e.
Proof.
  intros He Hun. unfold stepIcons, put, iconOf.
  destruct (String.eqb_spec e.2 EmptyString) as [Hempty|Hne].
  - unfold contentOf. rewrite Hempty. reflexivity.
  - rewrite (stepFs_lookup order e files He Hun Hne).
    destruct (contentOf e); reflexivity.
Qed.

Lemma untouched_step order e files :
  e ∈ iconsToGet -> (forall e', e' ∈ order -> e' ∈ iconsToGet) ->
  e.1 ∉ keys order ->
  untouched (e :: order) files ->
  untouched order (stepFs env tmpDir e files).
Proof.
  intros He Horder Hfresh Hun. rewrite (stepFs_put order e files He Hun).
  destruct Hun as [Hsvg Hpng]. unfold put, writeOf.
  destruct (converted e) eqn:Hc; [|split; [exact Hsvg|]].
  - destruct (converted_inv e Hc) as [Hne Hf].
    destruct (conv e) as [png|]; [|split; [exact Hsvg|]].
    + split.
      * intros e' He' Hne'. rewrite lookup_insert_ne; [apply Hsvg; assumption|].
        intros Heq. exact (svg_not_png tmpDir e' e He' He Hne' Hne (eq_sym Heq)).
      * intros e' He' Hc'. destruct (converted_inv e' Hc') as [Hne' Hf'].
        rewrite lookup_insert_ne.
        -- apply Hpng; [apply elem_of_cons; right; exact He' | exact Hc'].
        -- intros Heq. apply Hfresh.
           rewrite (png_inj tmpDir e e' He (Horder e' He') Hne Hne' Hf Hf' Heq).
           destruct e' as [k v]. exact (in_keys _ _ _ He').
    + intros e' He' Hc'. apply Hpng; [apply elem_of_cons; right; exact He' | exact Hc'].
  - intros e' He' Hc'. apply Hpng; [apply elem_of_cons; right; exact He' | exact Hc'].
Qed.

Lemma runIcons_closed order icons files :
  (forall e, e ∈ order -> e ∈ iconsToGet) -> NoDup (keys order) ->
  untouched order files ->
  (runIcons env tmpDir order icons files).1.1 = foldl (put fst iconOf) icons order /\
  (runIcons env tmpDir order icons files).1.2 = foldl (put writeKey writeOf) files order.
Proof.
  revert icons files. induction order as [|e order IH]; intros icons files Hin Hnd Hun.
  - split; reflexivity.
  - simpl in Hnd. apply NoDup_cons in Hnd as [Hfresh Hnd].
    assert (e ∈ iconsToGet) as He by (apply Hin, elem_of_cons; left; reflexivity).
    assert (forall e', e' ∈ order -> e' ∈ iconsToGet) as Hin'
      by (intros e' He'; apply Hin, elem_of_cons; right; exact He').
    pose proof (untouched_step order e files He Hin' Hfresh Hun) as Hun'.
    cbn [runIcons foldl].
    destruct (IH (stepIcons env tmpDir e files icons) (stepFs env tmpDir e files)
                Hin' Hnd Hun') as [H1 H2].
    destruct (runIcons env tmpDir order _ _) as [[icons' files'] evs].
    cbn [fst snd] in *. rewrite H1, H2.
    rewrite (stepIcons_put order e files icons He Hun), (stepFs_put order e files He Hun).
    split; reflexivity.
Qed.
End IconClosed.

Lemma keys_inj {V} (l : list (string * V)) x y :
  NoDup (keys l) -> x ∈ l -> y ∈ l -> x.1 = y.1 -> x = y.
Proof.
  induction l as [|e l IH]; intros Hnd Hx Hy Hkey; [inversion Hx|].
  simpl in Hnd. apply NoDup_cons in Hnd as [Hfresh Hnd].
  apply elem_of_cons in Hx as [->|Hx]; apply elem_of_cons in Hy as [->|Hy].
  - reflexivity.
  - exfalso. apply Hfresh. rewrite Hkey. destruct y. exact (in_keys _ _ _ Hy).
  - exfalso. apply Hfresh. rewrite <- Hkey. destruct x. exact (in_keys _ _ _ Hx).
  - apply IH; assumption.
Qed.

Lemma keys_NoDup_NoDup {V} (l : list (string * V)) : NoDup (keys l) -> NoDup l.
Proof. unfold keys. apply NoDup_fmap_1. Qed.

Section IconOrder.
Context (env : Env) (tmpDir : string) (files0 : gmap string string).
Context (order : list (string * string)).
Hypothesis Horder : Permutation order iconsToGet.

Lemma order_in e : e ∈ order -> e ∈ iconsToGet.
Proof. rewrite Horder. auto. Qed.

Lemma order_keys_NoDup : NoDup (keys order).
Proof. rewrite (keys_Permutation _ _ Horder). exact iconsToGet_keys_NoDup. Qed.

Lemma separate_icons : separate fst (iconOf env tmpDir files0) order.
Proof.
  split; [exact (keys_NoDup_NoDup _ order_keys_NoDup)|].
  intros x y Hx Hy _ _. apply (keys_inj order); [exact order_keys_NoDup | exact Hx | exact Hy].
Qed.

Lemma writeOf_converted e :
  is_Some (writeOf env tmpDir files0 e) -> converted e = true.
Proof. unfold writeOf. destruct (converted e); [reflexivity | intros [v Hv]; discriminate]. Qed.

Lemma separate_writes : separate (writeKey tmpDir) (writeOf env tmpDir files0) order.
Proof.
  split; [exact (keys_NoDup_NoDup _ order_keys_NoDup)|].
  intros x y Hx Hy Hwx Hwy Hkey.
  destruct (converted_inv x (writeOf_converted x Hwx)) as [Hnx Hfx].
  destruct (converted_inv y (writeOf_converted y Hwy)) as [Hny Hfy].
  apply (keys_inj order); [exact order_keys_NoDup | exact Hx | exact Hy |].
  exact (png_inj tmpDir x y (order_in x Hx) (order_in y Hy) Hnx Hny Hfx Hfy Hkey).
Qed.

Lemma untouched_start : untouched tmpDir files0 order files0.
Proof. split; intros; reflexivity. Qed.

(** The icons and the files at the end of the loop. *)
Definition finalIcons : gmap string iconInfo :=
  foldl (put fst (iconOf env tmpDir files0)) ∅ order.

Definition finalFiles : gmap string string :=
  foldl (put (writeKey tmpDir) (writeOf env tmpDir files0)) files0 order.

Lemma collectIcons_closed st :
  fs st = files0 ->
  exists evs,
    collectIcons env tmpDir order st =
    (Ok finalIcons, mkState finalFiles (trace st ++ evs)) /\
    evs = (runIcons env tmpDir order ∅ files0).2.
Proof.
  intros Hfs. unfold collectIcons. rewrite collectIcons_run, Hfs.
  destruct (runIcons_closed env tmpDir files0 order ∅ files0
              order_in order_keys_NoDup untouched_start) as [H1 H2].
  rewrite H1, H2. eexists. split; reflexivity.
Qed.

(** The file an icon was loaded from still has the loaded content when
    the loop ends. *)
Lemma finalFiles_bundled e :
  e ∈ order -> e.2 <> EmptyString ->
  finalFiles !! bundledPath tmpDir e = contentOf env tmpDir files0 e.
Proof.
  intros He Hne. unfold finalFiles, contentOf, bundledPath.
  apply String.eqb_neq in Hne as Hneb. rewrite Hneb.
  destruct (forced e.1) eqn:Hf.
  - assert (converted e = true) as Hc by (unfold converted; rewrite Hneb, Hf; reflexivity).
    destruct (conv env tmpDir files0 e) as [png|] eqn:Hconv.
    + apply (put_entry _ _ order files0 e png separate_writes He).
      unfold writeOf. rewrite Hc. exact Hconv.
    + apply put_other. intros e' He' Hw Hkey.
      destruct (converted_inv e' (writeOf_converted e' Hw)) as [Hne' Hf'].
      assert (e' = e) as Heq.
      { apply (keys_inj order); [exact order_keys_NoDup | exact He' | exact He |].
        exact (png_inj tmpDir e' e (order_in e' He') (order_in e He) Hne' Hne Hf' Hf Hkey). }
      subst e'. unfold writeOf in Hw. rewrite Hc, Hconv in Hw.
      destruct Hw as [v Hv]. discriminate.
  - apply put_other. intros e' He' Hw Hkey.
    destruct (converted_inv e' (writeOf_converted e' Hw)) as [Hne' _].
    exact (svg_not_png tmpDir e e' (order_in e He) (order_in e' He') Hne Hne' (eq_sym Hkey)).
Qed.
End IconOrder.

(** ** What the icon loop does to the outside world *)

(** The sub-processes run and the resources loaded, in order. *)
Definition execsOf (evs : list event) : list (list string) :=
  omap (fun ev => match ev with ExecRun argv => Some argv | _ => None end) evs.

Definition loadsOf (evs : list event) : list string :=
  omap (fun ev => match ev with LoadResource path => Some path | _ => None end) evs.

Lemma execsOf_app evs evs' : execsOf (evs ++ evs') = execsOf evs ++ execsOf evs'.
Proof. apply omap_app. Qed.

Lemma loadsOf_app evs evs' : loadsOf (evs ++ evs') = loadsOf evs ++ loadsOf evs'.
Proof. apply omap_app. Qed.

Section IconEvents.
Context (env : Env) (tmpDir : string).

Definition execsOfEntry (e : string * string) : list (list string) :=
  if converted e && negb (String.eqb (inkscape env) EmptyString)
  then [inkscapeArgs env (iconPathOf tmpDir e.2)] else [].

Definition loadsOfEntry (e : string * string) : list string :=
  if String.eqb e.2 EmptyString then [] else [bundledPath tmpDir e].

Lemma stepEvents_execs e files :
  execsOf (stepEvents env tmpDir e files) = execsOfEntry e.
Proof.
  unfold stepEvents, execsOfEntry, converted, convEvents.
  destruct (String.eqb e.2 EmptyString); [reflexivity|]. cbn [negb andb].
  rewrite execsOf_app.
  assert (execsOf (LoadResource (bundledPath tmpDir e) ::
            match stepFs env tmpDir e files !! bundledPath tmpDir e with
            | Some _ => []
            | None =>
                [LogPrintln ("Error bundeling " +:+ e.1 +:+ " from " +:+
                   bundledPath tmpDir e +:+ " : " +:+
                   ("open " +:+ bundledPath tmpDir e +:+ ": no such file or directory"))]
            end) = []) as ->.
  { destruct (stepFs env tmpDir e files !! bundledPath tmpDir e); reflexivity. }
  rewrite app_nil_r.
  destruct (forced e.1); [|reflexivity].
  destruct (String.eqb (inkscape env) EmptyString); reflexivity.
Qed.

Lemma stepEvents_loads e files :
  loadsOf (stepEvents env tmpDir e files) = loadsOfEntry e.
Proof.
  unfold stepEvents, loadsOfEntry, convEvents.
  destruct (String.eqb e.2 EmptyString); [reflexivity|].
  rewrite loadsOf_app.
  assert (loadsOf (if forced e.1
                   then if String.eqb (inkscape env) EmptyString then []
                        else [LogPrintln ("Converting " +:+ iconPathOf tmpDir e.2 +:+ " to PNG");
                              ExecRun (inkscapeArgs env (iconPathOf tmpDir e.2))]
                   else []) = []) as ->.
  { destruct (forced e.1); [|reflexivity].
    destruct (String.eqb (inkscape env) EmptyString); reflexivity. }
  destruct (stepFs env tmpDir e files !! bundledPath tmpDir e); reflexivity.
Qed.

Lemma runIcons_execs order icons files :
  execsOf (runIcons env tmpDir order icons files).2 = concat (map execsOfEntry order).
Proof.
  revert icons files. induction order as [|e order IH]; intros icons files; [reflexivity|].
  cbn [runIcons map concat].
  specialize (IH (stepIcons env tmpDir e files icons) (stepFs env tmpDir e files)).
  destruct (runIcons env tmpDir order _ _) as [[icons' files'] evs]. cbn [snd] in *.
  rewrite execsOf_app, stepEvents_execs, IH. reflexivity.
Qed.

Lemma runIcons_loads order icons files :
  loadsOf (runIcons env tmpDir order icons files).2 = concat (map loadsOfEntry order).
Proof.
  revert icons files. induction order as [|e order IH]; intros icons files; [reflexivity|].
  cbn [runIcons map concat].
  specialize (IH (stepIcons env tmpDir e files icons) (stepFs env tmpDir e files)).
  destruct (runIcons env tmpDir order _ _) as [[icons' files'] evs]. cbn [snd] in *.
  rewrite loadsOf_app, stepEvents_loads, IH. reflexivity.
Qed.

Lemma elem_of_execsOf argv evs : argv ∈ execsOf evs <-> ExecRun argv ∈ evs.
Proof.
  unfold execsOf. rewrite list_elem_of_omap. split.
  - intros (ev & Hev & Heq). destruct ev; try discriminate. injection Heq as ->. exact Hev.
  - intros Hev. exists (ExecRun argv). split; [exact Hev | reflexivity].
Qed.

Lemma elem_of_loadsOf path evs : path ∈ loadsOf evs <-> LoadResource path ∈ evs.
Proof.
  unfold loadsOf. rewrite list_elem_of_omap. split.
  - intros (ev & Hev & Heq). destruct ev; try discriminate. injection Heq as ->. exact Hev.
  - intros Hev. exists (LoadResource path). split; [exact Hev | reflexivity].
Qed.

Lemma elem_of_concat_map {T U} (f : T -> list U) (l : list T) (u : U) :
  u ∈ concat (map f l) <-> exists x, x ∈ l /\ u ∈ f x.
Proof.
  induction l as [|x l IH]; cbn [map concat].
  - split; [intros H; inversion H | intros (x & Hx & _); inversion Hx].
  - rewrite elem_of_app, IH. split.
    + intros [Hu|(y & Hy & Hu)].
      * exists x. split; [apply elem_of_cons; left; reflexivity | exact Hu].
      * exists y. split; [apply elem_of_cons; right; exact Hy | exact Hu].
    + intros (y & Hy & Hu). apply elem_of_cons in Hy as [->|Hy]; [left; exact Hu|].
      right. exists y. split; assumption.
Qed.
End IconEvents.

(** No other icon shares its file with an icon of [forcePNG]. *)
Definition forcedFilesApart : bool :=
  forallb (fun e =>
    forallb (fun e' =>
      implb (forced e.1 && negb (forced e'.1)) (negb (String.eqb e.2 e'.2)))
      iconsToGet) iconsToGet.

Lemma forced_file_apart e e' :
  e ∈ iconsToGet -> e' ∈ iconsToGet ->
  forced e.1 = true -> forced e'.1 = false -> e.2 <> e'.2.
Proof.
  intros He He' Hf Hf'.
  assert (forcedFilesApart = true) as Hall by (vm_compute; reflexivity).
  unfold forcedFilesApart in Hall. rewrite forallb_forall in Hall.
  apply list_elem_of_In, Hall in He. rewrite forallb_forall in He.
  apply list_elem_of_In, He in He'. rewrite Hf, Hf' in He'.
  apply negb_true_iff, String.eqb_neq in He'. exact He'.
Qed.

Lemma iconPathOf_inj tmpDir file file' :
  plainPath file = true -> plainPath file' = true ->
  iconPathOf tmpDir file = iconPathOf tmpDir file' -> file = file'.
Proof.
  intros Hne Hne' Heq.
  rewrite (iconPathOf_prefix _ _ Hne), (iconPathOf_prefix _ _ Hne') in Heq.
  exact (inj (String.app _) _ _ Heq).
Qed.

Lemma forced_svg_png tmpDir name file :
  (name, file) ∈ iconsToGet -> file <> EmptyString -> forced name = true ->
  exists stem,
    iconPathOf tmpDir file = stem +:+ ".svg" /\
    bundledPath tmpDir (name, file) = stem +:+ ".png".
Proof.
  intros He Hne Hf. destruct (table_entry _ He) as [Hsvg _]. specialize (Hsvg Hne).
  cbn [fst snd] in Hsvg.
  exists (iconPrefix tmpDir +:+ strings.TrimSuffix file ".svg").
  unfold bundledPath. cbn [fst snd]. rewrite Hf.
  assert (iconPathOf tmpDir file =
          (iconPrefix tmpDir +:+ strings.TrimSuffix file ".svg") +:+ ".svg") as Hpath.
  { rewrite (iconPathOf_table _ _ He Hne). cbn [snd].
    rewrite append_assoc_s, <- Hsvg. reflexivity. }
  split; [exact Hpath|]. rewrite Hpath. apply pngOf_svg.
Qed.

(** C7.  In the icon loop, whatever the order of the iteration: the
    keys of [forcePNG] are [IconNameFileAudio] and
    [IconNameFileApplication]; every sub-process run is the converter on
    the SVG file of an icon of [forcePNG]; for an icon of [forcePNG] the
    path that is loaded is the path of its SVG file with the suffix
    [.svg] replaced by [.png] (and the converter is run on the SVG file
    whenever the converter was found); for every other icon with a file
    the original path is loaded and no sub-process is run on it; and
    nothing else is loaded. *)
Theorem converter_only_for_forcePNG
  (env : Env) (tmpDir : string) (order : list (string * string)) (st : State) :
  Permutation order iconsToGet ->
  keys forcePNG = ["IconNameFileAudio"; "IconNameFileApplication"] /\
  exists icons files evs,
    collectIcons env tmpDir order st = (Ok icons, mkState files (trace st ++ evs)) /\
    (forall argv, ExecRun argv ∈ evs ->
       exists name file, (name, file) ∈ iconsToGet /\ file <> EmptyString /\
         is_Some (mapIndex forcePNG name) /\
         argv = inkscapeArgs env (iconPathOf tmpDir file)) /\
    (forall name file, (name, file) ∈ iconsToGet -> file <> EmptyString ->
       is_Some (mapIndex forcePNG name) ->
       exists stem,
         iconPathOf tmpDir file = stem +:+ ".svg" /\
         bundledPath tmpDir (name, file) = stem +:+ ".png" /\
         LoadResource (stem +:+ ".png") ∈ evs /\
         (inkscape env <> EmptyString ->
          ExecRun (inkscapeArgs env (iconPathOf tmpDir file)) ∈ evs)) /\
    (forall name file, (name, file) ∈ iconsToGet -> file <> EmptyString ->
       mapIndex forcePNG name = None ->
       bundledPath tmpDir (name, file) = iconPathOf tmpDir file /\
       LoadResource (iconPathOf tmpDir file) ∈ evs /\
       ExecRun (inkscapeArgs env (iconPathOf tmpDir file)) ∉ evs) /\
    (forall path, LoadResource path ∈ evs ->
       exists name file, (name, file) ∈ iconsToGet /\ file <> EmptyString /\
         path = bundledPath tmpDir (name, file)).
Proof.
  intros Horder. split; [reflexivity|].
  destruct (collectIcons_closed env tmpDir (fs st) order Horder st eq_refl)
    as (evs & Hrun & Hevs).
  exists (finalIcons env tmpDir (fs st) order), (finalFiles env tmpDir (fs st) order), evs.
  split; [exact Hrun|].
  assert (Hexecs : forall argv, ExecRun argv ∈ evs <->
            exists e, e ∈ iconsToGet /\ argv ∈ execsOfEntry env tmpDir e).
  { intros argv. rewrite <- elem_of_execsOf, Hevs, runIcons_execs, elem_of_concat_map.
    split; intros (e & He & Hargv); exists e; (split; [|exact Hargv]).
    - rewrite <- Horder. exact He.
    - rewrite Horder. exact He. }
  assert (Hloads : forall path, LoadResource path ∈ evs <->
            exists e, e ∈ iconsToGet /\ path ∈ loadsOfEntry tmpDir e).
  { intros path. rewrite <- elem_of_loadsOf, Hevs, runIcons_loads, elem_of_concat_map.
    split; intros (e & He & Hpath); exists e; (split; [|exact Hpath]).
    - rewrite <- Horder. exact He.
    - rewrite Horder. exact He. }
  assert (Hforced : forall name, is_Some (mapIndex forcePNG name) <-> forced name = true).
  { intros name. unfold forced. destruct (mapIndex forcePNG name); split;
      try reflexivity; try discriminate; eauto. intros [v Hv]. discriminate. }
  assert (HexecInv : forall argv, ExecRun argv ∈ evs ->
       exists name file, (name, file) ∈ iconsToGet /\ file <> EmptyString /\
         forced name = true /\ argv = inkscapeArgs env (iconPathOf tmpDir file)).
  { intros argv Hargv. apply Hexecs in Hargv as ([name file] & He & Hargv).
    unfold execsOfEntry in Hargv.
    destruct (converted (name, file)) eqn:Hc; [|inversion Hargv].
    destruct (converted_inv _ Hc) as [Hne Hf].
    destruct (negb (String.eqb (inkscape env) EmptyString)); [|inversion Hargv].
    apply list_elem_of_singleton in Hargv. exists name, file. auto. }
  split; [|split; [|split]].
  - intros argv Hargv. destruct (HexecInv argv Hargv) as (name & file & He & Hne & Hf & ->).
    exists name, file. rewrite Hforced. auto.
  - intros name file He Hne Hf. apply Hforced in Hf.
    destruct (forced_svg_png tmpDir name file He Hne Hf) as (stem & Hsvg & Hpng).
    exists stem. split; [exact Hsvg|]. split; [exact Hpng|]. split.
    + apply Hloads. exists (name, file). split; [exact He|].
      unfold loadsOfEntry. cbn [snd]. apply String.eqb_neq in Hne. rewrite Hne, Hpng.
      apply list_elem_of_singleton. reflexivity.
    + intros Hink. apply Hexecs. exists (name, file). split; [exact He|].
      unfold execsOfEntry, converted. cbn [fst snd].
      apply String.eqb_neq in Hne, Hink. rewrite Hne, Hink, Hf.
      apply list_elem_of_singleton. reflexivity.
  - intros name file He Hne Hnone.
    assert (forced name = false) as Hf by (unfold forced; rewrite Hnone; reflexivity).
    assert (bundledPath tmpDir (name, file) = iconPathOf tmpDir file) as Hb
      by (unfold bundledPath; cbn [fst snd]; rewrite Hf; reflexivity).
    split; [exact Hb|]. split.
    + apply Hloads. exists (name, file). split; [exact He|].
      unfold loadsOfEntry. cbn [snd]. apply String.eqb_neq in Hne. rewrite Hne, Hb.
      apply list_elem_of_singleton. reflexivity.
    + intros Hargv. destruct (HexecInv _ Hargv) as (name' & file' & He' & Hne' & Hf' & Heq).
      injection Heq as Heq.
      apply (iconPathOf_inj tmpDir _ _ (table_plain _ He Hne) (table_plain _ He' Hne')) in Heq.
      exact (forced_file_apart (name', file') (name, file) He' He Hf' Hf (eq_sym Heq)).
  - intros path Hpath. apply Hloads in Hpath as ([name file] & He & Hpath).
    unfold loadsOfEntry in Hpath. cbn [snd] in Hpath.
    destruct (String.eqb_spec file EmptyString) as [Hempty|Hne]; [inversion Hpath|].
    apply list_elem_of_singleton in Hpath. exists name, file. auto.
Qed.

(** The files on disk once the sample archive is extracted. *)
Definition sampleExtracted : State :=
  (extract Sample.env "/tmp/adwaita1" Sample.members None Sample.start).2.

Lemma converter_only_for_forcePNG_witness :
  keys forcePNG = ["IconNameFileAudio"; "IconNameFileApplication"] /\
  exists icons files evs,
    collectIcons Sample.env "/tmp/adwaita1" iconsToGet sampleExtracted =
      (Ok icons, mkState files (trace sampleExtracted ++ evs)) /\
    (forall argv, ExecRun argv ∈ evs ->
       exists name file, (name, file) ∈ iconsToGet /\ file <> EmptyString /\
         is_Some (mapIndex forcePNG name) /\
         argv = inkscapeArgs Sample.env (iconPathOf "/tmp/adwaita1" file)) /\
    (forall name file, (name, file) ∈ iconsToGet -> file <> EmptyString ->
       is_Some (mapIndex forcePNG name) ->
       exists stem,
         iconPathOf "/tmp/adwaita1" file = stem +:+ ".svg" /\
         bundledPath "/tmp/adwaita1" (name, file) = stem +:+ ".png" /\
         LoadResource (stem +:+ ".png") ∈ evs /\
         (inkscape Sample.env <> EmptyString ->
          ExecRun (inkscapeArgs Sample.env (iconPathOf "/tmp/adwaita1" file)) ∈ evs)) /\
    (forall name file, (name, file) ∈ iconsToGet -> file <> EmptyString ->
       mapIndex forcePNG name = None ->
       bundledPath "/tmp/adwaita1" (name, file) = iconPathOf "/tmp/adwaita1" file /\
       LoadResource (iconPathOf "/tmp/adwaita1" file) ∈ evs /\
       ExecRun (inkscapeArgs Sample.env (iconPathOf "/tmp/adwaita1" file)) ∉ evs) /\
    (forall path, LoadResource path ∈ evs ->
       exists name file, (name, file) ∈ iconsToGet /\ file <> EmptyString /\
         path = bundledPath "/tmp/adwaita1" (name, file)).
Proof.
  exact (converter_only_for_forcePNG Sample.env "/tmp/adwaita1" iconsToGet sampleExtracted
           (Permutation_refl _)).
Defined.

(** C8.  Every record the icon loop stores comes from an entry of
    [iconsToGet] with a file: the resource was loaded from the bundled
    path of that entry, the [StaticName] of the record is the base name
    of that path, and its [Content] is the content of the file at that
    path. *)
Theorem bundled_icon_is_loaded_file
  (env : Env) (tmpDir : string) (order : list (string * string)) (st st' : State)
  (icons : gmap string iconInfo) :
  Permutation order iconsToGet ->
  collectIcons env tmpDir order st = (Ok icons, st') ->
  forall name info, icons !! name = Some info ->
    exists file,
      (name, file) ∈ iconsToGet /\ file <> EmptyString /\
      LoadResource (bundledPath tmpDir (name, file)) ∈ trace st' /\
      StaticName info = filepath.Base (bundledPath tmpDir (name, file)) /\
      fs st' !! bundledPath tmpDir (name, file) = Some (Content info).
Proof.
  intros Horder Hrun name info Hinfo.
  destruct (collectIcons_closed env tmpDir (fs st) order Horder st eq_refl)
    as (evs & Hrun' & Hevs).
  rewrite Hrun in Hrun'. injection Hrun' as -> ->.
  apply put_found in Hinfo as [Hinfo|([name' file] & He & Hkey & Hicon)].
  { rewrite lookup_empty in Hinfo. discriminate. }
  cbn [fst] in Hkey. subst name'. exists file.
  unfold iconOf in Hicon.
  destruct (contentOf env tmpDir (fs st) (name, file)) as [content|] eqn:Hcontent;
    [|discriminate].
  injection Hicon as <-.
  assert (file <> EmptyString) as Hne.
  { intros ->. unfold contentOf in Hcontent. discriminate. }
  split; [rewrite <- Horder; exact He|]. split; [exact Hne|]. split; [|split].
  - cbn [trace]. apply elem_of_app. right.
    apply elem_of_loadsOf. rewrite Hevs, runIcons_loads. apply elem_of_concat_map.
    exists (name, file). split; [exact He|].
    unfold loadsOfEntry. cbn [snd]. apply String.eqb_neq in Hne. rewrite Hne.
    apply list_elem_of_singleton. reflexivity.
  - reflexivity.
  - cbn [fs Content]. rewrite <- Hcontent.
    exact (finalFiles_bundled env tmpDir (fs st) order Horder (name, file) He Hne).
Qed.

Lemma sample_icons_run :
  collectIcons Sample.env "/tmp/adwaita1" iconsToGet sampleExtracted =
  (Ok (finalIcons Sample.env "/tmp/adwaita1" (fs sampleExtracted) iconsToGet),
   (collectIcons Sample.env "/tmp/adwaita1" iconsToGet sampleExtracted).2).
Proof.
  destruct (collectIcons_closed Sample.env "/tmp/adwaita1" (fs sampleExtracted)
              iconsToGet (Permutation_refl _) sampleExtracted eq_refl) as (evs & Hrun & _).
  rewrite Hrun. reflexivity.
Defined.

Lemma bundled_icon_is_loaded_file_witness :
  exists file,
    ("IconNameFileAudio", file) ∈ iconsToGet /\ file <> EmptyString /\
    LoadResource (bundledPath "/tmp/adwaita1" ("IconNameFileAudio", file))
      ∈ trace (collectIcons Sample.env "/tmp/adwaita1" iconsToGet sampleExtracted).2 /\
    StaticName (mkIconInfo "audio-x-generic.png" "PNG of <svg>audio</svg>") =
      filepath.Base (bundledPath "/tmp/adwaita1" ("IconNameFileAudio", file)) /\
    fs (collectIcons Sample.env "/tmp/adwaita1" iconsToGet sampleExtracted).2
      !! bundledPath "/tmp/adwaita1" ("IconNameFileAudio", file) =
    Some (Content (mkIconInfo "audio-x-generic.png" "PNG of <svg>audio</svg>")).
Proof.
  apply (bundled_icon_is_loaded_file Sample.env "/tmp/adwaita1" iconsToGet sampleExtracted
           _ _ (Permutation_refl _) sample_icons_run "IconNameFileAudio").
  vm_compute. reflexivity.
Defined.

(** ** Runs that differ only in the order of iteration *)

(** Two outcomes are alike when both are the same value or both are
    failures. *)
Definition alike {T} (r1 r2 : result T) : Prop :=
  match r1, r2 with
  | Ok a, Ok b => a = b
  | Ok _, _ => False
  | _, Ok _ => False
  | _, _ => True
  end.

(** Two computations are alike when, started on the same files, they
    end alike and leave the same files. *)
Definition sameFiles {T} (m1 m2 : M T) : Prop :=
  forall s1 s2, fs s1 = fs s2 ->
    alike (m1 s1).1 (m2 s2).1 /\ fs (m1 s1).2 = fs (m2 s2).2.

Lemma alike_refl {T} (r : result T) : alike r r.
Proof. destruct r; simpl; auto. Qed.

Lemma alike_wrap {T} msg msg' (r1 r2 : result T) :
  alike r1 r2 -> alike (wrap msg r1) (wrap msg' r2).
Proof. destruct r1, r2; simpl; auto. Qed.

Lemma sameFiles_lift {T} (r1 r2 : result T) : alike r1 r2 -> sameFiles (lift r1) (lift r2).
Proof. intros Hr s1 s2 Hfs. unfold lift. simpl. auto. Qed.

Lemma sameFiles_ret {T} (v : T) : sameFiles (ret v) (ret v).
Proof. intros s1 s2 Hfs. unfold ret. simpl. auto. Qed.

Lemma sameFiles_emit ev1 ev2 : sameFiles (emit ev1) (emit ev2).
Proof. intros s1 s2 Hfs. unfold emit, emitted. simpl. auto. Qed.

Lemma sameFiles_bind {T U} (m1 m2 : M T) (k1 k2 : T -> M U) :
  sameFiles m1 m2 -> (forall v, sameFiles (k1 v) (k2 v)) ->
  sameFiles (bind m1 k1) (bind m2 k2).
Proof.
  intros Hm Hk s1 s2 Hfs. unfold bind.
  destruct (Hm s1 s2 Hfs) as [Hr Hfs'].
  destruct (m1 s1) as [r1 s1'], (m2 s2) as [r2 s2']. simpl in Hr, Hfs'.
  destruct r1 as [v1| |], r2 as [v2| |]; simpl in Hr; try contradiction; simpl; auto.
  subst v2. apply Hk. exact Hfs'.
Qed.

Lemma sameFiles_wrapM {T} msg msg' (m1 m2 : M T) :
  sameFiles m1 m2 -> sameFiles (wrapM msg m1) (wrapM msg' m2).
Proof.
  intros Hm s1 s2 Hfs. unfold wrapM. destruct (Hm s1 s2 Hfs) as [Hr Hfs'].
  destruct (m1 s1) as [r1 s1'], (m2 s2) as [r2 s2']. simpl in *.
  split; [apply alike_wrap; exact Hr | exact Hfs'].
Qed.

Lemma sameFiles_deferred {T} (c1 c2 : State -> State) (m1 m2 : M T) :
  (forall s1 s2, fs s1 = fs s2 -> fs (c1 s1) = fs (c2 s2)) ->
  sameFiles m1 m2 -> sameFiles (deferred c1 m1) (deferred c2 m2).
Proof.
  intros Hc Hm s1 s2 Hfs. unfold deferred. destruct (Hm s1 s2 Hfs) as [Hr Hfs'].
  destruct (m1 s1) as [r1 s1'], (m2 s2) as [r2 s2']. simpl in *.
  split; [exact Hr | apply Hc; exact Hfs'].
Qed.

Lemma forallb_Permutation {T} (f : T -> bool) l l' :
  Permutation l l' -> forallb f l = forallb f l'.
Proof.
  induction 1 as [|x l l' _ IH|x y l|l l' l'' _ IH1 _ IH2]; simpl.
  - reflexivity.
  - rewrite IH. reflexivity.
  - destruct (f x), (f y); reflexivity.
  - rewrite IH1. exact IH2.
Qed.

Section OrderFacts.
Context (lib : GoLib) (env : Env).

Lemma collectSchemes_order rows wo so wo' so' :
  Permutation wo colorToGet -> Permutation so standardColorToGet ->
  Permutation wo' colorToGet -> Permutation so' standardColorToGet ->
  alike (collectSchemes lib rows wo so) (collectSchemes lib rows wo' so').
Proof.
  intros Hwo Hso Hwo' Hso'.
  assert (Permutation wo wo') as Hw by (rewrite Hwo, Hwo'; reflexivity).
  assert (Permutation so so') as Hs by (rewrite Hso, Hso'; reflexivity).
  pose proof (collectSchemes_is_Ok lib rows wo so) as H1.
  pose proof (collectSchemes_is_Ok lib rows wo' so') as H2.
  assert (allOk lib rows wo so = allOk lib rows wo' so') as Hall.
  { unfold allOk. rewrite (forallb_Permutation _ _ _ Hw), (forallb_Permutation _ _ _ Hs).
    reflexivity. }
  destruct (collectSchemes lib rows wo so) as [d1| |] eqn:Hc1;
    destruct (collectSchemes lib rows wo' so') as [d2| |] eqn:Hc2;
    simpl in *; try exact I; try congruence.
  apply collectSchemes_Ok in Hc1 as [_ ->]. apply collectSchemes_Ok in Hc2 as [_ ->].
  unfold storedSchemes.
  rewrite (store_permutation _ _ _ Hw) by exact (wo_keys_NoDup wo Hwo).
  apply store_permutation; [exact Hs | exact (so_keys_NoDup so Hso)].
Qed.

Lemma sameFiles_writeFile name data : sameFiles (os_writeFile env name data) (os_writeFile env name data).
Proof.
  intros s1 s2 Hfs. unfold os_writeFile, failedWrite, bind, emit, emitted, lift, stored; simpl.
  destruct (os_WriteFile env name); simpl; [|rewrite Hfs; auto].
  destruct (os_WriteFile_partial env name data); simpl; [rewrite Hfs|]; auto.
Qed.

Lemma sameFiles_create name : sameFiles (os_create env name) (os_create env name).
Proof.
  intros s1 s2 Hfs. unfold os_create, bind, emit, emitted, lift, stored; simpl.
  destruct (os_Create env name); simpl; [auto|]. rewrite Hfs. auto.
Qed.

Lemma sameFiles_copy target member : sameFiles (io_copy target member) (io_copy target member).
Proof.
  intros s1 s2 Hfs. unfold io_copy, stored; simpl. rewrite Hfs.
  split; [apply alike_refl | reflexivity].
Qed.

Lemma sameFiles_extract tmpDir members ending :
  sameFiles (extract env tmpDir members ending) (extract env tmpDir members ending).
Proof.
  induction members as [|member rest IH]; cbn [extract].
  - apply sameFiles_lift, alike_refl.
  - apply sameFiles_bind; [|intros _; exact IH].
    destruct (Typeflag (Header member) =? tar_TypeReg); [|apply sameFiles_ret].
    apply sameFiles_bind; [apply sameFiles_lift, alike_refl|]. intros _.
    apply sameFiles_bind; [apply sameFiles_create|]. intros _. apply sameFiles_copy.
Qed.

Lemma sameFiles_collectIcons tmpDir order order' :
  Permutation order iconsToGet -> Permutation order' iconsToGet ->
  sameFiles (collectIcons env tmpDir order) (collectIcons env tmpDir order').
Proof.
  intros Ho Ho' s1 s2 Hfs.
  destruct (collectIcons_closed env tmpDir (fs s1) order Ho s1 eq_refl) as (evs1 & -> & _).
  destruct (collectIcons_closed env tmpDir (fs s1) order' Ho' s2 (eq_sym Hfs)) as (evs2 & -> & _).
  assert (Permutation order order') as Hp by (rewrite Ho, Ho'; reflexivity).
  unfold finalIcons, finalFiles. cbn [fst snd fs alike]. split.
  - apply put_permutation; [exact Hp | exact (separate_icons env tmpDir (fs s1) order Ho)].
  - apply put_permutation; [exact Hp | exact (separate_writes env tmpDir (fs s1) order Ho)].
Qed.

Lemma sameFiles_generateColorScheme wo so wo' so' :
  Permutation wo colorToGet -> Permutation so standardColorToGet ->
  Permutation wo' colorToGet -> Permutation so' standardColorToGet ->
  sameFiles (generateColorScheme lib env wo so) (generateColorScheme lib env wo' so').
Proof.
  intros Hwo Hso Hwo' Hso'. unfold generateColorScheme.
  apply sameFiles_bind.
  { apply sameFiles_wrapM. unfold http_get. apply sameFiles_bind; [apply sameFiles_emit|].
    intros _. apply sameFiles_lift, alike_refl. }
  intros reps. apply sameFiles_deferred; [intros s1 s2 Hfs; exact Hfs|].
  apply sameFiles_bind; [apply sameFiles_lift, alike_refl|]. intros htpage.
  apply sameFiles_bind.
  { apply sameFiles_lift, collectSchemes_order; assumption. }
  intros data. apply sameFiles_bind; [apply sameFiles_lift, alike_refl|]. intros _.
  apply sameFiles_bind; [apply sameFiles_lift, alike_refl|]. intros buffer.
  apply sameFiles_bind; [apply sameFiles_lift, alike_refl|]. intros formatted.
  apply sameFiles_writeFile.
Qed.

Lemma sameFiles_generateIcons order order' :
  Permutation order iconsToGet -> Permutation order' iconsToGet ->
  sameFiles (generateIcons lib env order) (generateIcons lib env order').
Proof.
  intros Ho Ho'. unfold generateIcons.
  apply sameFiles_bind.
  { unfold http_get. apply sameFiles_bind; [apply sameFiles_emit|].
    intros _. apply sameFiles_lift, alike_refl. }
  intros resp. apply sameFiles_deferred; [intros s1 s2 Hfs; exact Hfs|].
  destruct (tar_members lib resp) as [members ending].
  apply sameFiles_bind.
  { unfold os_mkdirTemp. apply sameFiles_bind; [apply sameFiles_lift, alike_refl|].
    intros dir. apply sameFiles_bind; [apply sameFiles_emit | intros _; apply sameFiles_ret]. }
  intros tmpDir. apply sameFiles_deferred.
  { intros s1 s2 Hfs. unfold os_removeAll, emitted. cbn [fs]. rewrite Hfs. reflexivity. }
  apply sameFiles_bind; [apply sameFiles_extract|]. intros _.
  apply sameFiles_bind; [apply sameFiles_collectIcons; assumption|]. intros icons.
  apply sameFiles_bind; [apply sameFiles_lift, alike_refl|]. intros _.
  apply sameFiles_bind; [apply sameFiles_lift, alike_refl|]. intros buffer.
  apply sameFiles_bind; [apply sameFiles_lift, alike_refl|]. intros formatted.
  apply sameFiles_writeFile.
Qed.
End OrderFacts.

#[local] Instance keyLe_total {V} : Total (@keyLe V).
Proof. intros a b. unfold keyLe. apply (total String.le). Qed.

(** A template prints the entries of a map in the order of their keys,
    whatever way the map was filled. *)
Lemma templateRange_sorted {V} (m : gmap string V) :
  Sorted keyLe (templateRange m) /\ Permutation (templateRange m) (map_to_list m).
Proof.
  unfold templateRange. split; [apply Sorted_merge_sort; apply _ | apply merge_sort_Permutation].
Qed.

Lemma main_files lib env o st :
  fs (main lib env o st).2 =
  match generateColorScheme lib env (widgetOrder o) (standardOrder o) st with
  | (Ok _, st1) => fs (generateIcons lib env (iconOrder o) st1).2
  | (_, st1) => fs st1
  end.
Proof.
  unfold main, log_Fatal, emitted.
  destruct (generateColorScheme lib env (widgetOrder o) (standardOrder o) st) as [[u| |] st1];
    try reflexivity.
  destruct (generateIcons lib env (iconOrder o) st1) as [[u'| |] st2]; reflexivity.
Qed.

(** C2.  Two runs on the same inputs (the same answers of the outside
    world, the same files on disk) that differ in the order in which the
    [range] statements visit [colorToGet], [standardColorToGet] and
    [iconsToGet] leave the same files: in particular the two generated
    source files are byte for byte the same, or absent in both runs.
    The template prints each map in the ascending order of its keys. *)
Theorem generation_is_deterministic
  (lib : GoLib) (env : Env) (o1 o2 : Orders) (st : State) :
  validOrders o1 -> validOrders o2 ->
  fs (main lib env o1 st).2 = fs (main lib env o2 st).2 /\
  fs (main lib env o1 st).2 !! colorSchemeOutput =
    fs (main lib env o2 st).2 !! colorSchemeOutput /\
  fs (main lib env o1 st).2 !! iconsOutput =
    fs (main lib env o2 st).2 !! iconsOutput /\
  (forall m : gmap string colorInfo, Sorted keyLe (templateRange m)) /\
  (forall m : gmap string iconInfo, Sorted keyLe (templateRange m)).
Proof.
  intros (Hw1 & Hs1 & Hi1) (Hw2 & Hs2 & Hi2).
  assert (fs (main lib env o1 st).2 = fs (main lib env o2 st).2) as Hfs.
  { rewrite !main_files.
    destruct (sameFiles_generateColorScheme lib env _ _ _ _ Hw1 Hs1 Hw2 Hs2 st st eq_refl)
      as [Hr Hfs].
    destruct (generateColorScheme lib env (widgetOrder o1) (standardOrder o1) st)
      as [r1 st1].
    destruct (generateColorScheme lib env (widgetOrder o2) (standardOrder o2) st)
      as [r2 st2].
    cbn [fst snd] in Hr, Hfs.
    destruct r1 as [u1| |], r2 as [u2| |]; cbn [alike] in Hr; try contradiction;
      try exact Hfs.
    exact (proj2 (sameFiles_generateIcons lib env _ _ Hi1 Hi2 st1 st2 Hfs)). }
  split; [exact Hfs|]. rewrite Hfs.
  split; [reflexivity|]. split; [reflexivity|].
  split; intros m; apply templateRange_sorted.
Qed.

Definition reversedOrders : Orders :=
  mkOrders (rev colorToGet) (rev standardColorToGet) (rev iconsToGet).

Lemma sourceOrders_valid : validOrders sourceOrders.
Proof. repeat split; apply Permutation_refl. Defined.

Lemma reversedOrders_valid : validOrders reversedOrders.
Proof. repeat split; apply Permutation_sym, Permutation_rev. Defined.

Lemma generation_is_deterministic_witness :
  fs (main Sample.lib Sample.env sourceOrders Sample.start).2 =
    fs (main Sample.lib Sample.env reversedOrders Sample.start).2 /\
  fs (main Sample.lib Sample.env sourceOrders Sample.start).2 !! colorSchemeOutput =
    fs (main Sample.lib Sample.env reversedOrders Sample.start).2 !! colorSchemeOutput /\
  fs (main Sample.lib Sample.env sourceOrders Sample.start).2 !! iconsOutput =
    fs (main Sample.lib Sample.env reversedOrders Sample.start).2 !! iconsOutput /\
  (forall m : gmap string colorInfo, Sorted keyLe (templateRange m)) /\
  (forall m : gmap string iconInfo, Sorted keyLe (templateRange m)).
Proof.
  exact (generation_is_deterministic Sample.lib Sample.env sourceOrders reversedOrders
           Sample.start sourceOrders_valid reversedOrders_valid).
Defined.

Example sample_run_writes_both_files :
  is_Some (fs (main Sample.lib Sample.env sourceOrders Sample.start).2 !! colorSchemeOutput) /\
  is_Some (fs (main Sample.lib Sample.env sourceOrders Sample.start).2 !! iconsOutput) /\
  trace (main Sample.lib Sample.env sourceOrders Sample.start).2 <>
    trace (main Sample.lib Sample.env reversedOrders Sample.start).2.
Proof.
  split; [vm_compute; eauto|]. split; [vm_compute; eauto|].
  intros Heq. apply (f_equal (fun evs => evs !! 7%nat)) in Heq.
  vm_compute in Heq. discriminate Heq.
Qed.

(** ** Which events a computation can emit *)

(** Every event the computation adds to the trace satisfies [ok]. *)
Definition emitsOnly {T} (ok : event -> bool) (m : M T) : Prop :=
  forall st, exists evs, trace (m st).2 = trace st ++ evs /\ forallb ok evs = true.

Section EmitsOnly.
Context (ok : event -> bool).

Lemma emitsOnly_ret {T} (v : T) : emitsOnly ok (ret v).
Proof. intros st. exists []. rewrite app_nil_r. split; reflexivity. Qed.

Lemma emitsOnly_lift {T} (r : result T) : emitsOnly ok (lift r).
Proof. intros st. exists []. rewrite app_nil_r. split; reflexivity. Qed.

Lemma emitsOnly_emit ev : ok ev = true -> emitsOnly ok (emit ev).
Proof. intros Hev st. exists [ev]. simpl. rewrite Hev. split; reflexivity. Qed.

Lemma emitsOnly_bind {T U} (m : M T) (k : T -> M U) :
  emitsOnly ok m -> (forall v, emitsOnly ok (k v)) -> emitsOnly ok (bind m k).
Proof.
  intros Hm Hk st. unfold bind. destruct (Hm st) as (evs & Htr & Hok).
  destruct (m st) as [[v| |] st1]; cbn [snd] in Htr; try (exists evs; split; assumption).
  destruct (Hk v st1) as (evs' & Htr' & Hok').
  exists (evs ++ evs'). rewrite Htr', Htr, app_assoc, forallb_app, Hok, Hok'.
  split; reflexivity.
Qed.

Lemma emitsOnly_wrapM {T} msg (m : M T) : emitsOnly ok m -> emitsOnly ok (wrapM msg m).
Proof.
  intros Hm st. unfold wrapM. destruct (Hm st) as (evs & Htr & Hok).
  destruct (m st) as [r st1]. exists evs. split; assumption.
Qed.

Lemma emitsOnly_discard (m : M unit) : emitsOnly ok m -> emitsOnly ok (discard m).
Proof.
  intros Hm st. unfold discard. destruct (Hm st) as (evs & Htr & Hok).
  destruct (m st) as [[v| |] st1]; exists evs; split; assumption.
Qed.

Lemma emitsOnly_state {T} (f : State -> result T * gmap string string) :
  emitsOnly ok (fun st => ((f st).1, mkState (f st).2 (trace st))).
Proof. intros st. exists []. rewrite app_nil_r. split; reflexivity. Qed.

Lemma emitsOnly_ext {T} (m m' : M T) :
  (forall st, m st = m' st) -> emitsOnly ok m -> emitsOnly ok m'.
Proof. intros Hext Hm st. rewrite <- Hext. apply Hm. Qed.

Lemma emitsOnly_rangeM {T S} (body : S -> T -> M S) order s :
  (forall s x, emitsOnly ok (body s x)) -> emitsOnly ok (rangeM body order s).
Proof.
  intros Hbody. revert s. induction order as [|x order IH]; intros s; cbn [rangeM].
  - apply emitsOnly_ret.
  - apply emitsOnly_bind; [apply Hbody | intros s'; apply IH].
Qed.
End EmitsOnly.

Definition isGet (ev : event) : bool :=
  match ev with HttpGet _ => true | _ => false end.

Definition isWrite (ev : event) : bool :=
  match ev with WriteFile _ _ => true | _ => false end.

(** The deferred closing of a response body changes nothing that the
    state records. *)
Lemma deferred_Body_Close {T} (resp : Response) (m : M T) (st : State) :
  deferred (Body_Close resp) m st = m st.
Proof. unfold deferred, Body_Close. destruct (m st); reflexivity. Qed.

Lemma bind_deferred_close {T} (m : M Response) (k : Response -> M T) (st : State) :
  bind m (fun resp => deferred (Body_Close resp) (k resp)) st = bind m k st.
Proof.
  unfold bind. destruct (m st) as [[resp| |] s]; try reflexivity.
  apply deferred_Body_Close.
Qed.

Section GeneratorEvents.
Context (lib : GoLib) (env : Env) (ok : event -> bool).
(** [ok] lets through whatever is neither a request nor the writing of
    an output file. *)
Hypothesis Hlocal : forall ev, isGet ev = false -> isWrite ev = false -> ok ev = true.

Lemma emitsOnly_writeFile name data :
  ok (WriteFile name data) = true -> emitsOnly ok (os_writeFile env name data).
Proof.
  intros Hev st. exists [WriteFile name data].
  unfold os_writeFile, failedWrite, bind, emit, emitted, lift, stored. cbn [forallb].
  rewrite Hev. destruct (os_WriteFile env name); [|split; reflexivity].
  destruct (os_WriteFile_partial env name data); split; reflexivity.
Qed.

Lemma emitsOnly_create name : emitsOnly ok (os_create env name).
Proof.
  intros st. exists [CreateFile name].
  unfold os_create, bind, emit, emitted, lift, stored. cbn [forallb].
  rewrite (Hlocal (CreateFile name) eq_refl eq_refl).
  destruct (os_Create env name); split; reflexivity.
Qed.

Lemma emitsOnly_copy target member : emitsOnly ok (io_copy target member).
Proof. intros st. exists []. unfold io_copy, stored. cbn. rewrite app_nil_r. split; reflexivity. Qed.

Lemma emitsOnly_extract tmpDir members ending :
  emitsOnly ok (extract env tmpDir members ending).
Proof.
  induction members as [|member rest IH]; cbn [extract].
  - apply emitsOnly_lift.
  - apply emitsOnly_bind; [|intros _; exact IH].
    destruct (Typeflag (Header member) =? tar_TypeReg); [|apply emitsOnly_ret].
    apply emitsOnly_bind; [apply emitsOnly_lift|]. intros _.
    apply emitsOnly_bind; [apply emitsOnly_create | intros _; apply emitsOnly_copy].
Qed.

Lemma stepEvents_local tmpDir e files :
  forallb ok (stepEvents env tmpDir e files) = true.
Proof.
  unfold stepEvents, convEvents.
  destruct (String.eqb e.2 EmptyString); [reflexivity|].
  rewrite forallb_app. apply andb_true_intro. split.
  - destruct (forced e.1); [|reflexivity].
    destruct (String.eqb (inkscape env) EmptyString); [reflexivity|].
    cbn [forallb]. rewrite !Hlocal by reflexivity. reflexivity.
  - cbn [forallb]. rewrite Hlocal by reflexivity.
    destruct (stepFs env tmpDir e files !! bundledPath tmpDir e); [reflexivity|].
    cbn [forallb]. rewrite Hlocal by reflexivity. reflexivity.
Qed.

Lemma emitsOnly_collectIcons tmpDir order : emitsOnly ok (collectIcons env tmpDir order).
Proof.
  unfold collectIcons. apply emitsOnly_rangeM. intros icons e st.
  rewrite iconBody_step. exists (stepEvents env tmpDir e (fs st)).
  split; [reflexivity | apply stepEvents_local].
Qed.

Lemma emitsOnly_deferred_removeAll {T} dir (body : M T) :
  emitsOnly ok body -> emitsOnly ok (deferred (os_removeAll dir) body).
Proof.
  intros Hbody st. unfold deferred. destruct (Hbody st) as (evs & Htr & Hok).
  destruct (body st) as [r st1]. cbn [snd] in *.
  exists (evs ++ [RemoveAll dir]). unfold os_removeAll, emitted. cbn [trace].
  rewrite Htr, app_assoc, forallb_app, Hok. cbn [forallb].
  rewrite Hlocal by reflexivity. split; reflexivity.
Qed.

Lemma emitsOnly_mkdirTemp : emitsOnly ok (os_mkdirTemp env).
Proof.
  unfold os_mkdirTemp. apply emitsOnly_bind; [apply emitsOnly_lift|]. intros dir.
  apply emitsOnly_bind; [|intros _; apply emitsOnly_ret].
  apply emitsOnly_emit, Hlocal; reflexivity.
Qed.

(** [generateColorScheme] behind its request. *)
Definition afterColorGet (wo so : list (string * string)) : M unit :=
  (reps <- wrapM "failed to get page" (lift (http_Get env adwaitaColorPage)) ;;
   htpage <- lift (wrap "failed to read body" (io_ReadAll reps)) ;;
   let rows := regexp.tableRowMatcher_FindAllStringSubmatch htpage in
   data <- lift (collectSchemes lib rows wo so) ;;
   lift (wrap "failed to parse template"
           (check (template_Parse env "AdwaitaColorScheme"))) ;;;
   buffer <- lift (wrap "failed to execute template" (executeColors env data)) ;;
   formatted <- lift (wrap "failed to format source" (format_Source lib buffer)) ;;
   os_writeFile env colorSchemeOutput formatted)%go.

Lemma generateColorScheme_afterGet wo so st :
  generateColorScheme lib env wo so st =
  afterColorGet wo so (emitted (HttpGet adwaitaColorPage) st).
Proof. unfold generateColorScheme. rewrite bind_deferred_close. reflexivity. Qed.

(** [generateIcons] behind its request. *)
Definition afterIconsGet (order : list (string * string)) : M unit :=
  (resp <- lift (http_Get env adwaitaIconsPage) ;;
   let '(members, ending) := tar_members lib resp in
   tmpDir <- os_mkdirTemp env ;;
   deferred (os_removeAll tmpDir)
     (extract env tmpDir members ending ;;;
      icons <- collectIcons env tmpDir order ;;
      lift (wrap "Error parsing template" (check (template_Parse env "AdwaitaIcons"))) ;;;
      buffer <- lift (wrap "Error executing template" (executeIcons lib env icons)) ;;
      formatted <- lift (wrap "error formatting source" (format_Source lib buffer)) ;;
      os_writeFile env iconsOutput formatted))%go.

Lemma generateIcons_afterGet order st :
  generateIcons lib env order st =
  afterIconsGet order (emitted (HttpGet adwaitaIconsPage) st).
Proof. unfold generateIcons. rewrite bind_deferred_close. reflexivity. Qed.

Lemma emitsOnly_afterColorGet wo so :
  (forall name data, ok (WriteFile name data) = true) ->
  emitsOnly ok (afterColorGet wo so).
Proof.
  intros Hwrite. unfold afterColorGet.
  apply emitsOnly_bind; [apply emitsOnly_wrapM, emitsOnly_lift|]. intros reps.
  apply emitsOnly_bind; [apply emitsOnly_lift|]. intros htpage.
  apply emitsOnly_bind; [apply emitsOnly_lift|]. intros data.
  apply emitsOnly_bind; [apply emitsOnly_lift|]. intros _.
  apply emitsOnly_bind; [apply emitsOnly_lift|]. intros buffer.
  apply emitsOnly_bind; [apply emitsOnly_lift|]. intros formatted.
  apply emitsOnly_writeFile, Hwrite.
Qed.

Lemma emitsOnly_afterIconsGet order :
  (forall name data, ok (WriteFile name data) = true) ->
  emitsOnly ok (afterIconsGet order).
Proof.
  intros Hwrite. unfold afterIconsGet.
  apply emitsOnly_bind; [apply emitsOnly_lift|]. intros resp.
  destruct (tar_members lib resp) as [members ending].
  apply emitsOnly_bind; [apply emitsOnly_mkdirTemp|]. intros tmpDir.
  apply emitsOnly_deferred_removeAll.
  apply emitsOnly_bind; [apply emitsOnly_extract|]. intros _.
  apply emitsOnly_bind; [apply emitsOnly_collectIcons|]. intros icons.
  apply emitsOnly_bind; [apply emitsOnly_lift|]. intros _.
  apply emitsOnly_bind; [apply emitsOnly_lift|]. intros buffer.
  apply emitsOnly_bind; [apply emitsOnly_lift|]. intros formatted.
  apply emitsOnly_writeFile, Hwrite.
Qed.
End GeneratorEvents.

(** ** Requests *)

(** The URLs requested, in order. *)
Definition getsOf (evs : list event) : list string :=
  omap (fun ev => match ev with HttpGet url => Some url | _ => None end) evs.

Definition notGet (ev : event) : bool := negb (isGet ev).

Lemma notGet_local ev : isGet ev = false -> isWrite ev = false -> notGet ev = true.
Proof. intros Hget _. unfold notGet. rewrite Hget. reflexivity. Qed.

Lemma getsOf_none evs : forallb notGet evs = true -> getsOf evs = [].
Proof.
  induction evs as [|ev evs IH]; [reflexivity|].
  cbn [forallb]. intros H. apply andb_prop in H as [Hev Hevs].
  destruct ev; try discriminate Hev; exact (IH Hevs).
Qed.

Lemma getsOf_emitsOnly {T} (m : M T) st :
  emitsOnly notGet m -> getsOf (trace (m st).2) = getsOf (trace st).
Proof.
  intros Hm. destruct (Hm st) as (evs & -> & Hok).
  unfold getsOf at 1. rewrite omap_app. fold (getsOf (trace st)) (getsOf evs).
  rewrite (getsOf_none evs Hok), app_nil_r. reflexivity.
Qed.

Lemma gets_generateColorScheme lib env wo so st :
  getsOf (trace (generateColorScheme lib env wo so st).2) =
  getsOf (trace st) ++ [adwaitaColorPage].
Proof.
  rewrite generateColorScheme_afterGet.
  rewrite getsOf_emitsOnly
    by (apply (emitsOnly_afterColorGet lib env notGet); reflexivity).
  unfold emitted, getsOf. cbn [trace]. rewrite omap_app. reflexivity.
Qed.

Lemma gets_generateIcons lib env order st :
  getsOf (trace (generateIcons lib env order st).2) =
  getsOf (trace st) ++ [adwaitaIconsPage].
Proof.
  rewrite generateIcons_afterGet.
  rewrite getsOf_emitsOnly
    by (apply (emitsOnly_afterIconsGet lib env notGet notGet_local); reflexivity).
  unfold emitted, getsOf. cbn [trace]. rewrite omap_app. reflexivity.
Qed.

(** How often [url] was requested. *)
Definition getCount (url : string) (evs : list event) : nat :=
  length (List.filter (String.eqb url) (getsOf evs)).

(** C6 as the specification words it: every run requests the colour
    page once and the icon archive once. *)
Definition one_get_for_each_resource : Prop :=
  forall (lib : GoLib) (env : Env) (o : Orders) (st : State),
    validOrders o -> trace st = [] ->
    getCount adwaitaColorPage (trace (main lib env o st).2) = 1%nat /\
    getCount adwaitaIconsPage (trace (main lib env o st).2) = 1%nat.

(** Against C6 as stated: when the colour page cannot be fetched the
    run ends before the icon archive is requested. *)
Lemma no_icon_request_after_failed_colors : ~ one_get_for_each_resource.
Proof.
  intros Hclaim.
  destruct (Hclaim Sample.lib Sample.offlineEnv sourceOrders Sample.start
              sourceOrders_valid eq_refl) as [_ Hicons].
  vm_compute in Hicons. discriminate Hicons.
Qed.

(** C6, amended.  Every run requests the colour page exactly once; it
    requests the icon archive exactly once when [generateColorScheme]
    returned without error, and not at all otherwise; nothing is
    requested a second time, whatever the outcome of a request. *)
Theorem requests_of_a_run (lib : GoLib) (env : Env) (o : Orders) (st : State) :
  getsOf (trace (main lib env o st).2) =
  getsOf (trace st) ++
  adwaitaColorPage ::
  (if is_Ok (generateColorScheme lib env (widgetOrder o) (standardOrder o) st).1
   then [adwaitaIconsPage] else []).
Proof.
  unfold main, log_Fatal.
  pose proof (gets_generateColorScheme lib env (widgetOrder o) (standardOrder o) st) as Hc.
  destruct (generateColorScheme lib env (widgetOrder o) (standardOrder o) st)
    as [[u| |] st1]; cbn [fst snd is_Ok] in *.
  - pose proof (gets_generateIcons lib env (iconOrder o) st1) as Hi.
    assert (getsOf (trace (generateIcons lib env (iconOrder o) st1).2) =
            getsOf (trace st) ++ [adwaitaColorPage; adwaitaIconsPage]) as Hall.
    { rewrite Hi, Hc, <- app_assoc. reflexivity. }
    destruct (generateIcons lib env (iconOrder o) st1) as [[u'| |] st2];
      cbn [fst snd] in *; try exact Hall.
    unfold emitted, getsOf. cbn [trace]. rewrite omap_app. cbn [omap].
    rewrite app_nil_r. exact Hall.
  - unfold emitted, getsOf. cbn [trace]. rewrite omap_app. cbn [omap].
    rewrite app_nil_r. exact Hc.
  - exact Hc.
Qed.

Example requests_of_sample_runs :
  getsOf (trace (main Sample.lib Sample.env sourceOrders Sample.start).2) =
    [adwaitaColorPage; adwaitaIconsPage] /\
  getsOf (trace (main Sample.lib Sample.offlineEnv sourceOrders Sample.start).2) =
    [adwaitaColorPage].
Proof. split; vm_compute; reflexivity. Qed.

(** ** The stages of the two generator functions *)

Definition notWrite (ev : event) : bool := negb (isWrite ev).

Lemma notWrite_local ev : isGet ev = false -> isWrite ev = false -> notWrite ev = true.
Proof. intros _ Hw. unfold notWrite. rewrite Hw. reflexivity. Qed.

Section Stages.
Context (lib : GoLib) (env : Env).

(** Every stage of [generateColorScheme] before the writing succeeded. *)
Definition colorStagesOk (wo so : list (string * string)) (formatted : string) : Prop :=
  exists reps htpage data buffer,
    http_Get env adwaitaColorPage = Ok reps /\
    io_ReadAll reps = Ok htpage /\
    collectSchemes lib (regexp.tableRowMatcher_FindAllStringSubmatch htpage) wo so = Ok data /\
    template_Parse env "AdwaitaColorScheme" = None /\
    executeColors env data = Ok buffer /\
    format_Source lib buffer = Ok formatted.

(** Either every stage before the writing succeeded and the function
    ends with the writing, or it fails having done nothing but its
    request. *)
Lemma generateColorScheme_cases wo so st :
  let st0 := emitted (HttpGet adwaitaColorPage) st in
  (exists formatted,
     colorStagesOk wo so formatted /\
     generateColorScheme lib env wo so st = os_writeFile env colorSchemeOutput formatted st0) \/
  (is_Ok (generateColorScheme lib env wo so st).1 = false /\
   (generateColorScheme lib env wo so st).2 = st0).
Proof.
  intros st0. rewrite generateColorScheme_afterGet. fold st0.
  unfold afterColorGet, colorStagesOk, bind, wrapM, lift.
  destruct (http_Get env adwaitaColorPage) as [reps| |] eqn:Hget; cbn [wrap];
    try (right; split; reflexivity).
  destruct (io_ReadAll reps) as [htpage| |] eqn:Hread; cbn [wrap];
    try (right; split; reflexivity).
  destruct (collectSchemes lib _ wo so) as [data| |] eqn:Hdata;
    try (right; split; reflexivity).
  destruct (template_Parse env "AdwaitaColorScheme") as [e|] eqn:Hparse; cbn [check wrap];
    try (right; split; reflexivity).
  destruct (executeColors env data) as [buffer| |] eqn:Hexec; cbn [wrap];
    try (right; split; reflexivity).
  destruct (format_Source lib buffer) as [formatted| |] eqn:Hformat; cbn [wrap];
    try (right; split; reflexivity).
  left. exists formatted. split; [|reflexivity].
  exists reps, htpage, data, buffer. repeat split; assumption.
Qed.

Lemma os_writeFile_run name data st :
  os_writeFile env name data st =
  match os_WriteFile env name with
  | Some e => (Err e, failedWrite env name data (emitted (WriteFile name data) st))
  | None => (Ok tt, stored name data (emitted (WriteFile name data) st))
  end.
Proof. unfold os_writeFile, bind, emit, lift. destruct (os_WriteFile env name); reflexivity. Qed.

(** A failed write changes the file it was to write, if any. *)
Lemma failedWrite_files name data st :
  trace (failedWrite env name data st) = trace st /\
  (fs (failedWrite env name data st) = fs st \/
   exists written,
     os_WriteFile_partial env name data = Some written /\
     fs (failedWrite env name data st) = <[name := written]> (fs st)).
Proof.
  unfold failedWrite.
  destruct (os_WriteFile_partial env name data) as [written|]; [|auto].
  split; [reflexivity|]. right. exists written. auto.
Qed.





(** [generateIcons] between the creation of the temporary directory and
    the writing: the formatted source, when every stage succeeds. *)
Definition iconsFormatted (tmpDir : string) (members : list tarMember)
  (ending : option error) (order : list (string * string)) : M string :=
  (extract env tmpDir members ending ;;;
   icons <- collectIcons env tmpDir order ;;
   lift (wrap "Error parsing template" (check (template_Parse env "AdwaitaIcons"))) ;;;
   buffer <- lift (wrap "Error executing template" (executeIcons lib env icons)) ;;
   lift (wrap "error formatting source" (format_Source lib buffer)))%go.

Lemma bind_lift {T U} (r : result T) (k : T -> M U) st :
  bind (lift r) k st =
  match r with
  | Ok v => k v st
  | Err e => (Err e, st)
  | Panic msg => (Panic msg, st)
  end.
Proof. reflexivity. Qed.

Lemma bind_mkdirTemp {U} (k : string -> M U) st :
  bind (os_mkdirTemp env) k st =
  match os_MkdirTemp env with
  | Ok dir => k dir (emitted (MkdirTemp dir) st)
  | Err e => (Err e, st)
  | Panic msg => (Panic msg, st)
  end.
Proof.
  unfold os_mkdirTemp, bind, lift, emit, ret. destruct (os_MkdirTemp env); reflexivity.
Qed.

Lemma generateIcons_formatted tmpDir members ending order s :
  deferred (os_removeAll tmpDir)
    (extract env tmpDir members ending ;;;
     icons <- collectIcons env tmpDir order ;;
     lift (wrap "Error parsing template" (check (template_Parse env "AdwaitaIcons"))) ;;;
     buffer <- lift (wrap "Error executing template" (executeIcons lib env icons)) ;;
     formatted <- lift (wrap "error formatting source" (format_Source lib buffer)) ;;
     os_writeFile env iconsOutput formatted)%go s =
  deferred (os_removeAll tmpDir)
    (formatted <- iconsFormatted tmpDir members ending order ;;
     os_writeFile env iconsOutput formatted)%go s.
Proof.
  unfold deferred, iconsFormatted, bind.
  destruct (extract env tmpDir _ _ s) as [[u| |] s1]; try reflexivity.
  destruct (collectIcons env tmpDir order s1) as [[icons| |] s2]; try reflexivity.
  unfold lift.
  destruct (wrap "Error parsing template" _) as [u'| |]; try reflexivity.
  destruct (wrap "Error executing template" _) as [buffer| |]; try reflexivity.
Qed.

Lemma emitsOnly_iconsFormatted tmpDir members ending order :
  emitsOnly notWrite (iconsFormatted tmpDir members ending order).
Proof.
  unfold iconsFormatted.
  apply emitsOnly_bind; [apply (emitsOnly_extract env notWrite notWrite_local)|]. intros _.
  apply emitsOnly_bind; [apply (emitsOnly_collectIcons env notWrite notWrite_local)|].
  intros icons.
  apply emitsOnly_bind; [apply emitsOnly_lift|]. intros _.
  apply emitsOnly_bind; [apply emitsOnly_lift|]. intros buffer. apply emitsOnly_lift.
Qed.

(** Every stage of [generateIcons] before the writing succeeded. *)
Definition iconStagesOk (order : list (string * string)) (st : State)
  (tmpDir formatted : string) (st2 : State) : Prop :=
  exists resp,
    http_Get env adwaitaIconsPage = Ok resp /\
    os_MkdirTemp env = Ok tmpDir /\
    iconsFormatted tmpDir (tar_members lib resp).1 (tar_members lib resp).2 order
      (emitted (MkdirTemp tmpDir) (emitted (HttpGet adwaitaIconsPage) st)) =
    (Ok formatted, st2).

(** Either every stage before the writing succeeded and the function
    ends with the writing and the removal of the temporary directory, or
    it fails without having written. *)
Lemma generateIcons_cases order st :
  (exists tmpDir formatted st2,
     iconStagesOk order st tmpDir formatted st2 /\
     generateIcons lib env order st =
     ((os_writeFile env iconsOutput formatted st2).1,
      os_removeAll tmpDir (os_writeFile env iconsOutput formatted st2).2)) \/
  (is_Ok (generateIcons lib env order st).1 = false /\
   exists evs, trace (generateIcons lib env order st).2 = trace st ++ evs /\
               forallb notWrite evs = true).
Proof.
  rewrite generateIcons_afterGet.
  unfold afterIconsGet, iconStagesOk. rewrite bind_lift.
  destruct (http_Get env adwaitaIconsPage) as [resp| |] eqn:Hget;
    try (right; split; [reflexivity|]; exists [HttpGet adwaitaIconsPage];
         split; reflexivity).
  destruct (tar_members lib resp) as [members ending] eqn:Htar.
  rewrite bind_mkdirTemp.
  destruct (os_MkdirTemp env) as [tmpDir| |] eqn:Htmp;
    try (right; split; [reflexivity|]; exists [HttpGet adwaitaIconsPage];
         split; reflexivity).
  rewrite generateIcons_formatted. unfold deferred, bind.
  destruct (emitsOnly_iconsFormatted tmpDir members ending order
              (emitted (MkdirTemp tmpDir) (emitted (HttpGet adwaitaIconsPage) st)))
    as (evs & Htr & Hok).
  destruct (iconsFormatted tmpDir members ending order _) as [[formatted| |] st2] eqn:Hfmt.
  - left. exists tmpDir, formatted, st2. split.
    + exists resp. rewrite Htar. cbn [fst snd]. auto.
    + destruct (os_writeFile env iconsOutput formatted st2). reflexivity.
  - right. split; [reflexivity|]. cbn [snd] in *.
    exists ([HttpGet adwaitaIconsPage; MkdirTemp tmpDir] ++ evs ++ [RemoveAll tmpDir]).
    unfold os_removeAll, emitted in *. cbn [trace] in *. rewrite Htr.
    rewrite !forallb_app, Hok, <- !app_assoc. split; reflexivity.
  - right. split; [reflexivity|]. cbn [snd] in *.
    exists ([HttpGet adwaitaIconsPage; MkdirTemp tmpDir] ++ evs ++ [RemoveAll tmpDir]).
    unfold os_removeAll, emitted in *. cbn [trace] in *. rewrite Htr.
    rewrite !forallb_app, Hok, <- !app_assoc. split; reflexivity.
Qed.

End Stages.

(** ** What a failing run leaves behind *)

(** The file a member of the archive is extracted to (line 633). *)
Definition targetOf (tmpDir : string) (member : tarMember) : string :=
  filepath.Join [tmpDir; Name (Header member)].

(** One round of the extraction loop. *)
Lemma extract_step (env : Env) tmpDir member rest ending st :
  extract env tmpDir (member :: rest) ending st =
  if Typeflag (Header member) =? tar_TypeReg then
    let target := targetOf tmpDir member in
    match os_MkdirAll env (filepath.Dir target) with
    | Some e => (Err e, st)
    | None =>
        match os_Create env target with
        | Some e => (Err e, emitted (CreateFile target) st)
        | None =>
            let st1 := stored target (Data member)
                         (stored target EmptyString (emitted (CreateFile target) st)) in
            match CopyErr member with
            | Some e => (Err e, st1)
            | None => extract env tmpDir rest ending st1
            end
        end
    end
  else extract env tmpDir rest ending st.
Proof.
  cbn [extract]. unfold targetOf, bind at 1.
  destruct (Typeflag (Header member) =? tar_TypeReg); [|reflexivity].
  unfold bind, lift, os_create, emit, io_copy. cbv zeta.
  destruct (os_MkdirAll env _); cbn [check]; [reflexivity|].
  destruct (os_Create env _); [reflexivity|].
  destruct (CopyErr member); reflexivity.
Qed.

(** The extraction writes to the targets of the regular members only,
    also when it fails on the way. *)
Lemma extract_elsewhere (env : Env) tmpDir members ending st path :
  (forall member, member ∈ members -> Typeflag (Header member) = tar_TypeReg ->
     targetOf tmpDir member <> path) ->
  fs (extract env tmpDir members ending st).2 !! path = fs st !! path.
Proof.
  revert st. induction members as [|member rest IH]; intros st Hpath; [reflexivity|].
  assert (forall m, m ∈ rest -> Typeflag (Header m) = tar_TypeReg -> targetOf tmpDir m <> path)
    as Hrest by (intros m Hm; apply Hpath, elem_of_cons; right; exact Hm).
  rewrite extract_step.
  destruct (Z.eqb_spec (Typeflag (Header member)) tar_TypeReg) as [Hreg|Hreg];
    [|exact (IH st Hrest)].
  assert (targetOf tmpDir member <> path) as Hne
    by (apply Hpath; [apply elem_of_cons; left; reflexivity | exact Hreg]).
  cbv zeta.
  destruct (os_MkdirAll env _); [reflexivity|].
  destruct (os_Create env _); [reflexivity|].
  destruct (CopyErr member); [|rewrite (IH _ Hrest)];
    unfold stored, emitted; cbn [fs snd]; rewrite !lookup_insert_ne by exact Hne; reflexivity.
Qed.













(** ** Failures *)





(** The sample machine with a full disk: every [os.WriteFile] fails
    after it has truncated the file. *)
Definition diskFullEnv : Env := {|
  http_Get := http_Get Sample.env;
  os_MkdirTemp := os_MkdirTemp Sample.env;
  os_MkdirAll := os_MkdirAll Sample.env;
  os_Create := os_Create Sample.env;
  os_WriteFile := fun _ => Some "write: no space left on device";
  os_WriteFile_partial := fun _ _ => Some EmptyString;
  inkscape := inkscape Sample.env;
  inkscape_export := inkscape_export Sample.env;
  template_Parse := template_Parse Sample.env;
  template_Execute := template_Execute Sample.env
|}.

Example failed_write_truncates :
  fs Sample.rerun !! colorSchemeOutput = Some "package theme" /\
  fs (main Sample.lib diskFullEnv sourceOrders Sample.rerun).2 !! colorSchemeOutput =
    Some EmptyString.
Proof. split; vm_compute; reflexivity. Qed.


(** ** Writing the output file *)









(** * Further properties of the generator *)

(** ** What the two patterns match *)

Lemma CutPrefix_append s prefix rest :
  strings.CutPrefix s prefix = Some rest -> s = prefix +:+ rest.
Proof.
  revert s. induction prefix as [|a p IH]; intros s; cbn [strings.CutPrefix].
  - intros [= ->]. reflexivity.
  - destruct s as [|b s]; [discriminate|].
    destruct (Ascii.eqb_spec a b) as [->|_]; [|discriminate].
    intros H. apply IH in H. subst s. reflexivity.
Qed.

Lemma CutPrefix_self prefix rest :
  strings.CutPrefix (prefix +:+ rest) prefix = Some rest.
Proof.
  induction prefix as [|a p IH]; [reflexivity|].
  change (String a p +:+ rest) with (String a (p +:+ rest)).
  cbn [strings.CutPrefix]. rewrite Ascii.eqb_refl. exact IH.
Qed.

Lemma Cut_append s sep before after :
  strings.Cut s sep = Some (before, after) -> s = before +:+ sep +:+ after.
Proof.
  revert before. induction s as [|c s IH]; intros before; cbn [strings.Cut].
  - destruct (strings.CutPrefix EmptyString sep) as [rest|] eqn:Hpre; [|discriminate].
    intros [= <- <-]. exact (CutPrefix_append _ _ _ Hpre).
  - destruct (strings.CutPrefix (String c s) sep) as [rest|] eqn:Hpre.
    + intros [= <- <-]. exact (CutPrefix_append _ _ _ Hpre).
    + destruct (strings.Cut s sep) as [[b a]|]; [|discriminate].
      intros [= <- <-]. rewrite (IH b eq_refl) at 1. reflexivity.
Qed.

Lemma HasPrefix_append x y prefix :
  strings.HasPrefix x prefix = true -> strings.HasPrefix (x +:+ y) prefix = true.
Proof.
  unfold strings.HasPrefix.
  destruct (strings.CutPrefix x prefix) as [rest|] eqn:Hpre; [|discriminate].
  intros _. apply CutPrefix_append in Hpre. subst x.
  rewrite append_assoc_s, CutPrefix_self. reflexivity.
Qed.

Lemma Contains_behind p s sub :
  strings.Contains s sub = true -> strings.Contains (p +:+ s) sub = true.
Proof.
  intros Hs. induction p as [|c p IH]; [exact Hs|].
  change (String c p +:+ s) with (String c (p +:+ s)). cbn [strings.Contains].
  rewrite IH. destruct (strings.HasPrefix _ sub); reflexivity.
Qed.

Lemma Contains_middle p m q : strings.Contains (p +:+ m +:+ q) m = true.
Proof.
  apply Contains_behind.
  assert (strings.HasPrefix (m +:+ q) m = true) as Hpre
    by (unfold strings.HasPrefix; rewrite CutPrefix_self; reflexivity).
  destruct (m +:+ q); cbn [strings.Contains]; rewrite Hpre; reflexivity.
Qed.

(** The text before the first instance of a separator holds none. *)
Lemma Cut_before s sep before after :
  sep <> EmptyString ->
  strings.Cut s sep = Some (before, after) -> strings.Contains before sep = false.
Proof.
  intros Hsep. revert before. induction s as [|c s IH]; intros before; cbn [strings.Cut].
  - destruct (strings.CutPrefix EmptyString sep) as [rest|] eqn:Hpre; [|discriminate].
    destruct sep; [congruence | discriminate Hpre].
  - destruct (strings.CutPrefix (String c s) sep) as [rest|] eqn:Hpre.
    + intros [= <- <-]. destruct sep; [congruence | reflexivity].
    + destruct (strings.Cut s sep) as [[b a]|] eqn:Hcut; [|discriminate].
      intros [= <- <-]. cbn [strings.Contains]. rewrite (IH b eq_refl).
      destruct (strings.HasPrefix (String c b) sep) eqn:Hhas; [|reflexivity].
      apply (HasPrefix_append _ (sep +:+ a)) in Hhas.
      apply Cut_append in Hcut. unfold strings.HasPrefix in Hhas.
      change (String c b +:+ sep +:+ a) with (String c (b +:+ sep +:+ a)) in Hhas.
      rewrite <- Hcut, Hpre in Hhas. discriminate Hhas.
Qed.

Lemma Cut_None s sep : strings.Contains s sep = false -> strings.Cut s sep = None.
Proof.
  induction s as [|c s IH]; cbn [strings.Contains strings.Cut]; unfold strings.HasPrefix.
  - destruct (strings.CutPrefix EmptyString sep); [discriminate | reflexivity].
  - destruct (strings.CutPrefix (String c s) sep); [discriminate|].
    intros H. rewrite (IH H). reflexivity.
Qed.

Lemma tableRowMatches_shape fuel s row :
  row ∈ regexp.tableRowMatches fuel s ->
  m0 row = "<tr>" +:+ m1 row +:+ "</tr>" /\
  strings.Contains (m1 row) "</tr>" = false /\
  exists before after, s = before +:+ m0 row +:+ after.
Proof.
  revert s. induction fuel as [|fuel IH]; intros s; cbn [regexp.tableRowMatches].
  { intros H. inversion H. }
  destruct (strings.Cut s "<tr>") as [[before inner]|] eqn:Hopen; [|intros H; inversion H].
  destruct (strings.Cut inner "</tr>") as [[group rest]|] eqn:Hclose;
    [|intros H; inversion H].
  apply Cut_append in Hopen. pose proof (Cut_append _ _ _ _ Hclose) as Hinner.
  intros Hrow. apply elem_of_cons in Hrow as [->|Hrow].
  - cbn [m0 m1]. split; [reflexivity|]. split.
    + exact (Cut_before inner "</tr>" group rest ltac:(discriminate) Hclose).
    + exists before, rest. rewrite Hopen, Hinner, !append_assoc_s. reflexivity.
  - destruct (IH rest Hrow) as (Hshape & Hlazy & b & a & Hrest).
    split; [exact Hshape|]. split; [exact Hlazy|].
    exists (before +:+ "<tr>" +:+ group +:+ "</tr>" +:+ b), a.
    rewrite Hopen, Hinner, Hrest, !append_assoc_s. reflexivity.
Qed.

(** X1.  Every row that [tableRowMatcher] finds is a piece of the page
    of the form [<tr>group</tr>], its group is element 1 of the match,
    and the group holds no [</tr>]: a row never runs over the end of a
    table row. *)
Theorem table_rows_are_single_rows (page : string) (row : submatch) :
  row ∈ regexp.tableRowMatcher_FindAllStringSubmatch page ->
  m0 row = "<tr>" +:+ m1 row +:+ "</tr>" /\
  strings.Contains (m1 row) "</tr>" = false /\
  strings.Contains page (m0 row) = true.
Proof.
  intros Hrow. apply tableRowMatches_shape in Hrow as (Hshape & Hlazy & b & a & ->).
  split; [exact Hshape|]. split; [exact Hlazy|]. apply Contains_middle.
Qed.

Lemma table_rows_are_single_rows_witness :
  m0 (Submatch "<tr>x</tr>" "x") = "<tr>" +:+ m1 (Submatch "<tr>x</tr>" "x") +:+ "</tr>" /\
  strings.Contains (m1 (Submatch "<tr>x</tr>" "x")) "</tr>" = false /\
  strings.Contains ("<table>" +:+ sample_row +:+ "<tr>x</tr></table><tr>")
    (m0 (Submatch "<tr>x</tr>" "x")) = true.
Proof.
  apply (table_rows_are_single_rows ("<table>" +:+ sample_row +:+ "<tr>x</tr></table><tr>")).
  vm_compute. apply elem_of_cons. right. apply elem_of_cons. left. reflexivity.
Defined.

(** X2.  A page without an opening [<tr>], or without a closing
    [</tr>], has no rows; every lookup on it returns the zero colour. *)
Theorem page_without_rows (lib : GoLib) (page name variant : string) :
  strings.Contains page "<tr>" = false \/ strings.Contains page "</tr>" = false ->
  regexp.tableRowMatcher_FindAllStringSubmatch page = [] /\
  getWidgetColorFor lib (regexp.tableRowMatcher_FindAllStringSubmatch page) name variant
    = Ok color.zero /\
  getStandardColorFor lib (regexp.tableRowMatcher_FindAllStringSubmatch page) name
    = Ok color.zero.
Proof.
  intros Hpage.
  assert (regexp.tableRowMatcher_FindAllStringSubmatch page = []) as ->.
  { unfold regexp.tableRowMatcher_FindAllStringSubmatch.
    destruct (String.length page) as [|fuel]; [reflexivity|].
    cbn [regexp.tableRowMatches].
    destruct (strings.Cut page "<tr>") as [[before inner]|] eqn:Hopen; [|reflexivity].
    destruct (strings.Cut inner "</tr>") as [[group rest]|] eqn:Hclose; [|reflexivity].
    exfalso. apply Cut_append in Hopen, Hclose. subst inner. subst page.
    destruct Hpage as [H|H].
    - rewrite Contains_middle in H. discriminate H.
    - rewrite <- (append_assoc_s before "<tr>"), <- (append_assoc_s _ group) in H.
      rewrite Contains_middle in H. discriminate H. }
  repeat split; reflexivity.
Qed.

Lemma page_without_rows_witness :
  regexp.tableRowMatcher_FindAllStringSubmatch "<html><tr>never closed" = [] /\
  getWidgetColorFor Sample.lib
    (regexp.tableRowMatcher_FindAllStringSubmatch "<html><tr>never closed")
    "window_bg_color" "light" = Ok color.zero /\
  getStandardColorFor Sample.lib
    (regexp.tableRowMatcher_FindAllStringSubmatch "<html><tr>never closed")
    "window_bg_color" = Ok color.zero.
Proof.
  apply (page_without_rows Sample.lib "<html><tr>never closed"). right. reflexivity.
Defined.

Lemma cellOpen_append s alt rest :
  regexp.cellOpen s = Some (alt, rest) ->
  (alt = "rgba" \/ alt = "#") /\
  exists before, s = before +:+ "<tt>" +:+ alt +:+ rest.
Proof.
  induction s as [|c s IH]; cbn [regexp.cellOpen].
  - destruct (strings.CutPrefix EmptyString "<tt>rgba") eqn:H1; [discriminate H1|].
    destruct (strings.CutPrefix EmptyString "<tt>#") eqn:H2; [discriminate H2|]. discriminate.
  - destruct (strings.CutPrefix (String c s) "<tt>rgba") as [r|] eqn:H1.
    { intros [= <- <-]. split; [left; reflexivity|]. exists EmptyString.
      exact (CutPrefix_append _ _ _ H1). }
    destruct (strings.CutPrefix (String c s) "<tt>#") as [r|] eqn:H2.
    { intros [= <- <-]. split; [right; reflexivity|]. exists EmptyString.
      exact (CutPrefix_append _ _ _ H2). }
    intros H. apply IH in H as [Halt [before ->]]. split; [exact Halt|].
    exists (String c before). reflexivity.
Qed.

Lemma tableColorCellMatches_shape fuel s cell :
  cell ∈ regexp.tableColorCellMatches fuel s ->
  (exists alt body,
     (alt = "rgba" \/ alt = "#") /\ m1 cell = alt +:+ body /\
     strings.Contains body "</tt>" = false) /\
  m0 cell = "<tt>" +:+ m1 cell +:+ "</tt>" /\
  exists before after, s = before +:+ m0 cell +:+ after.
Proof.
  revert s. induction fuel as [|fuel IH]; intros s; cbn [regexp.tableColorCellMatches].
  { intros H. inversion H. }
  destruct (regexp.cellOpen s) as [[alt inner]|] eqn:Hopen; [|intros H; inversion H].
  destruct (strings.Cut inner "</tt>") as [[body rest]|] eqn:Hclose;
    [|intros H; inversion H].
  apply cellOpen_append in Hopen as [Halt [before Hs]].
  pose proof (Cut_append _ _ _ _ Hclose) as Hinner.
  intros Hcell. apply elem_of_cons in Hcell as [->|Hcell].
  - cbn [m0 m1]. split; [|split].
    + exists alt, body. split; [exact Halt|]. split; [reflexivity|].
      exact (Cut_before inner "</tt>" body rest ltac:(discriminate) Hclose).
    + rewrite !append_assoc_s. reflexivity.
    + exists before, rest. rewrite Hs, Hinner, !append_assoc_s. reflexivity.
  - destruct (IH rest Hcell) as (Hgroup & Hshape & b & a & Hrest).
    split; [exact Hgroup|]. split; [exact Hshape|].
    exists (before +:+ "<tt>" +:+ alt +:+ body +:+ "</tt>" +:+ b), a.
    rewrite Hs, Hinner, Hrest, !append_assoc_s. reflexivity.
Qed.

(** X3.  Every colour cell that [tableColorCellMatcher] finds in a row
    is a piece of the row of the form [<tt>group</tt>]; the group, which
    is the text handed to [stringToColor], starts with [rgba] or with
    [#], and what follows that start holds no [</tt>]. *)
Theorem color_cells_start_with_rgba_or_hash (row cell : submatch) :
  cell ∈ colorCells row ->
  (exists alt body,
     (alt = "rgba" \/ alt = "#") /\ m1 cell = alt +:+ body /\
     strings.Contains body "</tt>" = false) /\
  m0 cell = "<tt>" +:+ m1 cell +:+ "</tt>" /\
  strings.Contains (m0 row) (m0 cell) = true.
Proof.
  intros Hcell. apply tableColorCellMatches_shape in Hcell as (Hgroup & Hshape & b & a & ->).
  split; [exact Hgroup|]. split; [exact Hshape|]. apply Contains_middle.
Qed.

Lemma color_cells_start_with_rgba_or_hash_witness :
  (exists alt body,
     (alt = "rgba" \/ alt = "#") /\
     m1 (Submatch "<tt>rgba(36, 36, 36, 1)</tt>" "rgba(36, 36, 36, 1)") = alt +:+ body /\
     strings.Contains body "</tt>" = false) /\
  m0 (Submatch "<tt>rgba(36, 36, 36, 1)</tt>" "rgba(36, 36, 36, 1)") =
    "<tt>" +:+ m1 (Submatch "<tt>rgba(36, 36, 36, 1)</tt>" "rgba(36, 36, 36, 1)") +:+ "</tt>" /\
  strings.Contains (m0 (Submatch sample_row EmptyString))
    (m0 (Submatch "<tt>rgba(36, 36, 36, 1)</tt>" "rgba(36, 36, 36, 1)")) = true.
Proof.
  apply (color_cells_start_with_rgba_or_hash (Submatch sample_row EmptyString)).
  vm_compute. apply elem_of_cons. right. apply elem_of_cons. left. reflexivity.
Defined.

(** ** How a lookup chooses its row *)

Lemma Contains_shorter s sub more :
  strings.Contains s (sub +:+ more) = true -> strings.Contains s sub = true.
Proof.
  induction s as [|c s IH]; cbn [strings.Contains]; unfold strings.HasPrefix.
  - destruct (strings.CutPrefix EmptyString (sub +:+ more)) as [rest|] eqn:Hpre;
      [|discriminate].
    intros _. apply CutPrefix_append in Hpre. rewrite append_assoc_s in Hpre.
    rewrite Hpre at 1. rewrite CutPrefix_self. reflexivity.
  - destruct (strings.CutPrefix (String c s) (sub +:+ more)) as [rest|] eqn:Hpre.
    + intros _. apply CutPrefix_append in Hpre. rewrite append_assoc_s in Hpre.
      rewrite Hpre at 1. rewrite CutPrefix_self. reflexivity.
    + intros H. rewrite (IH H). destruct (strings.CutPrefix (String c s) sub); reflexivity.
Qed.

(** X4.  The lookups find a colour by the start of its name: a row that
    names a colour whose name continues the requested one is taken for
    the requested one.  When such a row is the first of the page that
    mentions the requested name, the lookups return what that row
    holds. *)
Theorem lookup_matches_longer_names
  (lib : GoLib) (row : submatch) (rows : list submatch) (name more : string) :
  rowMentions row (name +:+ more) = true ->
  rowMentions row name = true /\
  getWidgetColorFor lib (row :: rows) name "light" = fromCell lib (colorCells row) 0 /\
  getWidgetColorFor lib (row :: rows) name "dark" = fromCell lib (colorCells row) 1 /\
  getStandardColorFor lib (row :: rows) name = fromCell lib (colorCells row) 0.
Proof.
  intros Hlong.
  assert (rowMentions row name = true) as Hrow.
  { unfold rowMentions in *. apply orb_prop in Hlong as [H|H].
    - rewrite <- append_assoc_s in H. apply Contains_shorter in H. rewrite H. reflexivity.
    - rewrite <- append_assoc_s in H. apply Contains_shorter in H. rewrite H.
      apply orb_true_r. }
  split; [exact Hrow|].
  rewrite getWidgetColorFor_light, getWidgetColorFor_dark, getStandardColorFor_find.
  unfold firstRowFor. cbn [List.find]. rewrite Hrow. repeat split; reflexivity.
Qed.

Definition accentRows : list submatch :=
  regexp.tableRowMatcher_FindAllStringSubmatch
    (Sample.row "accent_bg_color_dim" "#111111" "#222222" +:+
     Sample.row "accent_bg_color" "#3584e4" "#3584e4").

Lemma lookup_matches_longer_names_witness :
  getWidgetColorFor Sample.lib accentRows "accent_bg_color" "light"
    = Ok (color.mkRGBA 17 17 17 255) /\
  getWidgetColorFor Sample.lib accentRows "accent_bg_color" "dark"
    = Ok (color.mkRGBA 34 34 34 255).
Proof.
  assert (exists row rows, accentRows = row :: rows /\
            rowMentions row ("accent_bg_color" +:+ "_dim") = true)
    as (row & rows & Hrows & Hrow).
  { eexists _, _. split; vm_compute; reflexivity. }
  destruct (lookup_matches_longer_names Sample.lib row rows "accent_bg_color" "_dim" Hrow)
    as (_ & Hlight & Hdark & _).
  rewrite Hrows, Hlight, Hdark.
  injection Hrows as <- _. split; vm_compute; reflexivity.
Defined.

(** X5.  The first row that mentions the name decides: rows behind it
    are never read, and rows before it that do not mention the name
    change nothing. *)
Theorem first_row_wins
  (lib : GoLib) (before behind : list submatch) (row : submatch) (name variant : string) :
  Forall (fun r => rowMentions r name = false) before ->
  rowMentions row name = true ->
  getWidgetColorFor lib (before ++ row :: behind) name variant =
    getWidgetColorFor lib [row] name variant /\
  getStandardColorFor lib (before ++ row :: behind) name =
    getStandardColorFor lib [row] name.
Proof.
  intros Hbefore Hrow. induction Hbefore as [|r before Hr _ IH].
  - cbn [app getWidgetColorFor getStandardColorFor]. rewrite Hrow. split; reflexivity.
  - cbn [app getWidgetColorFor getStandardColorFor]. rewrite Hr. exact IH.
Qed.

Definition twiceRows : list submatch :=
  regexp.tableRowMatcher_FindAllStringSubmatch
    (Sample.row "red_3" "#e01b24" "#e01b24" +:+
     Sample.row "blue_3" "#3584e4" "#3584e4" +:+
     Sample.row "blue_3" "not a colour" "#000000").

Lemma first_row_wins_witness :
  getWidgetColorFor Sample.lib twiceRows "blue_3" "light" =
    Ok (color.mkRGBA 53 132 228 255) /\
  getStandardColorFor Sample.lib twiceRows "blue_3" = Ok (color.mkRGBA 53 132 228 255).
Proof.
  assert (exists r0 r1 r2, twiceRows = [r0] ++ r1 :: [r2] /\
            rowMentions r0 "blue_3" = false /\ rowMentions r1 "blue_3" = true /\
            getWidgetColorFor Sample.lib [r1] "blue_3" "light" =
              Ok (color.mkRGBA 53 132 228 255) /\
            getStandardColorFor Sample.lib [r1] "blue_3" =
              Ok (color.mkRGBA 53 132 228 255))
    as (r0 & r1 & r2 & Hrows & H0 & H1 & Hlight & Hstandard).
  { eexists _, _, _. repeat split; vm_compute; reflexivity. }
  destruct (first_row_wins Sample.lib [r0] [r2] r1 "blue_3" "light"
              (Forall_cons_2 _ _ _ H0 (Forall_nil_2 _)) H1) as [Hw Hs].
  rewrite Hrows, Hw, Hs, Hlight, Hstandard. split; reflexivity.
Defined.

(** X6.  [getWidgetColorFor] knows the variants [light] and [dark] only:
    for any other variant it returns the zero colour and a nil error,
    whatever the page holds, without reading a cell (so it does not
    panic on a row without cells either). *)
Theorem unknown_variant_is_zero
  (lib : GoLib) (rows : list submatch) (name variant : string) :
  variant <> "light" -> variant <> "dark" ->
  getWidgetColorFor lib rows name variant = Ok color.zero /\
  Legacy.getColorFor lib rows name variant = Ok color.zero.
Proof.
  intros Hlight Hdark. apply String.eqb_neq in Hlight, Hdark.
  assert (getWidgetColorFor lib rows name variant = Ok color.zero) as Hzero.
  { induction rows as [|row rows IH]; cbn [getWidgetColorFor]; [reflexivity|].
    rewrite Hlight, Hdark. destruct (rowMentions row name); [reflexivity | exact IH]. }
  split; [exact Hzero|].
  exact (eq_trans (getColorFor_same lib rows name variant) Hzero).
Qed.

Lemma unknown_variant_is_zero_witness :
  getWidgetColorFor Sample.lib Sample.noCellRows "shade_color" "Dark" = Ok color.zero /\
  Legacy.getColorFor Sample.lib Sample.noCellRows "shade_color" "Dark" = Ok color.zero.
Proof.
  apply (unknown_variant_is_zero Sample.lib Sample.noCellRows "shade_color" "Dark");
    discriminate.
Defined.

(** X7.  A standard colour is read from the first colour cell of its row
    for both schemes.  So on a run whose colour extraction does not
    fail, an entry of [standardColorToGet] with a single name has the
    same record in the light and in the dark scheme. *)
Theorem single_name_same_in_both_schemes
  (lib : GoLib) (rows : list submatch) (wo so : list (string * string))
  (lightScheme darkScheme : gmap string colorInfo) :
  Permutation wo colorToGet ->
  Permutation so standardColorToGet ->
  collectSchemes lib rows wo so = Ok (lightScheme, darkScheme) ->
  forall fyne name, (fyne, name) ∈ standardColorToGet -> noComma name ->
    exists lcol,
      getStandardColorFor lib rows name = Ok lcol /\
      getWidgetColorFor lib rows name "light" = Ok lcol /\
      lightScheme !! fyne = Some (mkColorInfo (scrollBarAlpha fyne lcol) name) /\
      darkScheme !! fyne = Some (mkColorInfo (scrollBarAlpha fyne lcol) name).
Proof.
  intros Hwo Hso Hrun fyne name Hin Hname.
  apply collectSchemes_Ok in Hrun as [Hall Hdata].
  destruct (allOk_standard lib rows wo so Hso _ Hall Hin) as (li & di & Hpair).
  destruct (stored_standard lib rows wo so Hso _ li di Hin Hpair) as [Hl Hd].
  rewrite <- Hdata in Hl, Hd. cbn [fst snd] in Hl, Hd.
  apply standardPair_Ok in Hpair as (lcol & dcol & Hlight & Hdark & -> & ->).
  cbn [fst snd] in *. rewrite (standardNames_single name Hname) in *. cbn [fst snd] in *.
  rewrite Hlight in Hdark. injection Hdark as <-.
  exists lcol. split; [exact Hlight|]. split.
  - rewrite getWidgetColorFor_light, <- getStandardColorFor_find. exact Hlight.
  - auto.
Qed.

Lemma single_name_same_in_both_schemes_witness :
  exists lcol,
    getStandardColorFor Sample.lib Sample.rows "blue_3" = Ok lcol /\
    getWidgetColorFor Sample.lib Sample.rows "blue_3" "light" = Ok lcol /\
    (storedSchemes Sample.lib Sample.rows colorToGet standardColorToGet).1
      !! "theme.ColorBlue" = Some (mkColorInfo (scrollBarAlpha "theme.ColorBlue" lcol) "blue_3") /\
    (storedSchemes Sample.lib Sample.rows colorToGet standardColorToGet).2
      !! "theme.ColorBlue" = Some (mkColorInfo (scrollBarAlpha "theme.ColorBlue" lcol) "blue_3").
Proof.
  apply (single_name_same_in_both_schemes Sample.lib Sample.rows colorToGet standardColorToGet
           _ _ (Permutation_refl _) (Permutation_refl _) sample_collect).
  - apply (bool_decide_unpack _). vm_compute. exact I.
  - reflexivity.
Defined.

(** ** Values of [standardColorToGet] with more than two names *)

Lemma Split_first a rest :
  noComma a -> strings.Split (a +:+ "," +:+ rest) "," = a :: strings.Split rest ",".
Proof.
  unfold strings.Split. intros Ha. induction a as [|c a IH]; [reflexivity|].
  apply Contains_cons_false in Ha as [Hpre Ha].
  change (String c a +:+ "," +:+ rest) with (String c (a +:+ "," +:+ rest)).
  cbn [strings.SplitFrom].
  rewrite HasPrefix_comma in Hpre |- *. rewrite Hpre, (IH Ha). reflexivity.
Qed.

Lemma Split_two s :
  strings.Contains s "," = true -> (2 <= length (strings.Split s ","))%nat.
Proof.
  unfold strings.Split. induction s as [|c s IH]; [discriminate|].
  cbn [strings.Contains strings.SplitFrom]. rewrite HasPrefix_comma.
  destruct (Ascii.eqb "," c).
  - intros _. cbn [String.length Nat.sub length].
    destruct s; cbn [strings.SplitFrom length]; [lia|].
    destruct (strings.HasPrefix (String a s) ","); cbn [length]; [lia|].
    destruct (strings.SplitFrom 0 s ","); cbn [length]; lia.
  - intros H. specialize (IH H).
    destruct (strings.SplitFrom 0 s ",") as [|piece pieces]; cbn [length] in *; lia.
Qed.

(** X8.  Only a value with exactly two names is split.  A value with
    three names or more is looked up as it stands, commas included, for
    the light and for the dark scheme. *)
Theorem three_names_are_not_split (first rest : string) :
  noComma first -> strings.Contains rest "," = true ->
  standardNames (first +:+ "," +:+ rest) =
    (first +:+ "," +:+ rest, first +:+ "," +:+ rest).
Proof.
  intros Hfirst Hrest. unfold standardNames. rewrite (Split_first first rest Hfirst).
  pose proof (Split_two rest Hrest) as Hlen.
  destruct (strings.Split rest ",") as [|x [|y pieces]]; cbn [length] in Hlen; try lia.
  reflexivity.
Qed.

Lemma three_names_are_not_split_witness :
  standardNames ("dark_5" +:+ "," +:+ "light_1,light_2") =
    ("dark_5" +:+ "," +:+ "light_1,light_2", "dark_5" +:+ "," +:+ "light_1,light_2").
Proof. apply three_names_are_not_split; reflexivity. Defined.

(** ** More on the icon loop *)

(** X9.  When the converter was not found, [svgToPng] returns its error
    at once and the icon loop drops it: for an icon of [forcePNG]
    nothing is converted and nothing is logged about the converter; the
    PNG path is loaded all the same, so the icon is bundled when a PNG
    happens to be there and otherwise logged as missing and skipped. *)
Theorem forced_icon_without_converter
  (env : Env) (tmpDir : string) (icons : gmap string iconInfo)
  (name file : string) (s : State) :
  inkscape env = EmptyString ->
  is_Some (mapIndex forcePNG name) ->
  file <> EmptyString ->
  svgToPng env (iconPathOf tmpDir file) s = (Err "inkscape not found", s) /\
  iconBody env tmpDir icons (name, file) s =
  match fs s !! pngOf (iconPathOf tmpDir file) with
  | Some content =>
      (Ok (<[name := mkIconInfo (filepath.Base (pngOf (iconPathOf tmpDir file))) content]> icons),
       emitted (LoadResource (pngOf (iconPathOf tmpDir file))) s)
  | None =>
      (Ok icons,
       emitted (LogPrintln ("Error bundeling " +:+ name +:+ " from " +:+
                            pngOf (iconPathOf tmpDir file) +:+ " : " +:+
                            ("open " +:+ pngOf (iconPathOf tmpDir file) +:+
                             ": no such file or directory")))
         (emitted (LoadResource (pngOf (iconPathOf tmpDir file))) s))
  end.
Proof.
  intros Hink [b Hforced] Hne. split.
  - unfold svgToPng. rewrite Hink. reflexivity.
  - rewrite iconBody_step.
    assert (forced name = true) as Hf by (unfold forced; rewrite Hforced; reflexivity).
    apply String.eqb_neq in Hne.
    unfold stepIcons, stepEvents, stepFs, bundledPath, convFs, convEvents. cbn [fst snd].
    rewrite Hne, Hf, Hink. cbn [String.eqb app].
    unfold emitted. cbn [fs trace].
    destruct (fs s !! pngOf (iconPathOf tmpDir file)); cbn [app];
      rewrite <- ?app_assoc; reflexivity.
Qed.

(** The sample machine without the converter installed. *)
Definition noConverterEnv : Env := {|
  http_Get := http_Get Sample.env;
  os_MkdirTemp := os_MkdirTemp Sample.env;
  os_MkdirAll := os_MkdirAll Sample.env;
  os_Create := os_Create Sample.env;
  os_WriteFile := os_WriteFile Sample.env;
  os_WriteFile_partial := os_WriteFile_partial Sample.env;
  inkscape := EmptyString;
  inkscape_export := inkscape_export Sample.env;
  template_Parse := template_Parse Sample.env;
  template_Execute := template_Execute Sample.env
|}.

Lemma forced_icon_without_converter_witness :
  svgToPng noConverterEnv (iconPathOf "/tmp/adwaita1" "scalable/mimetypes/audio-x-generic.svg")
    sampleExtracted = (Err "inkscape not found", sampleExtracted) /\
  (iconBody noConverterEnv "/tmp/adwaita1" ∅
     ("IconNameFileAudio", "scalable/mimetypes/audio-x-generic.svg") sampleExtracted).1 = Ok ∅.
Proof.
  destruct (forced_icon_without_converter noConverterEnv "/tmp/adwaita1" ∅
              "IconNameFileAudio" "scalable/mimetypes/audio-x-generic.svg" sampleExtracted)
    as [Hsvg Hbody].
  - reflexivity.
  - vm_compute. eauto.
  - discriminate.
  - split; [exact Hsvg|]. rewrite Hbody. vm_compute. reflexivity.
Defined.

(** X10.  After the icon loop an icon of the table is in the map exactly
    when it has a file name and the file at its bundled path exists: an
    entry with an empty file name is never bundled, and no icon whose
    file is there is left out. *)
Theorem icon_bundled_iff_file_present
  (env : Env) (tmpDir : string) (order : list (string * string)) (st st' : State)
  (icons : gmap string iconInfo) :
  Permutation order iconsToGet ->
  collectIcons env tmpDir order st = (Ok icons, st') ->
  forall name file, (name, file) ∈ iconsToGet ->
    (is_Some (icons !! name) <->
     file <> EmptyString /\ is_Some (fs st' !! bundledPath tmpDir (name, file))).
Proof.
  intros Horder Hrun name file Hin.
  destruct (collectIcons_closed env tmpDir (fs st) order Horder st eq_refl)
    as (evs & Hrun' & _).
  rewrite Hrun in Hrun'. injection Hrun' as -> ->. cbn [fs].
  assert ((name, file) ∈ order) as He by (rewrite Horder; exact Hin).
  split.
  - intros [info Hinfo].
    apply put_found in Hinfo as [Hinfo|([name' file'] & He' & Hkey & Hicon)].
    { rewrite lookup_empty in Hinfo. discriminate. }
    cbn [fst] in Hkey. subst name'.
    assert ((name, file') = (name, file)) as Heq
      by (apply (keys_inj order);
          [exact (order_keys_NoDup order Horder) | exact He' | exact He | reflexivity]).
    injection Heq as ->.
    unfold iconOf in Hicon.
    destruct (contentOf env tmpDir (fs st) (name, file)) as [content|] eqn:Hcontent;
      [|discriminate].
    assert (file <> EmptyString) as Hne.
    { intros ->. unfold contentOf in Hcontent. discriminate. }
    split; [exact Hne|].
    rewrite (finalFiles_bundled env tmpDir (fs st) order Horder (name, file) He Hne).
    rewrite Hcontent. eauto.
  - intros [Hne [content Hcontent]].
    rewrite (finalFiles_bundled env tmpDir (fs st) order Horder (name, file) He Hne)
      in Hcontent.
    exists (mkIconInfo (filepath.Base (bundledPath tmpDir (name, file))) content).
    apply (put_entry fst (iconOf env tmpDir (fs st)) order ∅ (name, file));
      [exact (separate_icons env tmpDir (fs st) order Horder) | exact He|].
    unfold iconOf. rewrite Hcontent. reflexivity.
Qed.

Lemma icon_bundled_iff_file_present_witness :
  is_Some (finalIcons Sample.env "/tmp/adwaita1" (fs sampleExtracted) iconsToGet
             !! "IconNameHistory") <->
  EmptyString <> EmptyString /\
  is_Some (fs (collectIcons Sample.env "/tmp/adwaita1" iconsToGet sampleExtracted).2
             !! bundledPath "/tmp/adwaita1" ("IconNameHistory", EmptyString)).
Proof.
  apply (icon_bundled_iff_file_present Sample.env "/tmp/adwaita1" iconsToGet sampleExtracted
           _ _ (Permutation_refl _) sample_icons_run "IconNameHistory" EmptyString).
  apply (bool_decide_unpack _). vm_compute. exact I.
Defined.

(** ** The temporary directory and the two output files *)

(** X11.  [defer os.RemoveAll(tmpDir)]: once the archive was fetched and
    the temporary directory created, [generateIcons] removes that
    directory whatever its outcome (success, error or panic): the
    removal is among its actions and no file under the directory is
    left when it ends.  (The deferred closing of the response body runs
    after the removal; it touches no file.) *)
Theorem temporary_directory_is_removed
  (lib : GoLib) (env : Env) (order : list (string * string)) (st : State)
  (resp : Response) (tmpDir : string) :
  http_Get env adwaitaIconsPage = Ok resp ->
  os_MkdirTemp env = Ok tmpDir ->
  (forall path, under tmpDir path = true ->
     fs (generateIcons lib env order st).2 !! path = None) /\
  exists evs,
    trace (generateIcons lib env order st).2 =
      trace st ++ HttpGet adwaitaIconsPage :: MkdirTemp tmpDir :: evs /\
    RemoveAll tmpDir ∈ evs.
Proof.
  intros Hget Htmp. rewrite generateIcons_afterGet. unfold afterIconsGet.
  rewrite bind_lift, Hget. destruct (tar_members lib resp) as [members ending].
  rewrite bind_mkdirTemp, Htmp, generateIcons_formatted. unfold deferred.
  set (s0 := emitted (MkdirTemp tmpDir) (emitted (HttpGet adwaitaIconsPage) st)).
  assert (exists evs, forall r s', (formatted <- iconsFormatted lib env tmpDir members ending order ;;
             os_writeFile env iconsOutput formatted)%go s0 = (r, s') ->
            trace s' = trace s0 ++ evs) as [evs Hevs].
  { unfold bind.
    destruct (emitsOnly_iconsFormatted lib env tmpDir members ending order s0)
      as (evs & Htr & _).
    destruct (iconsFormatted lib env tmpDir members ending order s0) as [[formatted| |] s2].
    - rewrite os_writeFile_run. cbn [snd] in Htr.
      exists (evs ++ [WriteFile iconsOutput formatted]). intros r s'.
      destruct (os_WriteFile env iconsOutput); intros [= <- <-];
        rewrite ?(proj1 (failedWrite_files env _ _ _));
        unfold stored, emitted; cbn [trace]; rewrite Htr, <- app_assoc; reflexivity.
    - exists evs. intros r s' [= <- <-]. exact Htr.
    - exists evs. intros r s' [= <- <-]. exact Htr. }
  destruct ((formatted <- iconsFormatted lib env tmpDir members ending order ;;
             os_writeFile env iconsOutput formatted)%go s0) as [r s'] eqn:Hrun.
  specialize (Hevs r s' eq_refl). cbn [snd]. split.
  - intros path Hunder. unfold os_removeAll, emitted. cbn [fs].
    apply map_lookup_filter_None. right. intros content _. cbn [fst]. congruence.
  - exists (evs ++ [RemoveAll tmpDir]). split.
    + unfold os_removeAll, emitted. cbn [trace]. rewrite Hevs.
      unfold s0, emitted. cbn [trace]. rewrite <- !app_assoc. reflexivity.
    + apply elem_of_app. right. apply elem_of_cons. left. reflexivity.
Qed.

Lemma temporary_directory_is_removed_witness :
  fs (generateIcons Sample.lib Sample.env iconsToGet Sample.start).2
    !! "/tmp/adwaita1/adwaita-icon-theme-master-Adwaita/Adwaita/scalable/places/folder.svg" = None.
Proof.
  refine (proj1 (temporary_directory_is_removed Sample.lib Sample.env iconsToGet Sample.start
                   _ "/tmp/adwaita1" eq_refl eq_refl) _ _).
  vm_compute. reflexivity.
Defined.

(** X12.  A successful [generateColorScheme] made one request and one
    write: the only file it changed is [colorSchemeOutput], which holds
    the formatted rendering of the schemes read from the rows of the
    page. *)
Theorem color_file_is_formatted_rendering
  (lib : GoLib) (env : Env) (wo so : list (string * string)) (st st1 : State) (u : unit) :
  generateColorScheme lib env wo so st = (Ok u, st1) ->
  exists reps htpage data formatted,
    http_Get env adwaitaColorPage = Ok reps /\
    io_ReadAll reps = Ok htpage /\
    collectSchemes lib (regexp.tableRowMatcher_FindAllStringSubmatch htpage) wo so = Ok data /\
    format_Source lib (renderColors data) = Ok formatted /\
    fs st1 = <[colorSchemeOutput := formatted]> (fs st) /\
    trace st1 = trace st ++ [HttpGet adwaitaColorPage; WriteFile colorSchemeOutput formatted].
Proof.
  intros Hrun.
  destruct (generateColorScheme_cases lib env wo so st)
    as [(formatted & Hstages & Hwrite)|[Hfail _]].
  - destruct Hstages as (reps & htpage & data & buffer & Hget & Hread & Hdata & _ & Hexec & Hfmt).
    exists reps, htpage, data, formatted.
    assert (buffer = renderColors data) as ->.
    { unfold executeColors in Hexec.
      destruct (template_Execute env "AdwaitaColorScheme"); congruence. }
    rewrite Hrun, os_writeFile_run in Hwrite.
    destruct (os_WriteFile env colorSchemeOutput); [discriminate|].
    injection Hwrite as _ ->. unfold stored, emitted. cbn [fs trace].
    rewrite <- app_assoc. repeat split; assumption || reflexivity.
  - rewrite Hrun in Hfail. discriminate.
Qed.

Lemma color_file_is_formatted_rendering_witness :
  exists reps htpage data formatted,
    http_Get Sample.env adwaitaColorPage = Ok reps /\
    io_ReadAll reps = Ok htpage /\
    collectSchemes Sample.lib (regexp.tableRowMatcher_FindAllStringSubmatch htpage)
      colorToGet standardColorToGet = Ok data /\
    format_Source Sample.lib (renderColors data) = Ok formatted /\
    fs (generateColorScheme Sample.lib Sample.env colorToGet standardColorToGet Sample.rerun).2 =
      <[colorSchemeOutput := formatted]> (fs Sample.rerun) /\
    trace (generateColorScheme Sample.lib Sample.env colorToGet standardColorToGet Sample.rerun).2 =
      trace Sample.rerun ++ [HttpGet adwaitaColorPage; WriteFile colorSchemeOutput formatted].
Proof.
  apply (color_file_is_formatted_rendering Sample.lib Sample.env colorToGet standardColorToGet
           Sample.rerun _ tt).
  vm_compute. reflexivity.
Defined.

Lemma iconsFormatted_run (lib : GoLib) (env : Env) tmpDir members ending order s formatted st2 :
  iconsFormatted lib env tmpDir members ending order s = (Ok formatted, st2) ->
  exists icons,
    is_Ok (extract env tmpDir members ending s).1 = true /\
    collectIcons env tmpDir order (extract env tmpDir members ending s).2 = (Ok icons, st2) /\
    format_Source lib (renderIcons lib icons) = Ok formatted.
Proof.
  unfold iconsFormatted, bind.
  destruct (extract env tmpDir members ending s) as [[u| |] s1]; try discriminate.
  destruct (collectIcons env tmpDir order s1) as [[icons| |] s2] eqn:Hicons;
    try discriminate.
  unfold lift, executeIcons.
  destruct (template_Parse env "AdwaitaIcons"); cbn [check wrap]; try discriminate.
  destruct (template_Execute env "AdwaitaIcons"); cbn [wrap]; try discriminate.
  destruct (format_Source lib (renderIcons lib icons)) as [src| |] eqn:Hsrc; cbn [wrap];
    try discriminate.
  intros [= <- <-]. exists icons. cbn [fst snd]. auto.
Qed.

(** X13.  A successful [generateIcons] leaves in [iconsOutput] the
    formatted rendering of the icons that the icon loop collected from
    the extracted archive (provided the output file does not lie in the
    temporary directory, which is removed afterwards); every other file
    outside the temporary directory is as the icon loop left it. *)
Theorem icons_file_is_formatted_rendering
  (lib : GoLib) (env : Env) (order : list (string * string)) (st st' : State) (u : unit) :
  generateIcons lib env order st = (Ok u, st') ->
  exists resp tmpDir icons formatted s2,
    http_Get env adwaitaIconsPage = Ok resp /\
    os_MkdirTemp env = Ok tmpDir /\
    collectIcons env tmpDir order
      (extract env tmpDir (tar_members lib resp).1 (tar_members lib resp).2
         (emitted (MkdirTemp tmpDir) (emitted (HttpGet adwaitaIconsPage) st))).2 =
      (Ok icons, s2) /\
    format_Source lib (renderIcons lib icons) = Ok formatted /\
    (under tmpDir iconsOutput = false -> fs st' !! iconsOutput = Some formatted) /\
    (forall path, under tmpDir path = false -> path <> iconsOutput ->
       fs st' !! path = fs s2 !! path).
Proof.
  intros Hrun.
  destruct (generateIcons_cases lib env order st)
    as [(tmpDir & formatted & s2 & Hstages & Hwrite)|[Hfail _]].
  2: { rewrite Hrun in Hfail. discriminate. }
  destruct Hstages as (resp & Hget & Htmp & Hfmt).
  apply iconsFormatted_run in Hfmt as (icons & _ & Hicons & Hsrc).
  exists resp, tmpDir, icons, formatted, s2.
  rewrite Hrun, os_writeFile_run in Hwrite.
  destruct (os_WriteFile env iconsOutput); [discriminate|].
  cbn [fst snd] in Hwrite. injection Hwrite as _ ->.
  unfold os_removeAll, stored, emitted. cbn [fs trace].
  repeat split; try assumption.
  - intros Hout. apply map_lookup_filter_Some. split; [apply lookup_insert_eq | exact Hout].
  - intros path Hpath Hother. rewrite map_lookup_filter.
    rewrite lookup_insert_ne by congruence.
    destruct (fs s2 !! path) as [content|]; [|reflexivity].
    cbn. rewrite option_guard_True by exact Hpath. reflexivity.
Qed.

Lemma icons_file_is_formatted_rendering_witness :
  exists resp tmpDir icons formatted s2,
    http_Get Sample.env adwaitaIconsPage = Ok resp /\
    os_MkdirTemp Sample.env = Ok tmpDir /\
    collectIcons Sample.env tmpDir iconsToGet
      (extract Sample.env tmpDir (tar_members Sample.lib resp).1 (tar_members Sample.lib resp).2
         (emitted (MkdirTemp tmpDir) (emitted (HttpGet adwaitaIconsPage) Sample.start))).2 =
      (Ok icons, s2) /\
    format_Source Sample.lib (renderIcons Sample.lib icons) = Ok formatted /\
    (under tmpDir iconsOutput = false ->
     fs (generateIcons Sample.lib Sample.env iconsToGet Sample.start).2 !! iconsOutput =
       Some formatted) /\
    (forall path, under tmpDir path = false -> path <> iconsOutput ->
       fs (generateIcons Sample.lib Sample.env iconsToGet Sample.start).2 !! path =
       fs s2 !! path).
Proof.
  apply (icons_file_is_formatted_rendering Sample.lib Sample.env iconsToGet Sample.start _ tt).
  vm_compute. reflexivity.
Defined.

(** ** The static names of the icons *)

Lemma trimSlashes_append (pre rel : string) :
  filepath.trimSlashes rel = rel -> rel <> EmptyString ->
  filepath.trimSlashes (pre +:+ rel) = pre +:+ rel.
Proof.
  intros Htrim Hne. induction pre as [|c pre IH]; [exact Htrim|].
  change (String c pre +:+ rel) with (String c (pre +:+ rel)).
  cbn [filepath.trimSlashes]. rewrite IH.
  pose proof (append_nonempty pre rel Hne) as Hrest.
  destruct (pre +:+ rel); [congruence | reflexivity].
Qed.

Lemma lastElem_append (pre rel : string) :
  (filepath.lastElem rel).2 = true ->
  filepath.lastElem (pre +:+ rel) = filepath.lastElem rel.
Proof.
  intros Hsep. induction pre as [|c pre IH]; [reflexivity|].
  change (String c pre +:+ rel) with (String c (pre +:+ rel)).
  cbn [filepath.lastElem]. rewrite IH.
  destruct (filepath.lastElem rel) as [e b]. cbn [snd] in Hsep. subst b. reflexivity.
Qed.

(** [filepath.Base] does not look before the last separator. *)
Lemma Base_append (pre rel : string) :
  filepath.trimSlashes rel = rel -> (filepath.lastElem rel).2 = true ->
  filepath.Base (pre +:+ rel) = (filepath.lastElem rel).1.
Proof.
  intros Htrim Hsep.
  assert (rel <> EmptyString) as Hne by (intros ->; discriminate Hsep).
  pose proof (append_nonempty pre rel Hne) as Hall.
  unfold filepath.Base. rewrite (trimSlashes_append pre rel Htrim Hne).
  destruct (pre +:+ rel) as [|c s] eqn:E; [congruence|].
  rewrite <- E, (lastElem_append pre rel Hsep). reflexivity.
Qed.

(** The file that is bundled for an entry of [iconsToGet], relative to
    the directory of the icon theme. *)
Definition bundledFile (e : string * string) : string :=
  if forced e.1 then pngOf e.2 else e.2.

(** Facts about the table, by evaluation: every file name lies in a
    directory and does not end in a separator. *)
Definition fileNameChecks : bool :=
  forallb (fun e =>
    String.eqb e.2 EmptyString ||
    (String.eqb (filepath.trimSlashes (bundledFile e)) (bundledFile e) &&
     (filepath.lastElem (bundledFile e)).2)) iconsToGet.

Lemma fileNameChecks_true : fileNameChecks = true.
Proof. vm_compute. reflexivity. Qed.

Lemma bundledPath_prefix (tmpDir : string) (e : string * string) :
  e ∈ iconsToGet -> e.2 <> EmptyString ->
  bundledPath tmpDir e = iconPrefix tmpDir +:+ bundledFile e.
Proof.
  intros He Hne. unfold bundledPath, bundledFile. destruct (forced e.1).
  - exact (pngOf_path tmpDir e He Hne).
  - exact (iconPathOf_table tmpDir e He Hne).
Qed.

Lemma Base_bundledPath (tmpDir : string) (e : string * string) :
  e ∈ iconsToGet -> e.2 <> EmptyString ->
  filepath.Base (bundledPath tmpDir e) = (filepath.lastElem (bundledFile e)).1.
Proof.
  intros He Hne. rewrite (bundledPath_prefix tmpDir e He Hne).
  pose proof fileNameChecks_true as Hall. unfold fileNameChecks in Hall.
  rewrite forallb_forall in Hall. apply list_elem_of_In, Hall in He.
  apply orb_prop in He as [H|H]; [apply String.eqb_eq in H; congruence|].
  apply andb_prop in H as [Htrim Hsep]. apply String.eqb_eq in Htrim.
  exact (Base_append _ _ Htrim Hsep).
Qed.

(** X14.  The [StaticName] of a bundled icon is the last element of its
    file name in [iconsToGet] (with the extension [.png] for the icons
    of [forcePNG]): it does not depend on the temporary directory the
    archive was extracted to, so neither do the names in the generated
    source. *)
Theorem static_name_is_file_name
  (env : Env) (tmpDir : string) (order : list (string * string)) (st st' : State)
  (icons : gmap string iconInfo) (name file : string) (info : iconInfo) :
  Permutation order iconsToGet ->
  collectIcons env tmpDir order st = (Ok icons, st') ->
  (name, file) ∈ iconsToGet ->
  icons !! name = Some info ->
  StaticName info = filepath.Base (bundledFile (name, file)) /\
  StaticName info = (filepath.lastElem (bundledFile (name, file))).1.
Proof.
  intros Horder Hrun Hin Hinfo.
  destruct (collectIcons_closed env tmpDir (fs st) order Horder st eq_refl)
    as (evs & Hrun' & _).
  rewrite Hrun in Hrun'. injection Hrun' as -> ->.
  assert ((name, file) ∈ order) as He by (rewrite Horder; exact Hin).
  apply put_found in Hinfo as [Hinfo|([name' file'] & He' & Hkey & Hicon)].
  { rewrite lookup_empty in Hinfo. discriminate. }
  cbn [fst] in Hkey. subst name'.
  assert ((name, file') = (name, file)) as Heq
    by (apply (keys_inj order);
        [exact (order_keys_NoDup order Horder) | exact He' | exact He | reflexivity]).
  injection Heq as ->.
  unfold iconOf in Hicon.
  destruct (contentOf env tmpDir (fs st) (name, file)) as [content|] eqn:Hcontent;
    [|discriminate].
  assert (file <> EmptyString) as Hne.
  { intros ->. unfold contentOf in Hcontent. discriminate. }
  injection Hicon as <-. cbn [StaticName].
  rewrite (Base_bundledPath tmpDir (name, file) Hin Hne). split; [|reflexivity].
  pose proof (Base_bundledPath EmptyString (name, file) Hin Hne) as Hbase.
  rewrite (bundledPath_prefix EmptyString (name, file) Hin Hne) in Hbase.
  pose proof fileNameChecks_true as Hall. unfold fileNameChecks in Hall.
  rewrite forallb_forall in Hall. apply list_elem_of_In, Hall in Hin.
  apply orb_prop in Hin as [H|H]; [apply String.eqb_eq in H; cbn [snd] in H; congruence|].
  apply andb_prop in H as [Htrim Hsep]. apply String.eqb_eq in Htrim.
  symmetry. exact (Base_append EmptyString _ Htrim Hsep).
Qed.

Lemma static_name_is_file_name_witness :
  StaticName (mkIconInfo "audio-x-generic.png" "PNG of <svg>audio</svg>") =
    filepath.Base (bundledFile ("IconNameFileAudio", "scalable/mimetypes/audio-x-generic.svg")) /\
  StaticName (mkIconInfo "audio-x-generic.png" "PNG of <svg>audio</svg>") =
    (filepath.lastElem
       (bundledFile ("IconNameFileAudio", "scalable/mimetypes/audio-x-generic.svg"))).1.
Proof.
  apply (static_name_is_file_name Sample.env "/tmp/adwaita1" iconsToGet sampleExtracted
           _ _ "IconNameFileAudio" "scalable/mimetypes/audio-x-generic.svg" _
           (Permutation_refl _) sample_icons_run).
  - apply (bool_decide_unpack _). vm_compute. exact I.
  - vm_compute. reflexivity.
Defined.

(** ** The extraction of the archive *)

(** X15.  The extraction loop writes to the targets of the regular
    members of the archive, [filepath.Join(tmpDir, header.Name)], and
    nowhere else, also when it fails on the way; when it succeeds, each
    target holds the data of the last regular member extracted to it,
    and the members that are not regular files (directories, links)
    leave no file.  The target is the cleaned path: two member names
    that clean to the same path are one file, and a name with enough
    [..] elements has its target outside the temporary directory. *)
Theorem extraction_writes_regular_members
  (env : Env) (tmpDir : string) (members : list tarMember) (ending : option error)
  (st : State) :
  (forall path,
     (forall member, member ∈ members -> Typeflag (Header member) = tar_TypeReg ->
        targetOf tmpDir member <> path) ->
     fs (extract env tmpDir members ending st).2 !! path = fs st !! path) /\
  (is_Ok (extract env tmpDir members ending st).1 = true ->
   forall before member after,
     members = before ++ member :: after ->
     Typeflag (Header member) = tar_TypeReg ->
     (forall later, later ∈ after -> Typeflag (Header later) = tar_TypeReg ->
        targetOf tmpDir later <> targetOf tmpDir member) ->
     fs (extract env tmpDir members ending st).2 !! targetOf tmpDir member =
       Some (Data member)).
Proof.
  split; [intros path; apply extract_elsewhere|].
  intros Hok before member after -> Hreg Hlast. revert st Hok.
  induction before as [|x before IH]; intros st Hok.
  - cbn [app] in *. rewrite extract_step in *.
    apply Z.eqb_eq in Hreg. rewrite Hreg in *. cbv zeta in *.
    destruct (os_MkdirAll env _); [discriminate Hok|].
    destruct (os_Create env _); [discriminate Hok|].
    destruct (CopyErr member); [discriminate Hok|].
    rewrite (extract_elsewhere env tmpDir after ending _ _ Hlast).
    unfold stored. cbn [fs]. apply lookup_insert_eq.
  - change ((x :: before) ++ member :: after) with (x :: (before ++ member :: after)) in *.
    rewrite extract_step in *.
    destruct (Typeflag (Header x) =? tar_TypeReg); [|exact (IH st Hok)].
    cbv zeta in *.
    destruct (os_MkdirAll env _); [discriminate Hok|].
    destruct (os_Create env _); [discriminate Hok|].
    destruct (CopyErr x); [discriminate Hok|].
    exact (IH _ Hok).
Qed.

Example targetOf_ex :
  targetOf "/tmp/adwaita1" (TarMember (TarHeader tar_TypeReg "a/x.svg") "1" None) =
    "/tmp/adwaita1/a/x.svg" /\
  targetOf "/tmp/adwaita1" (TarMember (TarHeader tar_TypeReg "./a//x.svg") "2" None) =
    "/tmp/adwaita1/a/x.svg" /\
  targetOf "/tmp/adwaita1" (TarMember (TarHeader tar_TypeReg "../x.svg") "3" None) =
    "/tmp/x.svg" /\
  under "/tmp/adwaita1" "/tmp/x.svg" = false.
Proof. repeat split; reflexivity. Qed.

(** Two members whose names clean to the same path. *)
Definition twiceExtracted : list tarMember := [
  TarMember (TarHeader tar_TypeReg "a/x.svg") "<svg>first</svg>" None;
  TarMember (TarHeader tar_TypeReg "./a//x.svg") "<svg>second</svg>" None
].

Lemma extraction_writes_regular_members_witness :
  fs sampleExtracted !! "/tmp/adwaita1/adwaita-icon-theme-master-Adwaita/Adwaita/scalable" =
    None /\
  fs sampleExtracted
    !! "/tmp/adwaita1/adwaita-icon-theme-master-Adwaita/Adwaita/scalable/places/folder.svg" =
    Some "<svg>folder</svg>" /\
  fs (extract Sample.env "/tmp/adwaita1" twiceExtracted None Sample.start).2
    !! "/tmp/adwaita1/a/x.svg" = Some "<svg>second</svg>".
Proof.
  destruct (extraction_writes_regular_members Sample.env "/tmp/adwaita1" Sample.members None
              Sample.start) as [Helse Hdata].
  destruct (extraction_writes_regular_members Sample.env "/tmp/adwaita1" twiceExtracted None
              Sample.start) as [_ Htwice].
  split; [|split].
  - refine (eq_trans (Helse _ _) _); [|reflexivity].
    intros member Hin Hreg.
    repeat (apply elem_of_cons in Hin as [->|Hin]); try discriminate; inversion Hin.
  - refine (Hdata eq_refl [_] _ [_; _] eq_refl eq_refl _).
    intros later Hin Hreg.
    repeat (apply elem_of_cons in Hin as [->|Hin]); try discriminate; inversion Hin.
  - refine (Htwice eq_refl [_] _ [] eq_refl eq_refl _).
    intros later Hin. inversion Hin.
Defined.

(** ** The schemes of the older generator *)

(** What the older loop stores for an entry of its table. *)
Definition legacyPair (lib : GoLib) (rows : list submatch) (e : string * string)
  : result (Legacy.colorInfo * Legacy.colorInfo) :=
  match Legacy.getColorFor lib rows e.2 "light" with
  | Ok lcol =>
      match Legacy.getColorFor lib rows e.2 "dark" with
      | Ok dcol => Ok (Legacy.mkColorInfo (Legacy.sprintfRGBA lcol) e.2,
                       Legacy.mkColorInfo (Legacy.sprintfRGBA dcol) e.2)
      | Err x => Err x
      | Panic msg => Panic msg
      end
  | Err x => Err x
  | Panic msg => Panic msg
  end.

Lemma legacy_colorBody_insert (lib : GoLib) (rows : list submatch) acc e :
  Legacy.colorBody lib rows acc e = insertBody (legacyPair lib rows) acc e.
Proof.
  unfold Legacy.colorBody, insertBody, legacyPair. destruct acc as [l d], e as [colname c].
  cbn [fst snd].
  destruct (Legacy.getColorFor lib rows c "light"); [|reflexivity..].
  destruct (Legacy.getColorFor lib rows c "dark"); reflexivity.
Qed.

Lemma legacy_range_insert (lib : GoLib) (rows : list submatch) order acc :
  rangeR (Legacy.colorBody lib rows) order acc =
  rangeR (insertBody (legacyPair lib rows)) order acc.
Proof.
  revert acc. induction order as [|e order IH]; intros acc; [reflexivity|].
  cbn [rangeR]. rewrite legacy_colorBody_insert.
  destruct (insertBody (legacyPair lib rows) acc e); [apply IH | reflexivity..].
Qed.

Lemma legacy_colorToGet_keys_NoDup : NoDup (keys Legacy.colorToGet).
Proof. apply (bool_decide_unpack _). vm_compute. exact I. Qed.

(** The older [main] returned: every step before the writing went
    through. *)
Lemma legacy_main_returned (lib : GoLib) (env : Env) order st :
  (Legacy.main lib env order st).1 = Returned ->
  exists reps htpage data formatted,
    http_Get env adwaitaColorPage = Ok reps /\
    io_ReadAll reps = Ok htpage /\
    rangeR (Legacy.colorBody lib (regexp.tableRowMatcher_FindAllStringSubmatch htpage))
      order (∅, ∅) = Ok data /\
    format_Source lib (Legacy.render data) = Ok formatted /\
    trace (Legacy.main lib env order st).2 =
      trace st ++ [HttpGet adwaitaColorPage; CreateFile Legacy.output;
                   WriteFile Legacy.output formatted].
Proof.
  unfold Legacy.main, Legacy.mainBody, Legacy.untilCreate, Legacy.renderAndWrite, http_get,
    os_create, Legacy.file_Write, Legacy.execute, bind, emit, lift, ret, log_Fatal.
  destruct (http_Get env adwaitaColorPage) as [reps| |] eqn:Hget; try discriminate.
  destruct (io_ReadAll reps) as [htpage| |] eqn:Hread; try discriminate.
  cbn [fst snd].
  destruct (rangeR _ order _) as [data| |] eqn:Hdata; try discriminate.
  destruct (os_Create env Legacy.output); try discriminate.
  destruct (template_Parse env "source"); cbn [check]; try discriminate.
  destruct (template_Execute env "source"); try discriminate.
  destruct (format_Source lib (Legacy.render data)) as [formatted| |] eqn:Hfmt;
    try discriminate.
  intros _. exists reps, htpage, data, formatted. cbn [fst snd].
  repeat split; try assumption.
  destruct (os_WriteFile env Legacy.output);
    rewrite ?(proj1 (failedWrite_files env _ _ _));
    unfold stored, emitted; cbn [fs trace]; rewrite <- !app_assoc; reflexivity.
Qed.

(** X16.  When the older [main] returns normally, both lookups have
    succeeded for every entry of its [colorToGet]; the two schemes it
    rendered hold, under each key of the table and under no other key,
    the colour found on the page printed as a [color.RGBA] literal,
    together with the Adwaita name; and the formatted rendering is what
    it wrote to [output], after one request and the creation of the
    file. *)
Theorem legacy_schemes_follow_table
  (lib : GoLib) (env : Env) (order : list (string * string)) (st : State) :
  Permutation order Legacy.colorToGet ->
  (Legacy.main lib env order st).1 = Returned ->
  exists reps htpage light dark formatted,
    http_Get env adwaitaColorPage = Ok reps /\
    io_ReadAll reps = Ok htpage /\
    (forall colname color, (colname, color) ∈ Legacy.colorToGet ->
       exists lcol dcol,
         Legacy.getColorFor lib (regexp.tableRowMatcher_FindAllStringSubmatch htpage)
           color "light" = Ok lcol /\
         Legacy.getColorFor lib (regexp.tableRowMatcher_FindAllStringSubmatch htpage)
           color "dark" = Ok dcol /\
         light !! colname = Some (Legacy.mkColorInfo (Legacy.sprintfRGBA lcol) color) /\
         dark !! colname = Some (Legacy.mkColorInfo (Legacy.sprintfRGBA dcol) color)) /\
    (forall key, key ∉ keys Legacy.colorToGet -> light !! key = None /\ dark !! key = None) /\
    format_Source lib (Legacy.render (light, dark)) = Ok formatted /\
    trace (Legacy.main lib env order st).2 =
      trace st ++ [HttpGet adwaitaColorPage; CreateFile Legacy.output;
                   WriteFile Legacy.output formatted].
Proof.
  intros Horder Hret.
  destruct (legacy_main_returned lib env order st Hret)
    as (reps & htpage & data & formatted & Hget & Hread & Hdata & Hfmt & Htrace).
  set (rows := regexp.tableRowMatcher_FindAllStringSubmatch htpage) in *.
  rewrite legacy_range_insert in Hdata.
  apply rangeR_insert_Ok in Hdata as [Hall ->].
  assert (NoDup (keys order)) as Hnd
    by (rewrite (keys_Permutation _ _ Horder); exact legacy_colorToGet_keys_NoDup).
  destruct (foldl (store (legacyPair lib rows)) (∅, ∅) order) as [light dark] eqn:Hfold.
  exists reps, htpage, light, dark, formatted.
  repeat split; try assumption.
  - intros colname c Hin. rewrite <- Horder in Hin.
    rewrite forallb_forall in Hall.
    assert (entryOk (legacyPair lib rows) (colname, c) = true) as Hok
      by (apply Hall, list_elem_of_In; exact Hin).
    unfold entryOk, legacyPair in Hok. cbn [snd] in Hok.
    destruct (Legacy.getColorFor lib rows c "light") as [lcol| |] eqn:Hl; try discriminate.
    destruct (Legacy.getColorFor lib rows c "dark") as [dcol| |] eqn:Hd; try discriminate.
    exists lcol, dcol. split; [exact Hl|]. split; [exact Hd|].
    assert (legacyPair lib rows (colname, c) =
            Ok (Legacy.mkColorInfo (Legacy.sprintfRGBA lcol) c,
                Legacy.mkColorInfo (Legacy.sprintfRGBA dcol) c)) as Hpair
      by (unfold legacyPair; cbn [snd]; rewrite Hl, Hd; reflexivity).
    pose proof (store_entry (legacyPair lib rows) order (∅, ∅) (colname, c) _ _ Hnd Hin Hpair)
      as Hst.
    rewrite Hfold in Hst. exact Hst.
  - pose proof (store_other (legacyPair lib rows) order (∅, ∅) key) as Hst.
    rewrite Hfold in Hst. cbn [fst snd] in Hst. rewrite lookup_empty in Hst. apply Hst.
    rewrite (keys_Permutation _ _ Horder). assumption.
  - pose proof (store_other (legacyPair lib rows) order (∅, ∅) key) as Hst.
    rewrite Hfold in Hst. cbn [fst snd] in Hst. rewrite lookup_empty in Hst. apply Hst.
    rewrite (keys_Permutation _ _ Horder). assumption.
Qed.

Lemma legacy_schemes_follow_table_witness :
  exists reps htpage light dark formatted,
    http_Get Sample.env adwaitaColorPage = Ok reps /\
    io_ReadAll reps = Ok htpage /\
    (forall colname color, (colname, color) ∈ Legacy.colorToGet ->
       exists lcol dcol,
         Legacy.getColorFor Sample.lib (regexp.tableRowMatcher_FindAllStringSubmatch htpage)
           color "light" = Ok lcol /\
         Legacy.getColorFor Sample.lib (regexp.tableRowMatcher_FindAllStringSubmatch htpage)
           color "dark" = Ok dcol /\
         light !! colname = Some (Legacy.mkColorInfo (Legacy.sprintfRGBA lcol) color) /\
         dark !! colname = Some (Legacy.mkColorInfo (Legacy.sprintfRGBA dcol) color)) /\
    (forall key, key ∉ keys Legacy.colorToGet -> light !! key = None /\ dark !! key = None) /\
    format_Source Sample.lib (Legacy.render (light, dark)) = Ok formatted /\
    trace (Legacy.main Sample.lib Sample.env (rev Legacy.colorToGet) Sample.rerun).2 =
      trace Sample.rerun ++ [HttpGet adwaitaColorPage; CreateFile Legacy.output;
                             WriteFile Legacy.output formatted].
Proof.
  apply (legacy_schemes_follow_table Sample.lib Sample.env (rev Legacy.colorToGet) Sample.rerun).
  - symmetry. apply Permutation_rev.
  - vm_compute. reflexivity.
Defined.

(** ** Themed and static resources *)

(** What the icon loop has stored for an entry of the table. *)
Lemma collected_icon_info
  (env : Env) (tmpDir : string) (order : list (string * string)) (st st' : State)
  (icons : gmap string iconInfo) (name file : string) (info : iconInfo) :
  Permutation order iconsToGet ->
  collectIcons env tmpDir order st = (Ok icons, st') ->
  (name, file) ∈ iconsToGet ->
  icons !! name = Some info ->
  file <> EmptyString /\
  StaticName info = (filepath.lastElem (bundledFile (name, file))).1 /\
  fs st' !! bundledPath tmpDir (name, file) = Some (Content info).
Proof.
  intros Horder Hrun Hin Hinfo.
  destruct (collectIcons_closed env tmpDir (fs st) order Horder st eq_refl)
    as (evs & Hrun' & _).
  rewrite Hrun in Hrun'. injection Hrun' as -> ->.
  assert ((name, file) ∈ order) as He by (rewrite Horder; exact Hin).
  apply put_found in Hinfo as [Hinfo|([name' file'] & He' & Hkey & Hicon)].
  { rewrite lookup_empty in Hinfo. discriminate. }
  cbn [fst] in Hkey. subst name'.
  assert ((name, file') = (name, file)) as Heq
    by (apply (keys_inj order);
        [exact (order_keys_NoDup order Horder) | exact He' | exact He | reflexivity]).
  injection Heq as ->.
  unfold iconOf in Hicon.
  destruct (contentOf env tmpDir (fs st) (name, file)) as [content|] eqn:Hcontent;
    [|discriminate].
  assert (file <> EmptyString) as Hne.
  { intros ->. unfold contentOf in Hcontent. discriminate. }
  injection Hicon as <-. cbn [StaticName Content fs].
  split; [exact Hne|]. split; [exact (Base_bundledPath tmpDir (name, file) Hin Hne)|].
  rewrite (finalFiles_bundled env tmpDir (fs st) order Horder (name, file) He Hne).
  exact Hcontent.
Qed.

(** Facts about the table, by evaluation: the files whose name contains
    [symbolic] are those of the directory [symbolic] of the theme. *)
Definition symbolicChecks : bool :=
  forallb (fun e =>
    String.eqb e.2 EmptyString ||
    Bool.eqb (strings.Contains (filepath.lastElem (bundledFile e)).1 "symbolic")
             (strings.HasPrefix e.2 "symbolic/")) iconsToGet.

Lemma symbolicChecks_true : symbolicChecks = true.
Proof. vm_compute. reflexivity. Qed.

(** X17.  In the generated source a bundled icon is a themed resource
    ([theme.NewThemedResource]) exactly when its file comes from the
    directory [symbolic] of the icon theme, and a plain
    [fyne.StaticResource] otherwise: the template decides on the static
    name, which the icon loop took from the file name.  The icons of
    [forcePNG], converted from [scalable], are therefore plain. *)
Theorem themed_iff_symbolic_directory
  (lib : GoLib) (env : Env) (tmpDir : string) (order : list (string * string))
  (st st' : State) (icons : gmap string iconInfo) (name file : string) (info : iconInfo) :
  Permutation order iconsToGet ->
  collectIcons env tmpDir order st = (Ok icons, st') ->
  (name, file) ∈ iconsToGet ->
  icons !! name = Some info ->
  iconBlock lib (name, info) =
  nl +:+
  (if strings.HasPrefix file "symbolic/"
   then nl +:+ "    theme." +:+ name +:+ ": theme.NewThemedResource(&fyne.StaticResource{" +:+
        nl +:+ iconFields lib info +:+ "    })," +:+ nl
   else nl +:+ "    theme." +:+ name +:+ ": &fyne.StaticResource{" +:+
        nl +:+ iconFields lib info +:+ "    }," +:+ nl) +:+
  nl.
Proof.
  intros Horder Hrun Hin Hinfo.
  destruct (collected_icon_info env tmpDir order st st' icons name file info
              Horder Hrun Hin Hinfo) as (Hne & Hname & _).
  pose proof symbolicChecks_true as Hall. unfold symbolicChecks in Hall.
  rewrite forallb_forall in Hall. apply list_elem_of_In, Hall in Hin.
  apply orb_prop in Hin as [H|H]; [apply String.eqb_eq in H; cbn [snd] in H; congruence|].
  apply Bool.eqb_prop in H. cbn [snd] in H.
  unfold iconBlock. rewrite Hname, H. reflexivity.
Qed.

Lemma themed_iff_symbolic_directory_witness :
  iconBlock Sample.lib
    ("IconNameFileAudio", mkIconInfo "audio-x-generic.png" "PNG of <svg>audio</svg>") =
  nl +:+
  (if strings.HasPrefix "scalable/mimetypes/audio-x-generic.svg" "symbolic/"
   then nl +:+ "    theme." +:+ "IconNameFileAudio" +:+
        ": theme.NewThemedResource(&fyne.StaticResource{" +:+
        nl +:+ iconFields Sample.lib
                 (mkIconInfo "audio-x-generic.png" "PNG of <svg>audio</svg>") +:+
        "    })," +:+ nl
   else nl +:+ "    theme." +:+ "IconNameFileAudio" +:+ ": &fyne.StaticResource{" +:+
        nl +:+ iconFields Sample.lib
                 (mkIconInfo "audio-x-generic.png" "PNG of <svg>audio</svg>") +:+
        "    }," +:+ nl) +:+
  nl.
Proof.
  apply (themed_iff_symbolic_directory Sample.lib Sample.env "/tmp/adwaita1" iconsToGet
           sampleExtracted _ _ "IconNameFileAudio" "scalable/mimetypes/audio-x-generic.svg" _
           (Permutation_refl _) sample_icons_run).
  - apply (bool_decide_unpack _). vm_compute. exact I.
  - vm_compute. reflexivity.
Defined.
